(** * An 8x8 red/green LED matrix on an ATmega88: [matrix.c]

    A shallow embedding of the firmware's core routines, followed by the
    properties they satisfy.

    Conventions.
    - [uint8_t], [uint16_t] and [uint64_t] values are [Z]s, with the
      wrap-around of every store written out ([u8], [u16], [u64]).  On the
      AVR [int] is 16 bits wide; the bit operations below never leave that
      range before they are stored, so they are taken on [Z] directly.
    - The frame buffer [framebuf] is a [list Z]; a [uint16_t *] into it is
      the offset of the word it points to.  Reads and writes go through a
      small state-and-failure monad: an access outside the array (undefined
      behaviour in C) is [None].
    - Hardware inputs (the ADC, [PINC]) are arguments; hardware outputs
      ([PORTC], [PORTD]) are logged in the order they are written. *)

From Stdlib Require Import ZArith List Lia Bool Permutation.
From stdpp Require Import base list.
Import ListNotations.

Local Open Scope Z_scope.

(** ** Machine integers *)

Definition u8 (x : Z) : Z := x mod 2 ^ 8.
Definition u16 (x : Z) : Z := x mod 2 ^ 16.
Definition u64 (x : Z) : Z := x mod 2 ^ 64.

(** C's [!!x]. *)
Definition nz (x : Z) : Z := if x =? 0 then 0 else 1.

(** ** Memory: the words of [framebuf] *)

Module Mem.

Definition M (A : Type) : Type := list Z -> option (A * list Z).

Definition ret {A} (a : A) : M A := fun m => Some (a, m).

Definition bind {A B} (c : M A) (k : A -> M B) : M B :=
  fun m => match c m with
           | Some (a, m') => k a m'
           | None => None
           end.

(** [p[k]] as an rvalue. *)
Definition load (k : nat) : M Z :=
  fun m => match m !! k with
           | Some v => Some (v, m)
           | None => None
           end.

(** [p[k] = v]. *)
Definition store (k : nat) (v : Z) : M unit :=
  fun m => if decide (k < length m)%nat then Some (tt, <[k:=v]> m) else None.

(** [for (i = start; i < bound; i += step) acc = body i acc], on a
    [uint8_t] counter.  [fuel] bounds the number of iterations. *)
Fixpoint for_loop {S} (fuel : nat) (i bound step : Z)
         (body : Z -> S -> M S) (acc : S) : M S :=
  if i <? bound then
    match fuel with
    | O => fun _ => None
    | Datatypes.S fuel' =>
        bind (body i acc) (for_loop fuel' (u8 (i + step)) bound step body)
    end
  else ret acc.

(** The word at [k], 0 outside the array. *)
Definition rd (m : list Z) (k : nat) : Z := default 0 (m !! k).

End Mem.

Notation "'let*' x := c 'in' k" := (Mem.bind c (fun x => k))
  (at level 10, x name, c at level 100, k at level 200).
Notation "c ;; k" := (Mem.bind c (fun _ => k))
  (at level 100, k at level 200, right associativity).

(** ** The automaton: [life] *)

Definition DEAD : Z := 0.
Definition STEADY : Z := 1.
Definition ACTIVE : Z := 2.

(** The sum of the eight [!!(src[..] & (3 << ..))] terms for the cell at bit
    offset [j] of the column [si], with [sL] and [sR] the columns to its
    left and right. *)
Definition neighbors (sL si sR j : Z) : Z :=
  let U := u8 (Z.land (j - 2) 15) in
  let D := u8 (Z.land (j + 2) 15) in
  u8 (nz (Z.land sL (Z.shiftl 3 U)) +
      nz (Z.land sL (Z.shiftl 3 j)) +
      nz (Z.land sL (Z.shiftl 3 D)) +
      nz (Z.land si (Z.shiftl 3 U)) +
      nz (Z.land si (Z.shiftl 3 D)) +
      nz (Z.land sR (Z.shiftl 3 U)) +
      nz (Z.land sR (Z.shiftl 3 j)) +
      nz (Z.land sR (Z.shiftl 3 D))).

(** The [if (curstate) ... else ...] cascade. *)
Definition nextstate (curstate nb : Z) : Z :=
  if negb (curstate =? 0) then
    if (nb <? 2) || (3 <? nb) then 0
    else if curstate =? 1 then 3
    else 2
  else if nb =? 3 then 1
  else 0.

(** One pass of the inner loop body: cell [j/2] of column [i]. *)
Definition life_cell (src dst : nat) (i j : Z) : Mem.M unit :=
  let* si := Mem.load (src + Z.to_nat i) in
  let curstate := u8 (Z.land (Z.shiftr si j) 3) in
  let L := u8 (Z.land (i - 1) 7) in
  let R := u8 (Z.land (i + 1) 7) in
  let* sL := Mem.load (src + Z.to_nat L) in
  let* sR := Mem.load (src + Z.to_nat R) in
  let nb := neighbors sL si sR j in
  let ns := nextstate curstate nb in
  let* d0 := Mem.load (dst + Z.to_nat i) in
  Mem.store (dst + Z.to_nat i) (u16 (Z.land d0 (Z.lnot (Z.shiftl 3 j)))) ;;
  let* d1 := Mem.load (dst + Z.to_nat i) in
  Mem.store (dst + Z.to_nat i) (u16 (Z.lor d1 (Z.shiftl ns j))).

(** [(dst[i] == 0) ? DEAD : (dst[i] == src[i]) ? STEADY : ACTIVE] *)
Definition colstate_of (di si : Z) : Z :=
  if di =? 0 then DEAD else if di =? si then STEADY else ACTIVE.

(** The two updates of [deadcols] and [ret] that close the outer loop body;
    the state is [(ret, deadcols)]. *)
Definition tally (colstate : Z) (st : Z * Z) : Z * Z :=
  let deadcols := if colstate =? DEAD then u8 (snd st + 1) else snd st in
  let ret := if fst st <? colstate then colstate else fst st in
  (ret, deadcols).

(** One pass of the outer loop body: column [i]. *)
Definition life_column (src dst : nat) (i : Z) (st : Z * Z) : Mem.M (Z * Z) :=
  Mem.for_loop 8 0 16 2 (fun j _ => life_cell src dst i j) tt ;;
  let* di := Mem.load (dst + Z.to_nat i) in
  let* si := Mem.load (src + Z.to_nat i) in
  Mem.ret (tally (colstate_of di si) st).

Definition life (src dst : nat) : Mem.M Z :=
  let* st := Mem.for_loop 8 0 8 1 (life_column src dst) (DEAD, 0) in
  Mem.ret (if snd st =? 7 then STEADY else fst st).

(** ** The frame buffer helpers *)

(** [memset(&framebuf[start], 0, cols << 1)]: [cols] words are zeroed. *)
Fixpoint clear_screen (start : nat) (cols : nat) : Mem.M unit :=
  match cols with
  | O => Mem.ret tt
  | S cols' => Mem.store start 0 ;; clear_screen (S start) cols'
  end.

(** [badrand]: eight conversions, most significant bit first.  [adc k] is
    the result of the [k]-th conversion since the call. *)
Definition badrand (adc : nat -> Z) : Z :=
  fold_left (fun r k => u8 (Z.lor (u8 (Z.shiftl r 1)) (Z.land (adc k) 1)))
            (seq 0 8) 0.

(** [random_field]: column [i] is built from the conversions [8i .. 8i+7]. *)
Definition random_column (adc : nat -> Z) (i : nat) : Z :=
  let b := fold_left
             (fun b j => u16 (Z.lor (u16 (Z.shiftl b 2)) (Z.land (adc (8 * i + j)%nat) 1)))
             (seq 0 8) 0 in
  u16 (Z.shiftl b 1).

Definition random_field (adc : nat -> Z) (p : nat) : Mem.M unit :=
  Mem.for_loop 8 0 8 1
    (fun i _ => Mem.store (p + Z.to_nat i) (random_column adc (Z.to_nat i))) tt.

(** ** The buttons: [GetButtons] *)

Definition BUTTON_LEFT : Z := 1.
Definition BUTTON_RIGHT : Z := 2.
Definition BUTTON_HOLD : Z := 16.
Definition REPEAT_THRESHOLD : Z := 20.

Module Buttons.

(** The two [static] variables of [GetButtons]. *)
Record state := { prevState : Z; repeat : Z }.

Definition init : state := {| prevState := 255; repeat := 0 |}.

End Buttons.

(** One call, with [PINC] the value read from the port.  The result is the
    returned byte and the statics after the call. *)
Definition GetButtons (PINC : Z) (st : Buttons.state) : Z * Buttons.state :=
  let curState := u8 (Z.shiftr (Z.land PINC 48) 4) in
  if REPEAT_THRESHOLD <=? Buttons.repeat st then
    (0, {| Buttons.prevState := curState;
           Buttons.repeat := if curState =? 3 then 0 else Buttons.repeat st |})
  else if negb (curState =? Buttons.prevState st) then
    let pressed := u8 (Z.land (Z.lnot (Buttons.prevState st)) curState) in
    (pressed, {| Buttons.prevState := curState;
                 Buttons.repeat := Buttons.repeat st |})
  else if negb (curState =? 3) then
    let repeat' := u8 (Buttons.repeat st + 1) in
    let st' := {| Buttons.prevState := Buttons.prevState st;
                  Buttons.repeat := repeat' |} in
    if repeat' =? REPEAT_THRESHOLD then
      (u8 (Z.lor BUTTON_HOLD (Z.lnot (Z.land curState 3))), st')
    else (0, st')
  else (0, st).

(** A sequence of polls: the bytes returned, in order, and the statics at
    the end. *)
Fixpoint polls (pins : list Z) (st : Buttons.state) : list Z * Buttons.state :=
  match pins with
  | [] => ([], st)
  | p :: pins' =>
      let '(e, st') := GetButtons p st in
      let '(es, st'') := polls pins' st' in
      (e :: es, st'')
  end.

(** ** The column scanner: [ISR(TIMER0_COMPA_vect)] *)

Module Scanner.

Inductive port_write : Type :=
| WrC (v : Z)
| WrD (v : Z).

(** The two output ports, the [static] column counter, and the writes to
    the ports so far, oldest first. *)
Record hw := { PORTC : Z; PORTD : Z; col : Z; log : list port_write }.

Definition setC (f : Z -> Z) (h : hw) : hw :=
  let v := u8 (f (PORTC h)) in
  {| PORTC := v; PORTD := PORTD h; col := col h; log := log h ++ [WrC v] |}.

Definition setD (v : Z) (h : hw) : hw :=
  {| PORTC := PORTC h; PORTD := u8 v; col := col h; log := log h ++ [WrD (u8 v)] |}.

Definition LATCH_0 : hw -> hw := setC (fun p => Z.land p (Z.lnot 4)).
Definition LATCH_1 : hw -> hw := setC (fun p => Z.lor p 4).
Definition SCK_0 : hw -> hw := setC (fun p => Z.land p (Z.lnot 2)).
Definition SCK_1 : hw -> hw := setC (fun p => Z.lor p 2).
Definition DATA_0 : hw -> hw := setC (fun p => Z.land p (Z.lnot 1)).
Definition DATA_1 : hw -> hw := setC (fun p => Z.lor p 1).

(** [n] passes of the [for] loop that clocks [c] out. *)
Fixpoint shift_out (n : nat) (c : Z) (h : hw) : hw :=
  match n with
  | O => h
  | S n' =>
      let h := SCK_0 h in
      let h := if negb (Z.land c 1 =? 0) then DATA_0 h else DATA_1 h in
      let h := SCK_1 h in
      shift_out n' (u16 (Z.shiftr c 1)) h
  end.

Definition ISR (fb_base : Z) (framebuf : list Z) (h : hw) : option hw :=
  let fb_off := u8 (Z.land (fb_base + col h) 15) in
  match framebuf !! Z.to_nat fb_off with
  | None => None
  | Some c =>
      let h := LATCH_0 h in
      let h := shift_out 16 c h in
      let h := SCK_0 h in
      let h := setD 0 h in
      let h := LATCH_1 h in
      let h := setD (Z.shiftr 128 (col h)) h in
      Some {| PORTC := PORTC h; PORTD := PORTD h;
              col := u8 (Z.land (col h + 1) 7); log := log h |}
  end.

(** *** What the shift registers see

    The 74HC595 chain takes the level of the data line (bit 0 of [PORTC])
    at each rising edge of the clock (bit 1), and copies what it has taken
    to its outputs at each rising edge of the latch (bit 2). *)

Record seen := {
  level : Z;             (* the last value written to PORTC *)
  clocked : list bool;   (* the data levels taken so far, oldest first *)
  latched : list nat     (* at each latch edge: how many had been taken *)
}.

Definition rising (bit prev new : Z) : bool :=
  negb (Z.testbit prev bit) && Z.testbit new bit.

Definition observe (s : seen) (w : port_write) : seen :=
  match w with
  | WrD _ => s
  | WrC v =>
      let cl := if rising 1 (level s) v
                then clocked s ++ [Z.testbit v 0] else clocked s in
      let la := if rising 2 (level s) v
                then latched s ++ [length cl] else latched s in
      {| level := v; clocked := cl; latched := la |}
  end.

(** What the chain sees of [ws] when [PORTC] was [p] before. *)
Definition watch (p : Z) (ws : list port_write) : seen :=
  fold_left observe ws {| level := p; clocked := []; latched := [] |}.

(** The sixteen bits of [w], bit 0 first, and bit 15 first. *)
Definition lsb_first (w : Z) : list bool :=
  map (fun k => Z.testbit w (Z.of_nat k)) (seq 0 16).
Definition msb_first (w : Z) : list bool := rev (lsb_first w).

End Scanner.

(** ** The quote picker of [hello_world] *)

(** The [for (;;)] search: at most [fuel] advances of [r]. *)
Fixpoint next_unused (fuel : nat) (maskus r : Z) : option Z :=
  let bit := u64 (Z.shiftl 1 r) in
  if negb (Z.land maskus bit =? 0) then Some r
  else match fuel with
       | O => None
       | S fuel' => next_unused fuel' maskus (u8 (Z.land (r + 1) 63))
       end.

(** [hello_world] up to the call of [clear_screen]: [b1] and [b2] are the
    two bytes [badrand] returns, [maskus] the [static] mask.  The result is
    the index [r] of the quote, its colour [c], and the mask afterwards. *)
Definition hello_world (b1 b2 : Z) (maskus : Z) : option (Z * Z * Z) :=
  let r := u8 (Z.land b1 63) in
  let c := u8 (b2 mod 3 + 1) in
  let maskus := if maskus =? 0 then u64 (Z.lnot 0) else maskus in
  match next_unused 64 maskus r with
  | None => None
  | Some r =>
      let bit := u64 (Z.shiftl 1 r) in
      Some (r, c, u64 (Z.land maskus (Z.lnot bit)))
  end.

(** Successive calls; [rnd] lists the pairs of bytes drawn. *)
Fixpoint hello_worlds (rnd : list (Z * Z)) (maskus : Z) : option (list Z * Z) :=
  match rnd with
  | [] => Some ([], maskus)
  | (b1, b2) :: rnd' =>
      match hello_world b1 b2 maskus with
      | None => None
      | Some (r, _, maskus') =>
          match hello_worlds rnd' maskus' with
          | None => None
          | Some (rs, maskus'') => Some (r :: rs, maskus'')
          end
      end
  end.

(** ** The session: [do_life] *)

Definition REFRESH : Z := 157.
Definition FADE_DARK : Z := 1.
Definition FADE_BRIGHT : Z := REFRESH - 1.

Module Session.

(** The locals of [do_life], the globals it touches, and the statics of
    [GetButtons].  [fade_irq] is the bit [OCIE0B] of [TIMSK0], which
    [FADE_ON] sets and [FADE_OFF] clears. *)
Record state := {
  iterations : Z;
  df : Z;
  fade : Z;
  speed : Z;
  itc : Z;
  ktc : Z;
  fb_base : Z;
  framebuf : list Z;
  OCR0B : Z;
  fade_irq : bool;
  buttons : Buttons.state
}.

Definition with_fade (f : Z) (s : state) : state :=
  {| iterations := iterations s; df := df s; fade := f; speed := speed s;
     itc := itc s; ktc := ktc s; fb_base := fb_base s;
     framebuf := framebuf s; OCR0B := OCR0B s; fade_irq := fade_irq s;
     buttons := buttons s |}.

Definition with_df (d : Z) (s : state) : state :=
  {| iterations := iterations s; df := d; fade := fade s; speed := speed s;
     itc := itc s; ktc := ktc s; fb_base := fb_base s;
     framebuf := framebuf s; OCR0B := OCR0B s; fade_irq := fade_irq s;
     buttons := buttons s |}.

Definition with_counters (it sp ic kc : Z) (s : state) : state :=
  {| iterations := it; df := df s; fade := fade s; speed := sp;
     itc := ic; ktc := kc; fb_base := fb_base s;
     framebuf := framebuf s; OCR0B := OCR0B s; fade_irq := fade_irq s;
     buttons := buttons s |}.

Definition with_frame (b : Z) (fb : list Z) (s : state) : state :=
  {| iterations := iterations s; df := df s; fade := fade s; speed := speed s;
     itc := itc s; ktc := ktc s; fb_base := b;
     framebuf := fb; OCR0B := OCR0B s; fade_irq := fade_irq s;
     buttons := buttons s |}.

Definition with_buttons (b : Buttons.state) (s : state) : state :=
  {| iterations := iterations s; df := df s; fade := fade s; speed := speed s;
     itc := itc s; ktc := ktc s; fb_base := fb_base s;
     framebuf := framebuf s; OCR0B := OCR0B s; fade_irq := fade_irq s;
     buttons := b |}.

(** [FADE_LEVEL(fade)], [FADE_ON()], [FADE_OFF()] *)
Definition FADE_LEVEL (s : state) : state :=
  {| iterations := iterations s; df := df s; fade := fade s; speed := speed s;
     itc := itc s; ktc := ktc s; fb_base := fb_base s;
     framebuf := framebuf s; OCR0B := fade s; fade_irq := fade_irq s;
     buttons := buttons s |}.

Definition FADE_SWITCH (on : bool) (s : state) : state :=
  {| iterations := iterations s; df := df s; fade := fade s; speed := speed s;
     itc := itc s; ktc := ktc s; fb_base := fb_base s;
     framebuf := framebuf s; OCR0B := OCR0B s; fade_irq := on;
     buttons := buttons s |}.

Definition FADE_ON : state -> state := FADE_SWITCH true.
Definition FADE_OFF : state -> state := FADE_SWITCH false.

(** The [if (df == 0) { fade = level; FADE_LEVEL(fade); FADE_ON(); } df = -2;]
    that both requests for a fade-out share. *)
Definition fade_out_from (level : Z) (s : state) : state :=
  let s := if df s =? 0 then FADE_ON (FADE_LEVEL (with_fade level s)) else s in
  with_df (-2) s.

(** Everything before the loop.  [fb] is [framebuf] and [b] the statics of
    [GetButtons] on entry; [adc] the conversions [random_field] reads. *)
Definition start (adc : nat -> Z) (fb : list Z) (b : Buttons.state)
  : option state :=
  match (clear_screen 0 16 ;; random_field adc 8) fb with
  | None => None
  | Some (_, fb') =>
      Some {| iterations := 0; df := 2; fade := FADE_DARK; speed := 8;
              itc := 0; ktc := 0; fb_base := Z.lxor 0 8;
              framebuf := fb'; OCR0B := FADE_DARK; fade_irq := true;
              buttons := b |}
  end.

(** [if (++ktc == 5) { ... }]: the buttons. *)
Definition check_input (PINC : Z) (s : state) : state :=
  let ktc' := u8 (ktc s + 1) in
  if ktc' =? 5 then
    let s := with_counters (iterations s) (speed s) (itc s) 0 s in
    let '(ev, b) := GetButtons PINC (buttons s) in
    let s := with_buttons b s in
    if negb (Z.land ev BUTTON_LEFT =? 0) then
      with_counters (iterations s) (u8 (Z.land (speed s + 4) 15)) 0 (ktc s) s
    else if negb (Z.land ev BUTTON_RIGHT =? 0) then
      fade_out_from FADE_BRIGHT s
    else s
  else with_counters (iterations s) (speed s) (itc s) ktc' s.

(** [if (speed > 0 && ++itc == speed) { ... }]: the next generation. *)
Definition update_state (s : state) : option state :=
  if 0 <? speed s then
    let itc' := u8 (itc s + 1) in
    if itc' =? speed s then
      let s := with_counters (iterations s) (speed s) 0 (ktc s) s in
      match life (Z.to_nat (fb_base s)) (Z.to_nat (Z.lxor (fb_base s) 8))
                 (framebuf s) with
      | None => None
      | Some (life_state, fb') =>
          let s := with_frame (fb_base s) fb' s in
          let it' := u16 (iterations s + 1) in
          let s :=
            if negb (life_state =? ACTIVE) then
              fade_out_from (if life_state =? DEAD then FADE_DARK else FADE_BRIGHT) s
            else
              let s := with_counters it' (speed s) (itc s) (ktc s) s in
              if 35 <? it' then fade_out_from FADE_BRIGHT s else s in
          Some (with_frame (u8 (Z.lxor (fb_base s) 8)) (framebuf s) s)
      end
    else Some (with_counters (iterations s) (speed s) itc' (ktc s) s)
  else Some s.

(** [if (df > 0) ... else if (df < 0) ...]: the fade.  [true] is the
    [break]. *)
Definition handle_fading (s : state) : state * bool :=
  if 0 <? df s then
    if fade s <? FADE_BRIGHT then
      (FADE_LEVEL (with_fade (u8 (fade s + df s)) s), false)
    else (FADE_OFF (with_df 0 s), false)
  else if df s <? 0 then
    if - df s <? fade s then
      (FADE_LEVEL (with_fade (u8 (fade s + df s)) s), false)
    else (s, true)
  else (s, false).

(** One pass of the [for (;;)] loop, up to [Sleep]. *)
Definition iter (PINC : Z) (s : state) : option (state * bool) :=
  match update_state (check_input PINC s) with
  | None => None
  | Some s => Some (handle_fading s)
  end.

(** After the loop: [clear_screen(0, 16); FADE_OFF();]. *)
Definition finish (s : state) : option state :=
  match clear_screen 0 16 (framebuf s) with
  | None => None
  | Some (_, fb') => Some (FADE_OFF (with_frame (fb_base s) fb' s))
  end.

(** [n] passes, while the loop is not left; [pinc k] is what [PINC] reads
    in pass [k]. *)
Fixpoint iters (n : nat) (k : nat) (pinc : nat -> Z) (s : state)
  : option (state * bool) :=
  match n with
  | O => Some (s, false)
  | S n' =>
      match iter (pinc k) s with
      | None => None
      | Some (s', true) => Some (s', true)
      | Some (s', false) => iters n' (S k) pinc s'
      end
  end.

End Session.


(** * Vocabulary of the properties *)

(** ** Boards *)

(** The 2-bit value of row [r] in the packed column [w]. *)
Definition cell (w r : Z) : Z := Z.land (Z.shiftr w (2 * r)) 3.

(** Column [i] (taken modulo 8) of the generation that starts at word [p]
    of the memory [m]. *)
Definition column (m : list Z) (p : nat) (i : Z) : Z :=
  Mem.rd m (p + Z.to_nat (i mod 8)).

(** The eight columns of that generation. *)
Definition generation (m : list Z) (p : nat) : list Z :=
  map (fun i => Mem.rd m (p + i)) (seq 0 8).

(** 1 when the cell at column [i], row [r] (both modulo 8) is not dead. *)
Definition live (m : list Z) (p : nat) (i r : Z) : Z :=
  if cell (column m p i) (r mod 8) =? 0 then 0 else 1.

(** The number of live cells among the eight neighbours on the torus. *)
Definition live_neighbors (m : list Z) (p : nat) (i r : Z) : Z :=
  live m p (i - 1) (r - 1) + live m p (i - 1) r + live m p (i - 1) (r + 1) +
  live m p i (r - 1) + live m p i (r + 1) +
  live m p (i + 1) (r - 1) + live m p (i + 1) r + live m p (i + 1) (r + 1).

(** The rule of the automaton on cell values: 0 dead, 1 green, 2 red,
    3 orange. *)
Definition rule (cur n : Z) : Z :=
  if cur =? 0 then (if n =? 3 then 1 else 0)
  else if (n =? 2) || (n =? 3) then (if cur =? 1 then 3 else 2)
  else 0.

(** ** Classifications *)

Definition all_dead (g : list Z) : bool := forallb (fun w => w =? 0) g.

Definition dead_columns (g : list Z) : Z :=
  Z.of_nat (length (List.filter (fun w => w =? 0) g)).

Definition same_columns (old new : list Z) : bool :=
  forallb (fun p => snd p =? fst p) (combine old new).

(** Every column of [new] is dead or as it is in [old]. *)
Definition no_column_active (old new : list Z) : bool :=
  forallb (fun p => (snd p =? 0) || (snd p =? fst p)) (combine old new).

(** The classification in the words of the specification: dead columns
    7 or more, or the whole generation unchanged, is STEADY. *)
Definition classify_claimed (old new : list Z) : Z :=
  if all_dead new then DEAD
  else if same_columns old new || (7 <=? dead_columns new) then STEADY
  else ACTIVE.

(** The classification [life] computes. *)
Definition classify (old new : list Z) : Z :=
  if all_dead new then DEAD
  else if (dead_columns new =? 7) || no_column_active old new then STEADY
  else ACTIVE.

(** ** The pure content of the loops of [life] *)

(** [dst[i] &= ~(3 << j); dst[i] |= (ns << j);] on the word [d]. *)
Definition put_cell (d j ns : Z) : Z :=
  u16 (Z.lor (u16 (Z.land d (Z.lnot (Z.shiftl 3 j)))) (Z.shiftl ns j)).

Definition next_cell (sL si sR j : Z) : Z :=
  nextstate (u8 (Z.land (Z.shiftr si j) 3)) (neighbors sL si sR j).

(** The word the inner loop leaves in [dst[i]], from [d]. *)
Definition next_column (sL si sR d : Z) : Z :=
  fold_left (fun d j => put_cell d j (next_cell sL si sR j))
            [0; 2; 4; 6; 8; 10; 12; 14] d.

Definition new_column (m : list Z) (src dst : nat) (i : Z) : Z :=
  next_column (Mem.rd m (src + Z.to_nat (u8 (Z.land (i - 1) 7))))
              (Mem.rd m (src + Z.to_nat i))
              (Mem.rd m (src + Z.to_nat (u8 (Z.land (i + 1) 7))))
              (Mem.rd m (dst + Z.to_nat i)).

(** [(ret, deadcols)] after the columns whose states are [cs]. *)
Definition tallies (cs : list Z) (st : Z * Z) : Z * Z :=
  fold_left (fun st c => tally c st) cs st.

Definition colstates (old new : list Z) : list Z :=
  map (fun p => colstate_of (snd p) (fst p)) (combine old new).

(** What [life] returns when the states of its columns are [cs]. *)
Definition life_result (cs : list Z) : Z :=
  let st := tallies cs (DEAD, 0) in
  if snd st =? 7 then STEADY else fst st.

(** The columns [life] has already written, and its tally of them, when
    it reaches column [i]: [m] is the memory it started from, [mc] the
    memory now, [st] the pair [(ret, deadcols)]. *)
Definition life_invariant (m : list Z) (src dst : nat)
           (i : Z) (st : Z * Z) (mc : list Z) : Prop :=
  length mc = length m /\
  (forall k, ~ (dst <= k < dst + Z.to_nat i)%nat -> mc !! k = m !! k) /\
  (forall k, (k < Z.to_nat i)%nat ->
     Mem.rd mc (dst + k) = new_column m src dst (Z.of_nat k)) /\
  st = tallies
         (map (fun k => colstate_of (new_column m src dst (Z.of_nat k))
                                    (Mem.rd m (src + k)))
              (seq 0 (Z.to_nat i))) (DEAD, 0).

(** ** Buttons *)

(** The 2-bit pattern [GetButtons] reads from [PINC]: bit 0 is the left
    button, bit 1 the right one, and a bit is 0 while its button is down. *)
Definition pattern (PINC : Z) : Z := u8 (Z.shiftr (Z.land PINC 48) 4).

(** No button down, no hold pending. *)
Definition idle : Buttons.state :=
  {| Buttons.prevState := 3; Buttons.repeat := 0 |}.

(** ** The quote picker *)

(** [if (maskus == 0) maskus = ~0ULL;] *)
Definition refill (maskus : Z) : Z :=
  if maskus =? 0 then u64 (Z.lnot 0) else maskus.

(** [maskus &= ~(1ULL << r);] *)
Definition clear_bit (maskus r : Z) : Z :=
  u64 (Z.land maskus (Z.lnot (u64 (Z.shiftl 1 r)))).

(** The mask [maskus] has exactly the indices of [used] cleared. *)
Definition marks (maskus : Z) (used : list Z) : Prop :=
  0 <= maskus < 2 ^ 64 /\
  List.NoDup used /\
  (forall i, In i used -> 0 <= i < 64) /\
  (forall i, 0 <= i < 64 -> (Z.testbit maskus i = true <-> ~ In i used)).

(** The indices 0 .. 63. *)
Definition quote_indices : list Z := map Z.of_nat (seq 0 64).

(** ** A session fixture *)

(** ADC readings whose low bits make [random_field] draw a glider: red
    cells at (column, row) = (0,1), (1,2), (2,0), (2,1), (2,2). *)
Definition glider_adc (k : nat) : Z :=
  if existsb (Nat.eqb k) [6; 13; 21; 22; 23]%nat then 1 else 0.

(** [PINC] with both button lines high: no button is ever down. *)
Definition no_buttons (k : nat) : Z := 48.

(** What the code keeps of the fade level: between FADE_DARK and one above
    FADE_BRIGHT, with a step of 2, 0 or -2. *)
Definition fade_within_one (s : Session.state) : Prop :=
  FADE_DARK <= Session.fade s <= FADE_BRIGHT + 1 /\
  (Session.df s = 2 \/ Session.df s = 0 \/ Session.df s = -2).

(** * Vocabulary of the further properties *)

(** ** The scanner over several ticks *)

(** [n] runs of the interrupt, the frame buffer and its base unchanged. *)
Fixpoint scanner_ticks (n : nat) (fb_base : Z) (framebuf : list Z)
         (h : Scanner.hw) : option Scanner.hw :=
  match n with
  | O => Some h
  | S n' =>
      match Scanner.ISR fb_base framebuf h with
      | None => None
      | Some h' => scanner_ticks n' fb_base framebuf h'
      end
  end.

(** A write to [PORTC] that leaves the latch line (bit 2) low. *)
Definition latch_low (w : Scanner.port_write) : Prop :=
  match w with
  | Scanner.WrC v => Z.testbit v 2 = false
  | Scanner.WrD _ => False
  end.

(** The column word the scanner shows [k] ticks after its counter was
    [col]. *)
Definition shown (fb_base : Z) (framebuf : list Z) (col : Z) (k : nat) : Z :=
  Mem.rd framebuf (Z.to_nat ((fb_base + (col + Z.of_nat k) mod 8) mod 16)).

(** ** Button events *)

(** The longest run of consecutive polls that read a button down, [run]
    being the length of the run the list continues. *)
Fixpoint down_runs (run : nat) (pins : list Z) : nat :=
  match pins with
  | [] => run
  | p :: pins' =>
      if pattern p =? 3 then Nat.max run (down_runs 0 pins')
      else down_runs (S run) pins'
  end.

Definition longest_down (pins : list Z) : nat := down_runs 0 pins.

(** The bytes [GetButtons] can return: nothing, a press of one or both
    buttons, or a hold (BUTTON_HOLD | ~pattern, for a pattern below 3). *)
Definition button_event (e : Z) : Prop :=
  e = 0 \/ 1 <= e <= 3 \/ 253 <= e <= 255.

(** ** The board as a torus *)

(** The cell at column [i], row [r], both taken modulo 8. *)
Definition at_cell (m : list Z) (p : nat) (i r : Z) : Z :=
  cell (column m p i) (r mod 8).

(** ** The quotes not shown yet *)

(** The indices whose bit is set in the mask. *)
Definition unused (maskus : Z) : list Z :=
  List.filter (fun i => Z.testbit maskus i) quote_indices.

(** The indices whose bit is clear in the mask. *)
Definition taken (maskus : Z) : list Z :=
  List.filter (fun i => negb (Z.testbit maskus i)) quote_indices.

(** ** The session *)

(** The frame buffer has its sixteen words and the base is on one of the
    two pages. *)
Definition frame_ok (s : Session.state) : Prop :=
  length (Session.framebuf s) = 16%nat /\
  (Session.fb_base s = 0 \/ Session.fb_base s = 8).

(** The dimmer follows the locals: the compare register holds [fade], and
    the compare interrupt is enabled exactly while a fade is running. *)
Definition dimmer_ok (s : Session.state) : Prop :=
  Session.OCR0B s = Session.fade s /\
  (Session.df s = 2 \/ Session.df s = 0 \/ Session.df s = -2) /\
  Session.fade_irq s = negb (Session.df s =? 0).

(** The pass counters: [ktc] below 5, [speed] one of its four values, and
    [itc] below [speed] (0 when paused). *)
Definition counters_ok (s : Session.state) : Prop :=
  0 <= Session.ktc s < 5 /\
  (Session.speed s = 0 \/ Session.speed s = 4 \/
   Session.speed s = 8 \/ Session.speed s = 12) /\
  (Session.itc s = 0 \/ 0 < Session.itc s < Session.speed s).

(** Statics of [GetButtons] from which a poll that reads no button down
    returns no event: the previous pattern is 3, or the 0xff of power-up. *)
Definition quiet (b : Buttons.state) : Prop :=
  Buttons.prevState b = 3 \/ Buttons.prevState b = 255.

(** The session nobody touches: the default speed, and either fading out,
    or with 35 generations at most behind it. *)
Definition untouched (s : Session.state) : Prop :=
  frame_ok s /\ quiet (Session.buttons s) /\
  Session.speed s = 8 /\ 0 <= Session.itc s < 8 /\
  FADE_DARK <= Session.fade s <= FADE_BRIGHT + 1 /\
  (Session.df s = -2 \/
   (Session.df s = 2 \/ Session.df s = 0) /\ 0 <= Session.iterations s <= 35).

(** A bound on the passes such a session has left. *)
Definition passes_left (s : Session.state) : Z :=
  if Session.df s =? -2 then (Session.fade s - 1) / 2
  else 79 + 8 * (35 - Session.iterations s) + (7 - Session.itc s).

(** A button line reads 0 while its button is down: the button of line
    [bit] is released between the patterns [prev] and [cur]. *)
Definition released (prev cur : Z) (bit : Z) : bool :=
  negb (Z.testbit prev bit) && Z.testbit cur bit.

(** * Properties *)

(** ** Running the memory monad *)

Section MemRun.

Implicit Types (m : list Z) (k : nat).

Lemma load_run m k : (k < length m)%nat -> Mem.load k m = Some (Mem.rd m k, m).
Proof.
  intros Hk. unfold Mem.load, Mem.rd.
  destruct (lookup_lt_is_Some_2 m k Hk) as [v ->]. reflexivity.
Qed.

Lemma store_run m k v :
  (k < length m)%nat -> Mem.store k v m = Some (tt, <[k:=v]> m).
Proof. intros Hk. unfold Mem.store. case_decide; [reflexivity | lia]. Qed.

Lemma rd_insert_eq m k v : (k < length m)%nat -> Mem.rd (<[k:=v]> m) k = v.
Proof. intros Hk. unfold Mem.rd. by rewrite list_lookup_insert_eq. Qed.

Lemma rd_insert_ne m k k' v : k <> k' -> Mem.rd (<[k:=v]> m) k' = Mem.rd m k'.
Proof. intros Hk. unfold Mem.rd. by rewrite list_lookup_insert_ne. Qed.

Lemma rd_lookup m k : (k < length m)%nat -> m !! k = Some (Mem.rd m k).
Proof.
  intros Hk. unfold Mem.rd.
  destruct (lookup_lt_is_Some_2 m k Hk) as [v ->]. reflexivity.
Qed.

Lemma bind_run {A B} (c : Mem.M A) (f : A -> Mem.M B) m a m' :
  c m = Some (a, m') -> Mem.bind c f m = f a m'.
Proof. intros H. unfold Mem.bind. by rewrite H. Qed.

End MemRun.

Lemma for_loop_S {S} fuel i bound step (body : Z -> S -> Mem.M S) acc :
  i < bound ->
  Mem.for_loop (Datatypes.S fuel) i bound step body acc =
  Mem.bind (body i acc) (Mem.for_loop fuel (u8 (i + step)) bound step body).
Proof. intros Hi. simpl. apply Z.ltb_lt in Hi. by rewrite Hi. Qed.

Lemma for_loop_end {S} fuel i bound step (body : Z -> S -> Mem.M S) acc :
  bound <= i -> Mem.for_loop fuel i bound step body acc = Mem.ret acc.
Proof.
  intros Hi. apply Z.ltb_ge in Hi. destruct fuel; simpl; by rewrite Hi.
Qed.

(** The counter of an unrolled loop, once its value is known. *)
Ltac next_counter :=
  match goal with
  | |- context [u8 (?a + ?b)] =>
      let v := eval vm_compute in (u8 (a + b)) in
      change (u8 (a + b)) with v
  end.

(** A loop that counts up by one keeps an invariant that its body keeps. *)
Lemma for_loop_invariant {S} (P : Z -> S -> list Z -> Prop)
      (body : Z -> S -> Mem.M S) (bound : Z) :
  bound < 256 ->
  (forall i acc m, 0 <= i < bound -> P i acc m ->
     exists acc' m', body i acc m = Some (acc', m') /\ P (i + 1) acc' m') ->
  forall fuel i acc m,
    0 <= i <= bound -> bound - i <= Z.of_nat fuel -> P i acc m ->
    exists acc' m',
      Mem.for_loop fuel i bound 1 body acc m = Some (acc', m') /\
      P bound acc' m'.
Proof.
  intros Hb Hbody fuel. induction fuel as [|fuel IH]; intros i acc m Hi Hf HP.
  - assert (i = bound) as -> by lia.
    exists acc, m. by rewrite for_loop_end by lia.
  - destruct (Z.eq_dec i bound) as [->|Hne].
    + exists acc, m. by rewrite for_loop_end by lia.
    + destruct (Hbody i acc m) as (acc1 & m1 & Hrun & HP1); [lia | done |].
      rewrite for_loop_S by lia. rewrite (bind_run _ _ _ _ _ Hrun).
      replace (u8 (i + 1)) with (i + 1)
        by (unfold u8; rewrite Z.mod_small; lia).
      apply IH; [lia | lia | done].
Qed.

(** ** The frame of [life] *)

Lemma left_right_range i :
  0 <= i < 8 ->
  (Z.to_nat (u8 (Z.land (i - 1) 7)) < 8)%nat /\
  (Z.to_nat (u8 (Z.land (i + 1) 7)) < 8)%nat.
Proof.
  intros Hi.
  assert (i = 0 \/ i = 1 \/ i = 2 \/ i = 3 \/ i = 4 \/ i = 5 \/ i = 6 \/ i = 7)
    as H by lia.
  repeat (destruct H as [-> | H]); try subst i; split;
    apply Nat.ltb_lt; vm_compute; reflexivity.
Qed.

Section LifeRun.

Variables (m : list Z) (src dst : nat).
Hypothesis Hsrc : (src + 8 <= length m)%nat.
Hypothesis Hdst : (dst + 8 <= length m)%nat.


Lemma life_cell_run m0 i j :
  length m0 = length m -> 0 <= i < 8 ->
  life_cell src dst i j m0 =
  Some (tt, <[(dst + Z.to_nat i)%nat :=
               put_cell (Mem.rd m0 (dst + Z.to_nat i)) j
                 (next_cell
                    (Mem.rd m0 (src + Z.to_nat (u8 (Z.land (i - 1) 7))))
                    (Mem.rd m0 (src + Z.to_nat i))
                    (Mem.rd m0 (src + Z.to_nat (u8 (Z.land (i + 1) 7)))) j)]> m0).
Proof.
  intros Hlen Hi. destruct (left_right_range i Hi) as [HL HR].
  unfold life_cell.
  do 4 (erewrite bind_run by (apply load_run; lia)).
  erewrite bind_run by (apply store_run; lia).
  erewrite bind_run by (apply load_run; rewrite length_insert; lia).
  rewrite store_run by (rewrite length_insert; lia).
  rewrite rd_insert_eq by lia. rewrite list_insert_insert_eq.
  reflexivity.
Qed.

Hypothesis Hdisjoint : (src + 8 <= dst)%nat \/ (dst + 8 <= src)%nat.

Lemma life_inner_run m0 i :
  length m0 = length m -> 0 <= i < 8 ->
  Mem.for_loop 8 0 16 2 (fun j _ => life_cell src dst i j) tt m0 =
  Some (tt, <[(dst + Z.to_nat i)%nat := new_column m0 src dst i]> m0).
Proof.
  intros Hlen Hi. destruct (left_right_range i Hi) as [HL HR].
  rewrite for_loop_S by reflexivity. next_counter.
  erewrite bind_run by (by apply life_cell_run).
  do 7 (rewrite for_loop_S by reflexivity; next_counter;
        erewrite bind_run
          by (apply life_cell_run; [by rewrite length_insert | done]);
        rewrite rd_insert_eq by lia;
        rewrite !rd_insert_ne by lia;
        rewrite list_insert_insert_eq).
  rewrite for_loop_end by lia.
  unfold new_column, next_column. cbn [fold_left]. reflexivity.
Qed.

Lemma life_column_run m0 i st :
  length m0 = length m -> 0 <= i < 8 ->
  life_column src dst i st m0 =
  Some (tally (colstate_of (new_column m0 src dst i)
                           (Mem.rd m0 (src + Z.to_nat i))) st,
        <[(dst + Z.to_nat i)%nat := new_column m0 src dst i]> m0).
Proof.
  intros Hlen Hi. unfold life_column.
  erewrite bind_run by (by apply life_inner_run).
  erewrite bind_run by (apply load_run; rewrite length_insert; lia).
  erewrite bind_run by (apply load_run; rewrite length_insert; lia).
  rewrite rd_insert_eq by lia. rewrite rd_insert_ne by lia.
  reflexivity.
Qed.

Lemma rd_outside mc i k :
  (forall k, ~ (dst <= k < dst + Z.to_nat i)%nat -> mc !! k = m !! k) ->
  ~ (dst <= k < dst + Z.to_nat i)%nat -> Mem.rd mc k = Mem.rd m k.
Proof. intros H Hk. unfold Mem.rd. by rewrite H. Qed.

Lemma life_invariant_step i st mc :
  0 <= i < 8 -> life_invariant m src dst i st mc ->
  exists st' mc',
    life_column src dst i st mc = Some (st', mc') /\
    life_invariant m src dst (i + 1) st' mc'.
Proof.
  intros Hi (Hlen & Hout & Hnew & Hst).
  destruct (left_right_range i Hi) as [HL HR].
  assert (new_column mc src dst i = new_column m src dst i) as Hcol.
  { unfold new_column.
    by rewrite !(rd_outside mc i) by (done || lia). }
  do 2 eexists. split.
  { rewrite life_column_run by (done || lia). reflexivity. }
  unfold life_invariant.
  rewrite Hcol. rewrite (rd_outside mc i) by (done || lia).
  replace (Z.to_nat (i + 1)) with (S (Z.to_nat i)) by lia.
  repeat split.
  - by rewrite length_insert.
  - intros k Hk. rewrite list_lookup_insert_ne by lia. apply Hout. lia.
  - intros k Hk. destruct (decide (k = Z.to_nat i)) as [->|Hne].
    + rewrite rd_insert_eq by lia. by rewrite Z2Nat.id by lia.
    + rewrite rd_insert_ne by lia. apply Hnew. lia.
  - rewrite seq_S, map_app. unfold tallies. rewrite fold_left_app.
    simpl. fold (tallies
      (map (fun k => colstate_of (new_column m src dst (Z.of_nat k))
                                 (Mem.rd m (src + k)))
           (seq 0 (Z.to_nat i))) (DEAD, 0)).
    rewrite <- Hst. by rewrite Z2Nat.id by lia.
Qed.

(** [life] returns, writes the eight words at [dst] and nothing else, and
    what it returns is the tally of the new columns against the old. *)
Lemma life_post :
  exists m',
    life src dst m
    = Some (life_result (colstates (generation m src) (generation m' dst)), m') /\
    length m' = length m /\
    (forall k, ~ (dst <= k < dst + 8)%nat -> m' !! k = m !! k) /\
    (forall i, 0 <= i < 8 ->
       Mem.rd m' (dst + Z.to_nat i) = new_column m src dst i).
Proof.
  destruct (for_loop_invariant (life_invariant m src dst) (life_column src dst) 8
              ltac:(lia) life_invariant_step 8%nat 0 (DEAD, 0) m)
    as (st & m' & Hrun & Hlen & Hout & Hnew & Hst); [lia | lia | |].
  { unfold life_invariant. split; [done |]. split; [done |].
    split; [| done]. intros k Hk. simpl in Hk. lia. }
  exists m'. repeat split; [| done | done |].
  - unfold life. rewrite (bind_run _ _ _ _ _ Hrun). unfold Mem.ret.
    do 2 f_equal. unfold life_result.
    replace (colstates (generation m src) (generation m' dst))
      with (map (fun k => colstate_of (new_column m src dst (Z.of_nat k))
                                      (Mem.rd m (src + k)))
                (seq 0 (Z.to_nat 8))).
    { by rewrite <- Hst. }
    unfold colstates, generation. change (Z.to_nat 8) with 8%nat.
    cbn [seq map combine fst snd].
    by rewrite !Hnew by (simpl; lia).
  - intros i Hi. rewrite Hnew by lia. by rewrite Z2Nat.id by lia.
Qed.

End LifeRun.

(** ** Cells in packed columns *)

Lemma testbit_3 x : Z.testbit 3 x = (0 <=? x) && (x <? 2).
Proof.
  destruct (Z.leb_spec 0 x); [| by rewrite Z.testbit_neg_r by lia].
  destruct (Z.ltb_spec x 2); simpl.
  - assert (x = 0 \/ x = 1) as [-> | ->] by lia; reflexivity.
  - apply Z.bits_above_log2; [lia | simpl; lia].
Qed.

Lemma testbit_below_4 a x : 0 <= a < 4 -> ~ 0 <= x < 2 -> Z.testbit a x = false.
Proof.
  intros Ha Hx. destruct (Z.leb_spec 0 x); [| by rewrite Z.testbit_neg_r by lia].
  assert (a = 0 \/ a = 1 \/ a = 2 \/ a = 3) as H' by lia.
  destruct H' as [-> | [-> | [-> | ->]]];
    [apply Z.bits_0 | | |]; apply Z.bits_above_log2; simpl; lia.
Qed.

Lemma testbit_u16 a k : 0 <= k < 16 -> Z.testbit (u16 a) k = Z.testbit a k.
Proof. intros Hk. unfold u16. apply Z.mod_pow2_bits_low. lia. Qed.

Lemma testbit_u8 a k : 0 <= k < 8 -> Z.testbit (u8 a) k = Z.testbit a k.
Proof. intros Hk. unfold u8. apply Z.mod_pow2_bits_low. lia. Qed.

Lemma cell_range w r : 0 <= cell w r < 4.
Proof.
  unfold cell. split.
  - apply Z.land_nonneg. lia.
  - change 4 with (2 ^ 2). replace 3 with (Z.ones 2) by reflexivity.
    rewrite Z.land_ones by lia. apply Z.mod_pos_bound. lia.
Qed.

(** Writing cell [j/2] changes that cell and no other. *)
Lemma cell_put_cell d j ns r :
  0 <= r < 8 -> 0 <= j <= 14 -> Z.even j = true -> 0 <= ns < 4 ->
  cell (put_cell d j ns) r = if j =? 2 * r then ns else cell d r.
Proof.
  intros Hr Hj Hev Hns.
  assert (exists r', j = 2 * r') as [r' ->].
  { apply Z.even_spec in Hev. destruct Hev as [r' ->]. by exists r'. }
  apply Z.bits_inj'. intros n Hn.
  unfold cell at 1. rewrite Z.land_spec, Z.shiftr_spec by lia.
  rewrite testbit_3.
  destruct (Z.ltb_spec n 2) as [Hlt | Hge].
  - assert ((0 <=? n) = true) as H0n by (apply Z.leb_le; lia).
    assert ((n <? 2) = true) as Hn2 by (apply Z.ltb_lt; lia).
    unfold put_cell.
    rewrite testbit_u16, Z.lor_spec, testbit_u16, Z.land_spec, Z.lnot_spec by lia.
    rewrite !Z.shiftl_spec by lia. rewrite testbit_3.
    destruct (Z.eqb_spec (2 * r') (2 * r)) as [Heq | Hne].
    + replace (n + 2 * r - 2 * r') with n by lia.
      rewrite ?H0n, ?Hn2. simpl. by rewrite andb_false_r, andb_true_r.
    + rewrite (testbit_below_4 ns) by lia.
      replace ((0 <=? n + 2 * r - 2 * r') && (n + 2 * r - 2 * r' <? 2))
        with false by (symmetry; apply andb_false_iff; lia).
      unfold cell. rewrite Z.land_spec, Z.shiftr_spec, testbit_3 by lia.
      rewrite ?H0n, ?Hn2. simpl. by rewrite orb_false_r, !andb_true_r.
  - assert ((n <? 2) = false) as Hn2 by (apply Z.ltb_ge; lia).
    rewrite !andb_false_r.
    destruct (2 * r' =? 2 * r).
    + symmetry. apply testbit_below_4; lia.
    + unfold cell. rewrite Z.land_spec, testbit_3.
      by rewrite Hn2, !andb_false_r.
Qed.

Lemma nextstate_range c n : 0 <= nextstate c n < 4.
Proof.
  unfold nextstate.
  repeat match goal with |- context [if ?b then _ else _] => destruct b end; lia.
Qed.

(** [!!(w & (3 << u))] tests the cell at bit offset [u]. *)
Lemma nz_land_shiftl w u :
  0 <= u ->
  nz (Z.land w (Z.shiftl 3 u)) = if Z.land (Z.shiftr w u) 3 =? 0 then 0 else 1.
Proof.
  intros Hu.
  assert (Z.land w (Z.shiftl 3 u) = Z.shiftl (Z.land (Z.shiftr w u) 3) u) as ->.
  { apply Z.bits_inj'. intros n Hn.
    rewrite Z.land_spec, !Z.shiftl_spec by lia.
    destruct (Z.ltb_spec n u).
    - rewrite !(Z.testbit_neg_r _ (n - u)) by lia. by rewrite andb_false_r.
    - rewrite Z.land_spec, Z.shiftr_spec by lia.
      by replace (n - u + u) with n by lia. }
  unfold nz.
  destruct (Z.eqb_spec (Z.land (Z.shiftr w u) 3) 0) as [-> | Hne].
  - by rewrite Z.shiftl_0_l.
  - destruct (Z.eqb_spec (Z.shiftl (Z.land (Z.shiftr w u) 3) u) 0) as [H0 | ];
      [| done].
    apply Z.shiftl_eq_0_iff in H0; [done | lia].
Qed.

Ltac split_range x :=
  let H := fresh "H" in
  assert (x = 0 \/ x = 1 \/ x = 2 \/ x = 3 \/ x = 4 \/ x = 5 \/ x = 6 \/ x = 7)
    as H by lia;
  repeat (destruct H as [-> | H]); [.. | subst x].

(** After the inner loop, every cell of the column holds its next state. *)
Lemma cell_next_column sL si sR d r :
  0 <= r < 8 -> cell (next_column sL si sR d) r = next_cell sL si sR (2 * r).
Proof.
  intros Hr. unfold next_column. cbn [fold_left].
  split_range r;
    repeat (rewrite cell_put_cell
              by (first [ apply nextstate_range | reflexivity | lia ]);
            simpl (_ =? _));
    reflexivity.
Qed.

Lemma nextstate_rule c n : nextstate c n = rule c n.
Proof.
  unfold nextstate, rule.
  destruct (Z.eqb_spec c 0), (Z.eqb_spec c 1), (Z.eqb_spec n 2),
    (Z.eqb_spec n 3), (Z.ltb_spec n 2), (Z.ltb_spec 3 n); simpl; lia.
Qed.

(** The eight terms of [neighbors] are the eight neighbours on the torus. *)
Lemma neighbors_cells sL si sR r :
  0 <= r < 8 ->
  neighbors sL si sR (2 * r) =
  nz (cell sL ((r - 1) mod 8)) + nz (cell sL r) + nz (cell sL ((r + 1) mod 8)) +
  nz (cell si ((r - 1) mod 8)) + nz (cell si ((r + 1) mod 8)) +
  nz (cell sR ((r - 1) mod 8)) + nz (cell sR r) + nz (cell sR ((r + 1) mod 8)).
Proof.
  intros Hr. unfold neighbors.
  assert (u8 (Z.land (2 * r - 2) 15) = 2 * ((r - 1) mod 8)) as ->
    by (split_range r; reflexivity).
  assert (u8 (Z.land (2 * r + 2) 15) = 2 * ((r + 1) mod 8)) as ->
    by (split_range r; reflexivity).
  assert (0 <= (r - 1) mod 8 < 8) by (apply Z.mod_pos_bound; lia).
  assert (0 <= (r + 1) mod 8 < 8) by (apply Z.mod_pos_bound; lia).
  rewrite !nz_land_shiftl by lia. fold (cell sL ((r - 1) mod 8)).
  fold (cell sL r) (cell sL ((r + 1) mod 8)) (cell si ((r - 1) mod 8))
       (cell si ((r + 1) mod 8)) (cell sR ((r - 1) mod 8)) (cell sR r)
       (cell sR ((r + 1) mod 8)).
  unfold u8, nz. rewrite Z.mod_small; [reflexivity |].
  repeat match goal with |- context [if ?b then _ else _] => destruct b end; lia.
Qed.

(** ** The rule of the automaton *)

(** C1.  [life] returns, and every cell of the generation it writes is the
    rule applied to the cell's old value and to the number of its eight
    neighbours on the torus that were not dead: a live cell survives
    exactly with 2 or 3 neighbours, as orange if it was green and as red
    otherwise; a dead cell becomes green exactly with 3 neighbours. *)
Theorem life_applies_rule (m : list Z) (src dst : nat) :
  (src + 8 <= length m)%nat -> (dst + 8 <= length m)%nat ->
  (src + 8 <= dst)%nat \/ (dst + 8 <= src)%nat ->
  exists st m',
    life src dst m = Some (st, m') /\
    forall i r, 0 <= i < 8 -> 0 <= r < 8 ->
      cell (column m' dst i) r
      = rule (cell (column m src i) r) (live_neighbors m src i r).
Proof.
  intros Hsrc Hdst Hdis.
  destruct (life_post m src dst Hsrc Hdst Hdis) as (m' & Hrun & _ & _ & Hnew).
  eexists _, m'. split; [exact Hrun |].
  intros i r Hi Hr.
  unfold live_neighbors, live, column.
  rewrite !(Z.mod_small i), !(Z.mod_small r) by lia.
  rewrite Hnew by lia. unfold new_column.
  rewrite cell_next_column by lia. unfold next_cell.
  rewrite nextstate_rule, neighbors_cells by lia.
  assert (Z.to_nat (u8 (Z.land (i - 1) 7)) = Z.to_nat ((i - 1) mod 8)) as ->
    by (split_range i; reflexivity).
  assert (Z.to_nat (u8 (Z.land (i + 1) 7)) = Z.to_nat ((i + 1) mod 8)) as ->
    by (split_range i; reflexivity).
  fold (cell (Mem.rd m (src + Z.to_nat i)) r).
  unfold u8. rewrite (Z.mod_small (cell _ _))
    by (pose proof (cell_range (Mem.rd m (src + Z.to_nat i)) r); lia).
  reflexivity.
Qed.

(** An instance: the back buffer at word 8, a block and a lone cell. *)
Lemma life_applies_rule_witness :
  exists st m',
    life 0 8 [10; 10; 0; 0; 512; 0; 0; 0; 7; 7; 7; 7; 7; 7; 7; 7] = Some (st, m') /\
    forall i r, 0 <= i < 8 -> 0 <= r < 8 ->
      cell (column m' 8 i) r
      = rule (cell (column [10; 10; 0; 0; 512; 0; 0; 0; 7; 7; 7; 7; 7; 7; 7; 7] 0 i) r)
             (live_neighbors [10; 10; 0; 0; 512; 0; 0; 0; 7; 7; 7; 7; 7; 7; 7; 7] 0 i r).
Proof.
  apply (life_applies_rule
           [10; 10; 0; 0; 512; 0; 0; 0; 7; 7; 7; 7; 7; 7; 7; 7] 0 8);
    simpl; lia.
Defined.

(** ** The classification *)

Lemma colstates_cons o old n new :
  colstates (o :: old) (n :: new) = colstate_of n o :: colstates old new.
Proof. reflexivity. Qed.

(** The tally is a maximum and a count. *)
Lemma tallies_classes old : forall new r d,
  length old = length new ->
  0 <= r <= 2 -> 0 <= d -> d + Z.of_nat (length new) < 256 ->
  tallies (colstates old new) (r, d) =
  (if (r =? 0) && all_dead new then DEAD
   else if (r <=? 1) && no_column_active old new then STEADY
   else ACTIVE,
   d + dead_columns new).
Proof.
  induction old as [| o old IH]; intros [| n new] r d Hlen Hr Hd Hsum;
    try discriminate.
  - unfold tallies, colstates, all_dead, no_column_active, dead_columns,
      DEAD, STEADY, ACTIVE. simpl.
    rewrite !andb_true_r, Z.add_0_r. f_equal.
    assert (r = 0 \/ r = 1 \/ r = 2) as [-> | [-> | ->]] by lia; reflexivity.
  - rewrite colstates_cons. unfold tallies. simpl fold_left.
    fold (tallies (colstates old new) (tally (colstate_of n o) (r, d))).
    simpl in Hlen, Hsum.
    unfold tally, colstate_of, all_dead, no_column_active, dead_columns,
      DEAD, STEADY, ACTIVE. simpl fst. simpl snd.
    cbn [combine forallb List.filter fst snd].
    fold (all_dead new) (no_column_active old new).
    assert (u8 (d + 1) = d + 1) as Hu by (unfold u8; apply Z.mod_small; lia).
    destruct (Z.eqb_spec n 0) as [Hn0 | Hn0];
      [| destruct (Z.eqb_spec n o) as [Hno | Hno]];
      simpl; rewrite ?Hu;
      assert (r = 0 \/ r = 1 \/ r = 2) as [-> | [-> | ->]] by lia; simpl;
      rewrite IH by (simpl; lia); simpl;
      unfold dead_columns, DEAD, STEADY, ACTIVE;
      rewrite ?Z.eqb_refl; f_equal; simpl length; lia.
Qed.

(** What [life] returns, on generations of eight columns. *)
Lemma life_result_classify old new :
  length old = 8%nat -> length new = 8%nat ->
  life_result (colstates old new) = classify old new.
Proof.
  intros Hold Hnew. unfold life_result.
  rewrite tallies_classes by (rewrite ?Hold, ?Hnew; unfold DEAD; simpl; lia).
  unfold classify, DEAD, STEADY, ACTIVE. simpl. rewrite Z.add_0_l.
  destruct (all_dead new) eqn:Hdead.
  - assert (dead_columns new = 8) as ->; [| reflexivity].
    unfold dead_columns, all_dead in *.
    change 8 with (Z.of_nat 8). rewrite <- Hnew. f_equal. clear Hnew.
    induction new as [| n new IH]; [reflexivity |].
    simpl in *. apply andb_true_iff in Hdead as [-> Hrest].
    simpl. f_equal. by apply IH.
  - destruct (dead_columns new =? 7); [reflexivity |].
    by destruct (no_column_active old new).
Qed.

Lemma length_generation m p : length (generation m p) = 8%nat.
Proof. reflexivity. Qed.

Lemma no_column_active_refl g : no_column_active g g = true.
Proof.
  unfold no_column_active. induction g as [| w g IH]; [reflexivity |].
  simpl. by rewrite Z.eqb_refl, orb_true_r.
Qed.

(** A 16-bit word is its eight cells. *)
Lemma word_by_cells w1 w2 :
  0 <= w1 < 2 ^ 16 -> 0 <= w2 < 2 ^ 16 ->
  (forall r, 0 <= r < 8 -> cell w1 r = cell w2 r) -> w1 = w2.
Proof.
  intros H1 H2 Hcells. apply Z.bits_inj'. intros n Hn.
  destruct (Z.ltb_spec n 16) as [Hlt | Hge].
  - assert (0 <= n / 2 < 8) as Hr
      by (split; [apply Z.div_pos | apply Z.div_lt_upper_bound]; lia).
    assert (0 <= n mod 2 < 2) as Hb by (apply Z.mod_pos_bound; lia).
    pose proof (Z.div_mod n 2 ltac:(lia)) as Hdm.
    pose proof (Hcells (n / 2) Hr) as Hc.
    apply (f_equal (fun c => Z.testbit c (n mod 2))) in Hc.
    unfold cell in Hc.
    rewrite !Z.land_spec, !Z.shiftr_spec, testbit_3 in Hc by lia.
    replace (n mod 2 + 2 * (n / 2)) with n in Hc by lia.
    replace ((0 <=? n mod 2) && (n mod 2 <? 2)) with true in Hc
      by (symmetry; apply andb_true_iff; lia).
    by rewrite !andb_true_r in Hc.
  - rewrite <- (Z.mod_small w1 (2 ^ 16)), <- (Z.mod_small w2 (2 ^ 16)) by lia.
    by rewrite !Z.mod_pow2_bits_high by lia.
Qed.

Lemma next_column_range sL si sR d : 0 <= next_column sL si sR d < 2 ^ 16.
Proof.
  unfold next_column. cbn [fold_left]. unfold put_cell at 1. unfold u16.
  apply Z.mod_pos_bound. lia.
Qed.

(** With no live cell around, the inner loop leaves a dead column. *)
Lemma next_column_dead d : next_column 0 0 0 d = 0.
Proof.
  apply word_by_cells; [apply next_column_range | lia |].
  intros r Hr. rewrite cell_next_column by lia.
  split_range r; reflexivity.
Qed.

Lemma all_dead_generation m p :
  all_dead (generation m p) = true ->
  forall k, (k < 8)%nat -> Mem.rd m (p + k) = 0.
Proof.
  unfold all_dead, generation. cbn [seq map forallb].
  rewrite !andb_true_iff, !Z.eqb_eq. intros H k Hk.
  do 8 (destruct k as [| k]; [tauto |]). lia.
Qed.

(** C2, as the code has it.  [life] returns DEAD if every column of the
    new generation is zero; otherwise STEADY if exactly seven of its
    columns are zero, or if each of its columns is zero or equal to the
    column of the source generation; otherwise ACTIVE.  From an all-dead
    generation it writes an all-dead generation and returns DEAD. *)
Theorem life_classifies (m : list Z) (src dst : nat) :
  (src + 8 <= length m)%nat -> (dst + 8 <= length m)%nat ->
  (src + 8 <= dst)%nat \/ (dst + 8 <= src)%nat ->
  exists m',
    life src dst m
    = Some (classify (generation m src) (generation m' dst), m') /\
    (all_dead (generation m src) = true ->
     all_dead (generation m' dst) = true /\
     classify (generation m src) (generation m' dst) = DEAD).
Proof.
  intros Hsrc Hdst Hdis.
  destruct (life_post m src dst Hsrc Hdst Hdis) as (m' & Hrun & _ & _ & Hnew).
  exists m'. rewrite life_result_classify in Hrun by reflexivity.
  split; [exact Hrun |].
  intros Hdead. pose proof (all_dead_generation m src Hdead) as Hzero.
  assert (all_dead (generation m' dst) = true) as Hdead'.
  { unfold all_dead, generation. cbn [seq map forallb].
    assert (forall k, (k < 8)%nat -> Mem.rd m' (dst + k) = 0) as Hk.
    { intros k Hk. specialize (Hnew (Z.of_nat k) ltac:(lia)).
      rewrite Nat2Z.id in Hnew. rewrite Hnew. unfold new_column.
      destruct (left_right_range (Z.of_nat k) ltac:(lia)) as [HL HR].
      rewrite !Hzero by lia. apply next_column_dead. }
    by rewrite !Hk by lia. }
  split; [exact Hdead' |]. unfold classify. by rewrite Hdead'.
Qed.

(** An instance: the same board. *)
Lemma life_classifies_witness :
  exists m',
    life 0 8 [10; 10; 0; 0; 512; 0; 0; 0; 7; 7; 7; 7; 7; 7; 7; 7]
    = Some (classify
              (generation [10; 10; 0; 0; 512; 0; 0; 0; 7; 7; 7; 7; 7; 7; 7; 7] 0)
              (generation m' 8), m') /\
    (all_dead (generation [10; 10; 0; 0; 512; 0; 0; 0; 7; 7; 7; 7; 7; 7; 7; 7] 0)
     = true ->
     all_dead (generation m' 8) = true /\
     classify (generation [10; 10; 0; 0; 512; 0; 0; 0; 7; 7; 7; 7; 7; 7; 7; 7] 0)
              (generation m' 8) = DEAD).
Proof.
  apply (life_classifies
           [10; 10; 0; 0; 512; 0; 0; 0; 7; 7; 7; 7; 7; 7; 7; 7] 0 8);
    simpl; lia.
Defined.

(** C2 as stated fails: a red block in columns 0 and 1 with a lone red cell
    in column 4.  The block stays, the lone cell dies; six columns of the
    new generation are dead and column 4 differs from the source, so the
    stated classification is ACTIVE, and [life] returns STEADY. *)
Lemma life_classifies_not_as_claimed :
  life 0 8 [10; 10; 0; 0; 512; 0; 0; 0; 0; 0; 0; 0; 0; 0; 0; 0]
  = Some (STEADY, [10; 10; 0; 0; 512; 0; 0; 0; 10; 10; 0; 0; 0; 0; 0; 0]) /\
  classify_claimed [10; 10; 0; 0; 512; 0; 0; 0] [10; 10; 0; 0; 0; 0; 0; 0]
  = ACTIVE.
Proof. split; vm_compute; reflexivity. Qed.

(** C3, as the code has it.  If the generation [life] writes is equal to
    the source generation and is not all dead, [life] returns STEADY. *)
Theorem life_unchanged_steady (m : list Z) (src dst : nat) :
  (src + 8 <= length m)%nat -> (dst + 8 <= length m)%nat ->
  (src + 8 <= dst)%nat \/ (dst + 8 <= src)%nat ->
  exists st m',
    life src dst m = Some (st, m') /\
    (generation m' dst = generation m src ->
     all_dead (generation m src) = false -> st = STEADY).
Proof.
  intros Hsrc Hdst Hdis.
  destruct (life_post m src dst Hsrc Hdst Hdis) as (m' & Hrun & _).
  eexists _, m'. split; [exact Hrun |].
  intros Hsame Halive. rewrite life_result_classify by reflexivity.
  unfold classify. rewrite Hsame, Halive, no_column_active_refl.
  by rewrite orb_true_r.
Qed.

(** An instance: a red block, which is a still life. *)
Lemma life_unchanged_steady_witness :
  exists st m',
    life 0 8 [10; 10; 0; 0; 0; 0; 0; 0; 7; 7; 7; 7; 7; 7; 7; 7] = Some (st, m') /\
    (generation m' 8
     = generation [10; 10; 0; 0; 0; 0; 0; 0; 7; 7; 7; 7; 7; 7; 7; 7] 0 ->
     all_dead (generation [10; 10; 0; 0; 0; 0; 0; 0; 7; 7; 7; 7; 7; 7; 7; 7] 0)
     = false ->
     st = STEADY).
Proof.
  apply (life_unchanged_steady
           [10; 10; 0; 0; 0; 0; 0; 0; 7; 7; 7; 7; 7; 7; 7; 7] 0 8);
    simpl; lia.
Defined.

(** C3 as stated fails on the all-dead board: the new generation is equal
    to the source, and [life] returns DEAD. *)
Lemma life_unchanged_dead :
  life 0 8 [0; 0; 0; 0; 0; 0; 0; 0; 0; 0; 0; 0; 0; 0; 0; 0]
  = Some (DEAD, [0; 0; 0; 0; 0; 0; 0; 0; 0; 0; 0; 0; 0; 0; 0; 0]) /\
  generation [0; 0; 0; 0; 0; 0; 0; 0; 0; 0; 0; 0; 0; 0; 0; 0] 8
  = generation [0; 0; 0; 0; 0; 0; 0; 0; 0; 0; 0; 0; 0; 0; 0; 0] 0 /\
  (DEAD =? STEADY) = false.
Proof. repeat split. Qed.

(** ** What [life] leaves alone *)

Lemma generation_outside m m' p :
  (forall k, (p <= k < p + 8)%nat -> m' !! k = m !! k) ->
  generation m' p = generation m p.
Proof.
  intros H. unfold generation. apply map_ext_in. intros k Hk.
  apply in_seq in Hk. unfold Mem.rd. rewrite H by lia. reflexivity.
Qed.

Ltac session_fields :=
  cbn [Session.iterations Session.df Session.fade Session.speed Session.itc
       Session.ktc Session.fb_base Session.framebuf Session.OCR0B
       Session.fade_irq Session.buttons
       Session.with_fade Session.with_df Session.with_counters
       Session.with_frame Session.with_buttons Session.FADE_LEVEL
       Session.FADE_SWITCH Session.FADE_ON Session.FADE_OFF] in *.

Lemma fade_out_from_frame level s :
  Session.framebuf (Session.fade_out_from level s) = Session.framebuf s /\
  Session.fb_base (Session.fade_out_from level s) = Session.fb_base s.
Proof.
  unfold Session.fade_out_from. destruct (Session.df s =? 0); by session_fields.
Qed.

(** One pass over the generation step of [do_life] keeps the frame buffer
    at sixteen words and its base at 0 or 8, and leaves the eight columns
    that were visible before the pass as they were. *)
Lemma update_state_frame s :
  length (Session.framebuf s) = 16%nat ->
  Session.fb_base s = 0 \/ Session.fb_base s = 8 ->
  exists s',
    Session.update_state s = Some s' /\
    length (Session.framebuf s') = 16%nat /\
    (Session.fb_base s' = 0 \/ Session.fb_base s' = 8) /\
    forall k, (Z.to_nat (Session.fb_base s) <= k < Z.to_nat (Session.fb_base s) + 8)%nat ->
      Session.framebuf s' !! k = Session.framebuf s !! k.
Proof.
  intros Hlen Hbase. unfold Session.update_state.
  destruct (0 <? Session.speed s); [| by exists s].
  destruct (u8 (Session.itc s + 1) =? Session.speed s);
    [| by eexists; split; [reflexivity | session_fields]].
  session_fields.
  destruct (life_post (Session.framebuf s) (Z.to_nat (Session.fb_base s))
              (Z.to_nat (Z.lxor (Session.fb_base s) 8)))
    as (m' & -> & Hlen' & Hout & _).
  { destruct Hbase as [-> | ->]; rewrite Hlen; vm_compute; lia. }
  { destruct Hbase as [-> | ->]; rewrite Hlen; vm_compute; lia. }
  { destruct Hbase as [-> | ->]; vm_compute; lia. }
  eexists. split; [reflexivity |]. session_fields.
  match goal with
  | |- context [Session.framebuf ?x] =>
      assert (Session.framebuf x = m' /\ Session.fb_base x = Session.fb_base s)
        as [-> ->]
  end.
  { repeat match goal with
           | |- context [if ?b then _ else _] => destruct b
           end;
      session_fields;
      try (destruct (fade_out_from_frame FADE_DARK
             (Session.with_frame (Session.fb_base s) m'
                (Session.with_counters (Session.iterations s) (Session.speed s)
                   0 (Session.ktc s) s))) as [-> ->]);
      try (destruct (fade_out_from_frame FADE_BRIGHT
             (Session.with_frame (Session.fb_base s) m'
                (Session.with_counters (Session.iterations s) (Session.speed s)
                   0 (Session.ktc s) s))) as [-> ->]);
      try (destruct (fade_out_from_frame FADE_BRIGHT
             (Session.with_counters (u16 (Session.iterations s + 1))
                (Session.speed s) 0 (Session.ktc s)
                (Session.with_frame (Session.fb_base s) m'
                   (Session.with_counters (Session.iterations s)
                      (Session.speed s) 0 (Session.ktc s) s)))) as [-> ->]);
      by session_fields. }
  split; [congruence |]. split.
  { destruct Hbase as [-> | ->]; vm_compute; tauto. }
  intros k Hk. apply Hout. revert Hk.
  destruct Hbase as [-> | ->]; vm_compute; lia.
Qed.

Lemma clear_screen_run cols : forall start m,
  (start + cols <= length m)%nat ->
  exists m', clear_screen start cols m = Some (tt, m') /\ length m' = length m.
Proof.
  induction cols as [| cols IH]; intros start m Hlen.
  - by exists m.
  - cbn [clear_screen].
    erewrite bind_run by (apply store_run; lia).
    destruct (IH (S start) (<[start:=0]> m)) as (m' & Hrun & Hlen');
      [rewrite length_insert; lia |].
    exists m'. split; [done |]. by rewrite Hlen', length_insert.
Qed.

Lemma random_field_run adc p m :
  (p + 8 <= length m)%nat ->
  exists m', random_field adc p m = Some (tt, m') /\ length m' = length m.
Proof.
  intros Hlen. unfold random_field.
  destruct (for_loop_invariant (fun _ _ mc => length mc = length m)
              (fun i _ => Mem.store (p + Z.to_nat i)
                                    (random_column adc (Z.to_nat i)))
              8 ltac:(lia)) with (fuel := 8%nat) (i := 0) (acc := tt) (m := m)
    as ([] & m' & Hrun & Hlen'); [| lia | lia | done |].
  - intros i acc mc Hi Hmc. exists tt. eexists. split.
    + apply store_run. lia.
    + by rewrite length_insert.
  - by exists m'.
Qed.

(** [do_life] starts with a frame buffer of sixteen words and the base
    at 8. *)
Lemma start_frame adc fb b :
  length fb = 16%nat ->
  exists s0,
    Session.start adc fb b = Some s0 /\
    length (Session.framebuf s0) = 16%nat /\ Session.fb_base s0 = 8.
Proof.
  intros Hlen. unfold Session.start.
  destruct (clear_screen_run 16 0 fb ltac:(lia)) as (m1 & Hrun1 & Hlen1).
  destruct (random_field_run adc 8 m1 ltac:(lia)) as (m2 & Hrun2 & Hlen2).
  rewrite (bind_run _ _ _ _ _ Hrun1), Hrun2.
  eexists. split; [reflexivity |]. session_fields. split; [lia | reflexivity].
Qed.

Lemma check_input_frame p s :
  Session.framebuf (Session.check_input p s) = Session.framebuf s /\
  Session.fb_base (Session.check_input p s) = Session.fb_base s.
Proof.
  unfold Session.check_input.
  destruct (u8 (Session.ktc s + 1) =? 5); [| by session_fields].
  session_fields. destruct (GetButtons p (Session.buttons s)) as [ev b].
  destruct (negb (Z.land ev BUTTON_LEFT =? 0)); [by session_fields |].
  destruct (negb (Z.land ev BUTTON_RIGHT =? 0)); [| by session_fields].
  match goal with
  | |- context [Session.fade_out_from ?l ?x] =>
      destruct (fade_out_from_frame l x) as [-> ->]
  end.
  by session_fields.
Qed.

Lemma handle_fading_frame s :
  Session.framebuf (fst (Session.handle_fading s)) = Session.framebuf s /\
  Session.fb_base (fst (Session.handle_fading s)) = Session.fb_base s.
Proof.
  unfold Session.handle_fading.
  repeat match goal with
         | |- context [if ?b then _ else _] => destruct b
         end; by session_fields.
Qed.

(** Every pass of the loop of [do_life] keeps the frame buffer at sixteen
    words and its base at 0 or 8, and leaves the columns that were visible
    when the pass began as they were. *)
Lemma iter_frame p s :
  length (Session.framebuf s) = 16%nat ->
  Session.fb_base s = 0 \/ Session.fb_base s = 8 ->
  exists s' left,
    Session.iter p s = Some (s', left) /\
    length (Session.framebuf s') = 16%nat /\
    (Session.fb_base s' = 0 \/ Session.fb_base s' = 8) /\
    generation (Session.framebuf s') (Z.to_nat (Session.fb_base s))
    = generation (Session.framebuf s) (Z.to_nat (Session.fb_base s)).
Proof.
  intros Hlen Hbase. unfold Session.iter.
  destruct (check_input_frame p s) as [Hfb Hb].
  destruct (update_state_frame (Session.check_input p s))
    as (s1 & -> & Hlen1 & Hbase1 & Hout); [congruence | congruence |].
  destruct (handle_fading_frame s1) as [Hfb2 Hb2].
  destruct (Session.handle_fading s1) as [s2 left]. simpl fst in *.
  exists s2, left. split; [done |]. rewrite Hfb2, Hb2.
  split; [done |]. split; [done |].
  rewrite <- Hfb. apply generation_outside. intros k Hk. apply Hout.
  by rewrite Hb.
Qed.

Lemma iters_frame n : forall k pinc s,
  length (Session.framebuf s) = 16%nat ->
  Session.fb_base s = 0 \/ Session.fb_base s = 8 ->
  exists s' left,
    Session.iters n k pinc s = Some (s', left) /\
    length (Session.framebuf s') = 16%nat /\
    (Session.fb_base s' = 0 \/ Session.fb_base s' = 8).
Proof.
  induction n as [| n IH]; intros k pinc s Hlen Hbase.
  - by exists s, false.
  - cbn [Session.iters].
    destruct (iter_frame (pinc k) s Hlen Hbase)
      as (s1 & left & -> & Hlen1 & Hbase1 & _).
    destruct left; [by exists s1, true |]. by apply IH.
Qed.

(** C9.  On disjoint generations inside the memory, [life] returns, writes
    no word outside the eight of the destination, and so leaves the source
    generation as it was.  In [do_life], after any number of passes of
    its loop, the frame buffer has sixteen words and [fb_base] is 0 or 8;
    the source is the visible half, the destination the other half, and
    the generation step leaves the visible half as it was. *)
Theorem life_frame :
  (forall (m : list Z) (src dst : nat),
     (src + 8 <= length m)%nat -> (dst + 8 <= length m)%nat ->
     (src + 8 <= dst)%nat \/ (dst + 8 <= src)%nat ->
     exists st m',
       life src dst m = Some (st, m') /\
       length m' = length m /\
       (forall k, ~ (dst <= k < dst + 8)%nat -> m' !! k = m !! k) /\
       generation m' src = generation m src) /\
  (forall (adc : nat -> Z) (fb : list Z) (b : Buttons.state)
          (n : nat) (pinc : nat -> Z),
     length fb = 16%nat ->
     exists s0 s left,
       Session.start adc fb b = Some s0 /\
       Session.iters n 0 pinc s0 = Some (s, left) /\
       length (Session.framebuf s) = 16%nat /\
       (Session.fb_base s = 0 \/ Session.fb_base s = 8) /\
       exists s',
         Session.update_state s = Some s' /\
         generation (Session.framebuf s') (Z.to_nat (Session.fb_base s))
         = generation (Session.framebuf s) (Z.to_nat (Session.fb_base s))).
Proof.
  split.
  - intros m src dst Hsrc Hdst Hdis.
    destruct (life_post m src dst Hsrc Hdst Hdis) as (m' & Hrun & Hlen & Hout & _).
    eexists _, m'. repeat split; [exact Hrun | exact Hlen | exact Hout |].
    apply generation_outside. intros k Hk. apply Hout. lia.
  - intros adc fb b n pinc Hfb.
    destruct (start_frame adc fb b Hfb) as (s0 & Hstart & Hlen0 & Hbase0).
    destruct (iters_frame n 0%nat pinc s0 Hlen0 ltac:(by right))
      as (s & left & Hrun & Hlen & Hbase).
    destruct (update_state_frame s Hlen Hbase) as (s' & Hstep & _ & _ & Hout).
    exists s0, s, left. repeat split; try done.
    exists s'. split; [exact Hstep |]. by apply generation_outside.
Qed.

(** An instance: the front buffer at word 8, the back buffer at word 0. *)
Lemma life_frame_witness :
  exists st m',
    life 8 0 [0; 0; 0; 0; 0; 0; 0; 0; 10; 10; 0; 0; 512; 0; 0; 0] = Some (st, m') /\
    length m' = 16%nat /\
    (forall k, ~ (0 <= k < 0 + 8)%nat ->
       m' !! k = [0; 0; 0; 0; 0; 0; 0; 0; 10; 10; 0; 0; 512; 0; 0; 0] !! k) /\
    generation m' 8
    = generation [0; 0; 0; 0; 0; 0; 0; 0; 10; 10; 0; 0; 512; 0; 0; 0] 8.
Proof.
  apply (proj1 life_frame
           [0; 0; 0; 0; 0; 0; 0; 0; 10; 10; 0; 0; 512; 0; 0; 0] 8%nat 0%nat);
    simpl; lia.
Defined.

(** ** The buttons *)

Lemma pattern_range p : 0 <= pattern p <= 3.
Proof.
  unfold pattern. change 48 with (Z.shiftl 3 4).
  assert (Z.shiftr (Z.land p (Z.shiftl 3 4)) 4 = Z.land (Z.shiftr p 4) 3) as ->.
  { rewrite Z.shiftr_land. f_equal. }
  fold (cell (Z.shiftr p 4) 0) in *.
  assert (Z.land (Z.shiftr p 4) 3 = cell (Z.shiftr p 4) 0) as ->
    by (unfold cell; by rewrite Z.shiftr_0_r).
  pose proof (cell_range (Z.shiftr p 4) 0). unfold u8.
  rewrite Z.mod_small; lia.
Qed.

Ltac split_pattern v :=
  let H := fresh "H" in
  assert (v = 0 \/ v = 1 \/ v = 2 \/ v = 3) as H by lia;
  destruct H as [H | [H | [H | H]]].

(** A poll that reads the pattern of the poll before counts, below the
    threshold, and returns nothing. *)
Lemma GetButtons_same p st :
  pattern p = Buttons.prevState st -> pattern p <> 3 ->
  0 <= Buttons.repeat st -> Buttons.repeat st + 1 < REPEAT_THRESHOLD ->
  GetButtons p st
  = (0, {| Buttons.prevState := Buttons.prevState st;
           Buttons.repeat := Buttons.repeat st + 1 |}).
Proof.
  unfold REPEAT_THRESHOLD. intros Hp H3 H0 Hr. unfold GetButtons.
  fold (pattern p). unfold REPEAT_THRESHOLD.
  replace (20 <=? Buttons.repeat st) with false by (symmetry; apply Z.leb_gt; lia).
  rewrite Hp, Z.eqb_refl. simpl negb. cbv iota.
  replace (Buttons.prevState st =? 3) with false
    by (symmetry; apply Z.eqb_neq; congruence).
  simpl negb. cbv iota.
  replace (u8 (Buttons.repeat st + 1)) with (Buttons.repeat st + 1)
    by (unfold u8; rewrite Z.mod_small; lia).
  replace (Buttons.repeat st + 1 =? 20) with false
    by (symmetry; apply Z.eqb_neq; lia).
  reflexivity.
Qed.

Lemma polls_same ps : forall st,
  Forall (fun p => pattern p = Buttons.prevState st) ps ->
  Buttons.prevState st <> 3 ->
  0 <= Buttons.repeat st ->
  Buttons.repeat st + Z.of_nat (length ps) < REPEAT_THRESHOLD ->
  polls ps st
  = (replicate (length ps) 0,
     {| Buttons.prevState := Buttons.prevState st;
        Buttons.repeat := Buttons.repeat st + Z.of_nat (length ps) |}).
Proof.
  induction ps as [| p ps IH]; intros st Hall H3 H0 Hr.
  - simpl. rewrite Z.add_0_r. by destruct st.
  - apply Forall_cons in Hall as [Hp Hall]. simpl length in *.
    cbn [polls]. rewrite GetButtons_same by (congruence || lia).
    rewrite IH by (simpl; (done || lia)). simpl.
    do 2 f_equal. lia.
Qed.



Lemma polls_app ps qs st :
  polls (ps ++ qs) st
  = (fst (polls ps st) ++ fst (polls qs (snd (polls ps st))),
     snd (polls qs (snd (polls ps st)))).
Proof.
  revert st. induction ps as [| p ps IH]; intros st.
  - simpl. by destruct (polls qs st).
  - cbn [polls app]. destruct (GetButtons p st) as [e st1].
    rewrite IH. destruct (polls ps st1) as [es st2]. simpl.
    by destruct (polls qs st2).
Qed.

Lemma polls_cons p pins st :
  polls (p :: pins) st
  = (fst (GetButtons p st) :: fst (polls pins (snd (GetButtons p st))),
     snd (polls pins (snd (GetButtons p st)))).
Proof.
  cbn [polls]. destruct (GetButtons p st) as [e st1]. cbn [fst snd].
  by destruct (polls pins st1).
Qed.

Lemma GetButtons_change p st :
  Buttons.repeat st < REPEAT_THRESHOLD -> pattern p <> Buttons.prevState st ->
  GetButtons p st
  = (u8 (Z.land (Z.lnot (Buttons.prevState st)) (pattern p)),
     {| Buttons.prevState := pattern p; Buttons.repeat := Buttons.repeat st |}).
Proof.
  intros Hr Hp. unfold GetButtons. fold (pattern p).
  apply Z.leb_gt in Hr. rewrite Hr.
  apply Z.eqb_neq in Hp. by rewrite Hp.
Qed.

Lemma GetButtons_hold p st :
  pattern p = Buttons.prevState st -> pattern p <> 3 ->
  Buttons.repeat st = REPEAT_THRESHOLD - 1 ->
  GetButtons p st
  = (u8 (Z.lor BUTTON_HOLD (Z.lnot (Z.land (pattern p) 3))),
     {| Buttons.prevState := Buttons.prevState st;
        Buttons.repeat := REPEAT_THRESHOLD |}).
Proof.
  intros Hp H3 Hr. unfold GetButtons. fold (pattern p).
  rewrite Hr, Hp, Z.eqb_refl. rewrite <- Hp.
  apply Z.eqb_neq in H3. by rewrite H3.
Qed.

Lemma tap_bits v :
  0 <= v <= 3 -> v <> 3 ->
  u8 (Z.land (Z.lnot 3) v) = 0 /\
  u8 (Z.land (Z.lnot v) 3) = Z.land (Z.lnot v) 3 /\
  (Z.land (Z.lnot v) 3 =? 0) = false /\
  Z.testbit (Z.land (Z.lnot v) 3) 0 = negb (Z.testbit v 0) /\
  Z.testbit (Z.land (Z.lnot v) 3) 1 = negb (Z.testbit v 1).
Proof.
  intros Hrange Hv. split_pattern v; subst v; try lia; repeat split.
Qed.

(** C4, as the code has it.  From idle, a tap (the same pattern with a
    button down for fewer polls than the hold threshold, then pattern 3)
    returns no event while the button is down and exactly one press event
    on the release poll: complement-of-previous AND current, which has the
    bits of the buttons that were down.  The pattern read is stored as the
    previous one. *)
Theorem tap_registers_on_release (v : Z) (downs : list Z) (up : Z) :
  v <> 3 -> Forall (fun p => pattern p = v) downs ->
  (0 < length downs)%nat -> Z.of_nat (length downs) < REPEAT_THRESHOLD ->
  pattern up = 3 ->
  exists st',
    polls (downs ++ [up]) idle
    = (replicate (length downs) 0 ++ [Z.land (Z.lnot v) 3], st') /\
    Buttons.prevState st' = 3 /\
    (Z.land (Z.lnot v) 3 =? 0) = false /\
    Z.testbit (Z.land (Z.lnot v) 3) 0 = negb (Z.testbit v 0) /\
    Z.testbit (Z.land (Z.lnot v) 3) 1 = negb (Z.testbit v 1).
Proof.
  intros Hv Hdowns Hlen Hshort Hup.
  destruct downs as [| p ds]; [simpl in Hlen; lia |].
  apply Forall_cons in Hdowns as [Hp Hds]. simpl length in *.
  pose proof (pattern_range p) as Hrange. rewrite Hp in Hrange.
  destruct (tap_bits v Hrange Hv) as (Hdown & Hrel & Hnz & Hb0 & Hb1).
  eexists. split; [| repeat split; [| exact Hnz | exact Hb0 | exact Hb1]].
  - cbn [app polls].
    rewrite (GetButtons_change p idle) by (simpl; unfold REPEAT_THRESHOLD; (lia || congruence)).
    rewrite polls_app.
    rewrite (polls_same ds)
      by (simpl; rewrite ?Hp; unfold REPEAT_THRESHOLD in *; (done || lia)).
    cbn [fst snd polls Buttons.prevState Buttons.repeat idle].
    rewrite GetButtons_change
      by (simpl; rewrite ?Hp, ?Hup; unfold REPEAT_THRESHOLD in *; (lia || congruence)).
    cbn [Buttons.prevState Buttons.repeat]. rewrite Hp, Hup, Hdown, Hrel.
    reflexivity.
  - reflexivity.
Qed.

(** An instance: the left button down for three polls. *)
Lemma tap_registers_on_release_witness :
  exists st',
    polls ([32; 32; 32] ++ [48]) idle
    = (replicate (length [32; 32; 32]) 0 ++ [Z.land (Z.lnot 2) 3], st') /\
    Buttons.prevState st' = 3 /\
    (Z.land (Z.lnot 2) 3 =? 0) = false /\
    Z.testbit (Z.land (Z.lnot 2) 3) 0 = negb (Z.testbit 2 0) /\
    Z.testbit (Z.land (Z.lnot 2) 3) 1 = negb (Z.testbit 2 1).
Proof.
  apply (tap_registers_on_release 2 [32; 32; 32] 48);
    [lia | repeat constructor | simpl; lia | vm_compute; reflexivity
     | reflexivity].
Defined.

(** C4 as stated fails: with the left button down for one poll ([PINC]
    reads 0x20, then 0x30), the poll at the transition into the down state
    returns 0 and the release poll returns BUTTON_LEFT. *)
Lemma tap_not_registered_on_down :
  polls [32; 48] idle = ([0; BUTTON_LEFT], idle) /\
  pattern 32 = 2 /\ pattern 48 = 3.
Proof. repeat split. Qed.





(** C10.  A byte returned by [GetButtons] with BUTTON_HOLD set is
    BUTTON_HOLD | ~(curState & 3) cut to 8 bits: bits 0 and 1 are set
    exactly for the buttons that read low, and bits 2 to 7 are all set, so
    the byte is none of BUTTON_HOLD, BUTTON_HOLD | BUTTON_LEFT,
    BUTTON_HOLD | BUTTON_RIGHT, BUTTON_HOLD | BUTTON_LEFT | BUTTON_RIGHT.
    The test [buttons & BUTTON_LEFT] succeeds on it when the left button is
    held, as it does on the byte returned when the left button, down at the
    poll before, is read released. *)
Theorem hold_event_bits (PINC : Z) (st : Buttons.state) :
  Z.testbit (fst (GetButtons PINC st)) 4 = true ->
  let e := fst (GetButtons PINC st) in
  e = u8 (Z.lor BUTTON_HOLD (Z.lnot (Z.land (pattern PINC) 3))) /\
  e = 252 + (3 - pattern PINC) /\
  Z.testbit e 0 = negb (Z.testbit (pattern PINC) 0) /\
  Z.testbit e 1 = negb (Z.testbit (pattern PINC) 1) /\
  Z.testbit e 2 = true /\ Z.testbit e 3 = true /\ Z.testbit e 5 = true /\
  Z.testbit e 6 = true /\ Z.testbit e 7 = true /\
  (e =? BUTTON_HOLD) = false /\
  (e =? Z.lor BUTTON_HOLD BUTTON_LEFT) = false /\
  (e =? Z.lor BUTTON_HOLD BUTTON_RIGHT) = false /\
  (e =? Z.lor BUTTON_HOLD (Z.lor BUTTON_LEFT BUTTON_RIGHT)) = false /\
  (Z.land e BUTTON_LEFT =? 0) = Z.testbit (pattern PINC) 0 /\
  (forall p0 st0,
     Buttons.repeat st0 < REPEAT_THRESHOLD ->
     Z.testbit (Buttons.prevState st0) 0 = false ->
     Z.testbit (pattern p0) 0 = true ->
     (Z.land (fst (GetButtons p0 st0)) BUTTON_LEFT =? 0) = false).
Proof.
  intros Hbit. pose proof (pattern_range PINC) as Hrange.
  assert (fst (GetButtons PINC st)
          = u8 (Z.lor BUTTON_HOLD (Z.lnot (Z.land (pattern PINC) 3)))) as He.
  { revert Hbit. unfold GetButtons. fold (pattern PINC).
    destruct (REPEAT_THRESHOLD <=? Buttons.repeat st); [by simpl |].
    destruct (negb (pattern PINC =? Buttons.prevState st)).
    - simpl fst.
      rewrite testbit_u8, Z.land_spec, (testbit_below_4 (pattern PINC)) by lia.
      by rewrite andb_false_r.
    - destruct (negb (pattern PINC =? 3)); [| by simpl].
      destruct (u8 (Buttons.repeat st + 1) =? REPEAT_THRESHOLD); by simpl. }
  intros e. subst e. rewrite He. clear He Hbit.
  split; [reflexivity |].
  assert (forall p0 st0,
            Buttons.repeat st0 < REPEAT_THRESHOLD ->
            Z.testbit (Buttons.prevState st0) 0 = false ->
            Z.testbit (pattern p0) 0 = true ->
            (Z.land (fst (GetButtons p0 st0)) BUTTON_LEFT =? 0) = false)
    as Hpress.
  { intros p0 st0 Hr Hprev Hcur.
    rewrite GetButtons_change by (done || congruence). simpl fst.
    apply Z.eqb_neq. intros H0.
    apply (f_equal (fun x => Z.testbit x 0)) in H0.
    rewrite Z.land_spec, testbit_u8, Z.land_spec, Z.lnot_spec, Hprev, Hcur
      in H0 by lia.
    discriminate H0. }
  split_pattern (pattern PINC);
    match goal with H : pattern PINC = _ |- _ => rewrite H end;
    repeat split; exact Hpress.
Qed.

(** An instance: the twentieth poll of a left-button hold returns 0xFD. *)
Lemma hold_event_bits_witness :
  let e := fst (GetButtons 32 {| Buttons.prevState := 2; Buttons.repeat := 19 |}) in
  e = u8 (Z.lor BUTTON_HOLD (Z.lnot (Z.land (pattern 32) 3))) /\
  e = 252 + (3 - pattern 32) /\
  Z.testbit e 0 = negb (Z.testbit (pattern 32) 0) /\
  Z.testbit e 1 = negb (Z.testbit (pattern 32) 1) /\
  Z.testbit e 2 = true /\ Z.testbit e 3 = true /\ Z.testbit e 5 = true /\
  Z.testbit e 6 = true /\ Z.testbit e 7 = true /\
  (e =? BUTTON_HOLD) = false /\
  (e =? Z.lor BUTTON_HOLD BUTTON_LEFT) = false /\
  (e =? Z.lor BUTTON_HOLD BUTTON_RIGHT) = false /\
  (e =? Z.lor BUTTON_HOLD (Z.lor BUTTON_LEFT BUTTON_RIGHT)) = false /\
  (Z.land e BUTTON_LEFT =? 0) = Z.testbit (pattern 32) 0 /\
  (forall p0 st0,
     Buttons.repeat st0 < REPEAT_THRESHOLD ->
     Z.testbit (Buttons.prevState st0) 0 = false ->
     Z.testbit (pattern p0) 0 = true ->
     (Z.land (fst (GetButtons p0 st0)) BUTTON_LEFT =? 0) = false).
Proof.
  apply (hold_event_bits 32 {| Buttons.prevState := 2; Buttons.repeat := 19 |}).
  reflexivity.
Defined.

(** ** The column scanner *)

Section PortBits.

Variable p : Z.

Lemma clear_bit_0 k :
  0 < k < 8 -> Z.testbit (u8 (Z.land p (Z.lnot 1))) k = Z.testbit p k.
Proof.
  intros Hk. rewrite testbit_u8, Z.land_spec, Z.lnot_spec by lia.
  replace (Z.testbit 1 k) with false
    by (symmetry; apply Z.bits_above_log2; simpl; lia).
  apply andb_true_r.
Qed.

Lemma set_bit_0 k :
  0 < k < 8 -> Z.testbit (u8 (Z.lor p 1)) k = Z.testbit p k.
Proof.
  intros Hk. rewrite testbit_u8, Z.lor_spec by lia.
  replace (Z.testbit 1 k) with false
    by (symmetry; apply Z.bits_above_log2; simpl; lia).
  apply orb_false_r.
Qed.

Lemma cleared_bit_0 : Z.testbit (u8 (Z.land p (Z.lnot 1))) 0 = false.
Proof.
  rewrite testbit_u8, Z.land_spec, Z.lnot_spec by lia. apply andb_false_r.
Qed.

Lemma now_set_bit_0 : Z.testbit (u8 (Z.lor p 1)) 0 = true.
Proof. rewrite testbit_u8, Z.lor_spec by lia. apply orb_true_r. Qed.

Lemma clear_bit_1 k :
  k = 0 \/ k = 2 -> Z.testbit (u8 (Z.land p (Z.lnot 2))) k = Z.testbit p k.
Proof.
  intros [-> | ->]; rewrite testbit_u8, Z.land_spec, Z.lnot_spec by lia;
    apply andb_true_r.
Qed.

Lemma cleared_bit_1 : Z.testbit (u8 (Z.land p (Z.lnot 2))) 1 = false.
Proof.
  rewrite testbit_u8, Z.land_spec, Z.lnot_spec by lia. apply andb_false_r.
Qed.

Lemma set_bit_1 k :
  k = 0 \/ k = 2 -> Z.testbit (u8 (Z.lor p 2)) k = Z.testbit p k.
Proof.
  intros [-> | ->]; rewrite testbit_u8, Z.lor_spec by lia; apply orb_false_r.
Qed.

Lemma now_set_bit_1 : Z.testbit (u8 (Z.lor p 2)) 1 = true.
Proof. rewrite testbit_u8, Z.lor_spec by lia. apply orb_true_r. Qed.

Lemma clear_bit_2 k :
  k = 0 \/ k = 1 -> Z.testbit (u8 (Z.land p (Z.lnot 4))) k = Z.testbit p k.
Proof.
  intros [-> | ->]; rewrite testbit_u8, Z.land_spec, Z.lnot_spec by lia;
    apply andb_true_r.
Qed.

Lemma cleared_bit_2 : Z.testbit (u8 (Z.land p (Z.lnot 4))) 2 = false.
Proof.
  rewrite testbit_u8, Z.land_spec, Z.lnot_spec by lia. apply andb_false_r.
Qed.

Lemma set_bit_2 k :
  k = 0 \/ k = 1 -> Z.testbit (u8 (Z.lor p 4)) k = Z.testbit p k.
Proof.
  intros [-> | ->]; rewrite testbit_u8, Z.lor_spec by lia; apply orb_false_r.
Qed.

Lemma now_set_bit_2 : Z.testbit (u8 (Z.lor p 4)) 2 = true.
Proof. rewrite testbit_u8, Z.lor_spec by lia. apply orb_true_r. Qed.

End PortBits.

Lemma land_1_testbit c : (Z.land c 1 =? 0) = negb (Z.testbit c 0).
Proof.
  assert (Z.land c 1 = Z.b2z (Z.testbit c 0)) as ->.
  { apply Z.bits_inj'. intros n Hn. rewrite Z.land_spec.
    destruct (Z.eq_dec n 0) as [-> | Hne].
    - rewrite Z.b2z_bit0. apply andb_true_r.
    - replace (Z.testbit 1 n) with false
        by (symmetry; apply Z.bits_above_log2; simpl; lia).
      rewrite andb_false_r. symmetry.
      destruct (Z.testbit c 0); [| apply Z.bits_0].
      apply Z.bits_above_log2; simpl; lia. }
  by destruct (Z.testbit c 0).
Qed.

Lemma observe_quiet s v :
  Z.testbit v 1 = false -> Z.testbit v 2 = false ->
  Scanner.observe s (Scanner.WrC v)
  = {| Scanner.level := v; Scanner.clocked := Scanner.clocked s;
       Scanner.latched := Scanner.latched s |}.
Proof.
  intros H1 H2. unfold Scanner.observe, Scanner.rising.
  by rewrite H1, H2, !andb_false_r.
Qed.

Lemma observe_clock s v :
  Z.testbit (Scanner.level s) 1 = false ->
  Z.testbit v 1 = true -> Z.testbit v 2 = false ->
  Scanner.observe s (Scanner.WrC v)
  = {| Scanner.level := v;
       Scanner.clocked := Scanner.clocked s ++ [Z.testbit v 0];
       Scanner.latched := Scanner.latched s |}.
Proof.
  intros H0 H1 H2. unfold Scanner.observe, Scanner.rising.
  by rewrite H0, H1, H2, !andb_false_r.
Qed.

(** One pass of the loop: the clock falls, the data line takes the
    complement of bit 0 of [c], the clock rises. *)
Lemma shift_pass c h s :
  Scanner.level s = Scanner.PORTC h ->
  Z.testbit (Scanner.PORTC h) 2 = false ->
  exists ws h3,
    h3 = Scanner.SCK_1
           (if negb (Z.land c 1 =? 0) then Scanner.DATA_0 (Scanner.SCK_0 h)
            else Scanner.DATA_1 (Scanner.SCK_0 h)) /\
    Scanner.log h3 = Scanner.log h ++ ws /\
    fold_left Scanner.observe ws s
    = {| Scanner.level := Scanner.PORTC h3;
         Scanner.clocked := Scanner.clocked s ++ [negb (Z.testbit c 0)];
         Scanner.latched := Scanner.latched s |} /\
    Z.testbit (Scanner.PORTC h3) 2 = false /\
    Scanner.col h3 = Scanner.col h.
Proof.
  intros Hlevel Hlatch. rewrite land_1_testbit, negb_involutive.
  set (v1 := u8 (Z.land (Scanner.PORTC h) (Z.lnot 2))).
  assert (Z.testbit v1 1 = false) as H11 by apply cleared_bit_1.
  assert (Z.testbit v1 2 = false) as H12
    by (unfold v1; rewrite clear_bit_1 by lia; done).
  destruct (Z.testbit c 0) eqn:Hc.
  - set (v2 := u8 (Z.land v1 (Z.lnot 1))).
    set (v3 := u8 (Z.lor v2 2)).
    exists [Scanner.WrC v1; Scanner.WrC v2; Scanner.WrC v3]. eexists.
    split; [reflexivity |]. split.
    { cbn [Scanner.SCK_1 Scanner.SCK_0 Scanner.DATA_0 Scanner.setC Scanner.log
           Scanner.PORTC]. by rewrite <- !app_assoc. }
    assert (Z.testbit v2 1 = false) as H21
      by (unfold v2; rewrite clear_bit_0 by lia; done).
    assert (Z.testbit v2 2 = false) as H22
      by (unfold v2; rewrite clear_bit_0 by lia; done).
    assert (Z.testbit v2 0 = false) as H20 by apply cleared_bit_0.
    assert (Z.testbit v3 1 = true) as H31 by apply now_set_bit_1.
    assert (Z.testbit v3 2 = false) as H32
      by (unfold v3; rewrite set_bit_1 by lia; done).
    assert (Z.testbit v3 0 = false) as H30
      by (unfold v3; rewrite set_bit_1 by lia; done).
    cbn [fold_left].
    rewrite (observe_quiet s v1) by done.
    rewrite (observe_quiet _ v2) by done.
    rewrite (observe_clock _ v3) by done.
    cbn [Scanner.clocked Scanner.latched]. rewrite H30.
    repeat split; done.
  - set (v2 := u8 (Z.lor v1 1)).
    set (v3 := u8 (Z.lor v2 2)).
    exists [Scanner.WrC v1; Scanner.WrC v2; Scanner.WrC v3]. eexists.
    split; [reflexivity |]. split.
    { cbn [Scanner.SCK_1 Scanner.SCK_0 Scanner.DATA_1 Scanner.setC Scanner.log
           Scanner.PORTC]. by rewrite <- !app_assoc. }
    assert (Z.testbit v2 1 = false) as H21
      by (unfold v2; rewrite set_bit_0 by lia; done).
    assert (Z.testbit v2 2 = false) as H22
      by (unfold v2; rewrite set_bit_0 by lia; done).
    assert (Z.testbit v2 0 = true) as H20 by apply now_set_bit_0.
    assert (Z.testbit v3 1 = true) as H31 by apply now_set_bit_1.
    assert (Z.testbit v3 2 = false) as H32
      by (unfold v3; rewrite set_bit_1 by lia; done).
    assert (Z.testbit v3 0 = true) as H30
      by (unfold v3; rewrite set_bit_1 by lia; done).
    cbn [fold_left].
    rewrite (observe_quiet s v1) by done.
    rewrite (observe_quiet _ v2) by done.
    rewrite (observe_clock _ v3) by done.
    cbn [Scanner.clocked Scanner.latched]. rewrite H30.
    repeat split; done.
Qed.

(** [n] passes clock out the low [n] bits of [c], bit 0 first, each
    complemented, and leave the latch low. *)
Lemma shift_out_seen n : forall c h s,
  (n <= 16)%nat ->
  Scanner.level s = Scanner.PORTC h ->
  Z.testbit (Scanner.PORTC h) 2 = false ->
  exists ws,
    Scanner.log (Scanner.shift_out n c h) = Scanner.log h ++ ws /\
    fold_left Scanner.observe ws s
    = {| Scanner.level := Scanner.PORTC (Scanner.shift_out n c h);
         Scanner.clocked :=
           Scanner.clocked s
           ++ map (fun k => negb (Z.testbit c (Z.of_nat k))) (seq 0 n);
         Scanner.latched := Scanner.latched s |} /\
    Z.testbit (Scanner.PORTC (Scanner.shift_out n c h)) 2 = false /\
    Scanner.col (Scanner.shift_out n c h) = Scanner.col h.
Proof.
  induction n as [| n IH]; intros c h s Hn Hlevel Hlatch.
  - exists []. simpl. rewrite !app_nil_r. repeat split; try done.
    destruct s; simpl in *; by subst.
  - destruct (shift_pass c h s Hlevel Hlatch)
      as (ws1 & h3 & Hh3 & Hlog1 & Hseen1 & Hlatch1 & Hcol1).
    cbn [Scanner.shift_out]. rewrite <- Hh3.
    destruct (IH (u16 (Z.shiftr c 1)) h3 (fold_left Scanner.observe ws1 s))
      as (ws2 & Hlog2 & Hseen2 & Hlatch2 & Hcol2);
      [lia | by rewrite Hseen1 | done |].
    exists (ws1 ++ ws2). rewrite Hlog2, Hlog1, fold_left_app, Hseen2, Hseen1.
    cbn [Scanner.clocked Scanner.latched]. rewrite <- !app_assoc.
    repeat split; [| done | congruence].
    do 2 f_equal. cbn [seq map app]. f_equal.
    rewrite <- seq_shift, map_map. apply map_ext_in. intros k Hk.
    apply in_seq in Hk. rewrite testbit_u16, Z.shiftr_spec by lia.
    do 2 f_equal. lia.
Qed.

Lemma observe_latch_low s v :
  Z.testbit v 1 = Z.testbit (Scanner.level s) 1 -> Z.testbit v 2 = false ->
  Scanner.observe s (Scanner.WrC v)
  = {| Scanner.level := v; Scanner.clocked := Scanner.clocked s;
       Scanner.latched := Scanner.latched s |}.
Proof.
  intros H1 H2. unfold Scanner.observe, Scanner.rising.
  rewrite H1, H2, andb_false_r.
  by destruct (Z.testbit (Scanner.level s) 1).
Qed.

Lemma observe_latch s v :
  Z.testbit (Scanner.level s) 1 = false -> Z.testbit v 1 = false ->
  Z.testbit (Scanner.level s) 2 = false -> Z.testbit v 2 = true ->
  Scanner.observe s (Scanner.WrC v)
  = {| Scanner.level := v; Scanner.clocked := Scanner.clocked s;
       Scanner.latched := Scanner.latched s ++ [length (Scanner.clocked s)] |}.
Proof.
  intros H0 H1 H2 H3. unfold Scanner.observe, Scanner.rising.
  by rewrite H0, H1, H2, H3.
Qed.

Lemma observe_portd s v : Scanner.observe s (Scanner.WrD v) = s.
Proof. reflexivity. Qed.

Lemma frame_offset x : u8 (Z.land x 15) = x mod 16.
Proof.
  change 15 with (Z.ones 4). rewrite Z.land_ones by lia.
  change (2 ^ 4) with 16. unfold u8. change (2 ^ 8) with 256.
  apply Z.mod_small.
  assert (0 <= x mod 16 < 16) by (apply Z.mod_pos_bound; lia). lia.
Qed.

(** C5, as the code has it.  One run of the interrupt reads exactly one
    word of the frame buffer, the one at index (fb_base + col) mod 16, and
    clocks its sixteen bits into the shift registers least significant bit
    first, each as its complement on the data line (low for a 1); the
    latch rises once, after all sixteen have been clocked. *)
Theorem scanner_shifts_lsb_first
        (fb_base : Z) (framebuf : list Z) (h : Scanner.hw) :
  length framebuf = 16%nat ->
  exists w h' ws,
    framebuf !! Z.to_nat ((fb_base + Scanner.col h) mod 16) = Some w /\
    Scanner.ISR fb_base framebuf h = Some h' /\
    Scanner.log h' = Scanner.log h ++ ws /\
    Scanner.clocked (Scanner.watch (Scanner.PORTC h) ws)
    = map negb (Scanner.lsb_first w) /\
    Scanner.latched (Scanner.watch (Scanner.PORTC h) ws) = [16%nat].
Proof.
  intros Hlen.
  assert (0 <= (fb_base + Scanner.col h) mod 16 < 16) as Hoff
    by (apply Z.mod_pos_bound; lia).
  assert (Z.to_nat ((fb_base + Scanner.col h) mod 16) < length framebuf)%nat
    as Hin by lia.
  destruct (lookup_lt_is_Some_2 framebuf _ Hin) as [w Hw].
  unfold Scanner.ISR. rewrite frame_offset, Hw.
  set (h1 := Scanner.LATCH_0 h).
  set (s1 := {| Scanner.level := Scanner.PORTC h1; Scanner.clocked := [];
                Scanner.latched := [] |}).
  assert (Z.testbit (Scanner.PORTC h1) 2 = false) as Hlow
    by apply cleared_bit_2.
  destruct (shift_out_seen 16 w h1 s1 (le_n 16) eq_refl Hlow)
    as (ws & Hlog & Hseen & Hlow' & Hcol).
  set (h2 := Scanner.shift_out 16 w h1) in *.
  set (v3 := u8 (Z.land (Scanner.PORTC h2) (Z.lnot 2))).
  set (v4 := u8 (Z.lor v3 4)).
  exists w. eexists.
  exists ([Scanner.WrC (Scanner.PORTC h1)] ++ ws
          ++ [Scanner.WrC v3; Scanner.WrD (u8 0); Scanner.WrC v4;
              Scanner.WrD (u8 (Z.shiftr 128 (Scanner.col h2)))]).
  split; [done |]. split; [reflexivity |]. split.
  { cbn [Scanner.log Scanner.setD Scanner.LATCH_1 Scanner.SCK_0 Scanner.setC
         Scanner.PORTC Scanner.col Scanner.PORTD].
    rewrite Hlog. subst h1.
    cbn [Scanner.log Scanner.LATCH_0 Scanner.setC Scanner.PORTC].
    by rewrite <- !app_assoc. }
  assert (Z.testbit v3 1 = false) as H31 by apply cleared_bit_1.
  assert (Z.testbit v3 2 = false) as H32
    by (unfold v3; rewrite clear_bit_1 by lia; done).
  assert (Z.testbit v4 1 = false) as H41
    by (unfold v4; rewrite set_bit_2 by lia; done).
  assert (Z.testbit v4 2 = true) as H42 by apply now_set_bit_2.
  unfold Scanner.watch. rewrite !fold_left_app. cbn [fold_left].
  rewrite (observe_latch_low _ (Scanner.PORTC h1)); cycle 1.
  { subst h1. cbn [Scanner.LATCH_0 Scanner.setC Scanner.PORTC Scanner.level].
    apply clear_bit_2. lia. }
  { done. }
  cbn [Scanner.clocked Scanner.latched]. fold s1. rewrite Hseen.
  rewrite (observe_quiet _ v3) by done.
  rewrite observe_portd.
  rewrite (observe_latch _ v4) by done.
  rewrite observe_portd.
  cbn [Scanner.clocked Scanner.latched Scanner.level].
  split.
  - unfold Scanner.lsb_first. by rewrite map_map.
  - reflexivity.
Qed.

(** An instance: column 0 holds the word 1. *)
Lemma scanner_shifts_lsb_first_witness :
  exists w h' ws,
    [1; 0; 0; 0; 0; 0; 0; 0; 0; 0; 0; 0; 0; 0; 0; 0]
      !! Z.to_nat ((0 + 0) mod 16) = Some w /\
    Scanner.ISR 0 [1; 0; 0; 0; 0; 0; 0; 0; 0; 0; 0; 0; 0; 0; 0; 0]
      {| Scanner.PORTC := 244; Scanner.PORTD := 0; Scanner.col := 0;
         Scanner.log := [] |} = Some h' /\
    Scanner.log h' = [] ++ ws /\
    Scanner.clocked (Scanner.watch 244 ws) = map negb (Scanner.lsb_first w) /\
    Scanner.latched (Scanner.watch 244 ws) = [16%nat].
Proof.
  apply (scanner_shifts_lsb_first 0
           [1; 0; 0; 0; 0; 0; 0; 0; 0; 0; 0; 0; 0; 0; 0; 0]
           {| Scanner.PORTC := 244; Scanner.PORTD := 0; Scanner.col := 0;
              Scanner.log := [] |}).
  reflexivity.
Defined.

(** C5 as stated fails: for the column word 1 the first level clocked is
    that of bit 0 (low, for the 1) and the other fifteen are high; most
    significant bit first, the low level would come last, whether the
    levels are taken as the bits or as their complements. *)
Lemma scanner_not_msb_first :
  match Scanner.ISR 0 [1; 0; 0; 0; 0; 0; 0; 0; 0; 0; 0; 0; 0; 0; 0; 0]
          {| Scanner.PORTC := 244; Scanner.PORTD := 0; Scanner.col := 0;
             Scanner.log := [] |} with
  | Some h' =>
      Scanner.clocked (Scanner.watch 244 (Scanner.log h'))
      = false :: replicate 15 true /\
      map negb (Scanner.msb_first 1) = replicate 15 true ++ [false] /\
      Scanner.msb_first 1 = replicate 15 false ++ [true]
  | None => False
  end.
Proof. vm_compute. repeat split. Qed.

(** ** The quote picker *)

Lemma testbit_u64 a k : 0 <= k < 64 -> Z.testbit (u64 a) k = Z.testbit a k.
Proof. intros Hk. unfold u64. apply Z.mod_pow2_bits_low. lia. Qed.

Lemma u64_range a : 0 <= u64 a < 2 ^ 64.
Proof. unfold u64. apply Z.mod_pos_bound. lia. Qed.

Lemma one_shifted r : 0 <= r < 64 -> u64 (Z.shiftl 1 r) = 2 ^ r.
Proof.
  intros Hr. rewrite Z.shiftl_1_l. unfold u64. apply Z.mod_small.
  split; [lia |]. apply Z.pow_lt_mono_r; lia.
Qed.

(** The test [maskus & bit] of the search loop. *)
Lemma mask_test m r :
  0 <= r < 64 ->
  negb (Z.land m (u64 (Z.shiftl 1 r)) =? 0) = Z.testbit m r.
Proof.
  intros Hr. rewrite one_shifted by lia.
  assert (Z.land m (2 ^ r) = if Z.testbit m r then 2 ^ r else 0) as ->.
  { apply Z.bits_inj'. intros n Hn. rewrite Z.land_spec, Z.pow2_bits_eqb by lia.
    destruct (Z.eqb_spec r n) as [<- | Hne].
    - destruct (Z.testbit m r) eqn:Hb; simpl.
      + by rewrite Z.pow2_bits_true by lia.
      + by rewrite Z.bits_0.
    - rewrite andb_false_r. destruct (Z.testbit m r).
      + rewrite Z.pow2_bits_false by lia. done.
      + by rewrite Z.bits_0. }
  destruct (Z.testbit m r); [| reflexivity].
  assert (0 < 2 ^ r) by (apply Z.pow_pos_nonneg; lia).
  destruct (Z.eqb_spec (2 ^ r) 0); [lia | reflexivity].
Qed.

Lemma advance r : 0 <= r < 64 -> u8 (Z.land (r + 1) 63) = (r + 1) mod 64.
Proof.
  intros Hr. change 63 with (Z.ones 6). rewrite Z.land_ones by lia.
  change (2 ^ 6) with 64. unfold u8. change (2 ^ 8) with 256.
  apply Z.mod_small.
  assert (0 <= (r + 1) mod 64 < 64) by (apply Z.mod_pos_bound; lia). lia.
Qed.

(** The search stops at the first set bit, going up from [r] and around. *)
Lemma next_unused_first fuel : forall m r k,
  0 <= r < 64 -> 0 <= k <= Z.of_nat fuel ->
  Z.testbit m ((r + k) mod 64) = true ->
  (forall j, 0 <= j < k -> Z.testbit m ((r + j) mod 64) = false) ->
  next_unused fuel m r = Some ((r + k) mod 64).
Proof.
  induction fuel as [| fuel IH]; intros m r k Hr Hk Hset Hclear.
  - assert (k = 0) as -> by lia. rewrite Z.add_0_r, Z.mod_small in * by lia.
    simpl. by rewrite mask_test, Hset by lia.
  - cbn [next_unused]. rewrite mask_test by lia.
    destruct (Z.eq_dec k 0) as [-> | Hk0].
    + rewrite Z.add_0_r, Z.mod_small in * by lia. by rewrite Hset.
    + pose proof (Hclear 0 ltac:(lia)) as H0.
      rewrite Z.add_0_r, Z.mod_small in H0 by lia. rewrite H0. simpl.
      rewrite advance by lia.
      assert (forall j, ((r + 1) mod 64 + j) mod 64 = (r + (j + 1)) mod 64) as Hsh.
      { intros j. rewrite Zplus_mod_idemp_l. f_equal. lia. }
      replace ((r + k) mod 64) with (((r + 1) mod 64 + (k - 1)) mod 64)
        by (rewrite Hsh; f_equal; lia).
      apply IH.
      * apply Z.mod_pos_bound. lia.
      * lia.
      * rewrite Hsh. by replace (k - 1 + 1) with k by lia.
      * intros j Hj. rewrite Hsh. apply Hclear. lia.
Qed.

Lemma first_true (f : Z -> bool) (n : nat) :
  (forall j, 0 <= j < Z.of_nat n -> f j = false) \/
  (exists k, 0 <= k < Z.of_nat n /\ f k = true /\
             forall j, 0 <= j < k -> f j = false).
Proof.
  induction n as [| n [IH | (k & Hk & Hf & Hleast)]].
  - left. intros j Hj. lia.
  - destruct (f (Z.of_nat n)) eqn:Hn.
    + right. exists (Z.of_nat n). repeat split; [lia | lia | done |].
      intros j Hj. apply IH. lia.
    + left. intros j Hj.
      destruct (Z.eq_dec j (Z.of_nat n)) as [-> | Hne]; [done |].
      apply IH. lia.
  - right. exists k. repeat split; [lia | lia | done | done].
Qed.

Lemma refill_range m : 0 <= m < 2 ^ 64 -> 0 < refill m < 2 ^ 64.
Proof.
  intros Hm. unfold refill. destruct (Z.eqb_spec m 0); [| lia].
  by vm_compute.
Qed.

Lemma some_bit_set m :
  0 < m < 2 ^ 64 -> exists i, 0 <= i < 64 /\ Z.testbit m i = true.
Proof.
  intros Hm. exists (Z.log2 m). split.
  - split; [apply Z.log2_nonneg | apply Z.log2_lt_pow2; lia].
  - apply Z.bit_log2. lia.
Qed.

(** One call: the search returns, at the first index from the random one,
    going up and around, whose bit is set in the (refilled) mask, and that
    bit is cleared. *)
Lemma hello_world_pick b1 b2 m :
  0 <= m < 2 ^ 64 ->
  exists r k,
    hello_world b1 b2 m
    = Some (r, u8 (b2 mod 3 + 1), clear_bit (refill m) r) /\
    0 <= k < 64 /\ r = (b1 mod 64 + k) mod 64 /\
    Z.testbit (refill m) r = true /\
    forall j, 0 <= j < k ->
      Z.testbit (refill m) ((b1 mod 64 + j) mod 64) = false.
Proof.
  intros Hm. pose proof (refill_range m Hm) as Hfull.
  assert (u8 (Z.land b1 63) = b1 mod 64) as Hr0.
  { change 63 with (Z.ones 6). rewrite Z.land_ones by lia.
    change (2 ^ 6) with 64. unfold u8. change (2 ^ 8) with 256.
    apply Z.mod_small.
    assert (0 <= b1 mod 64 < 64) by (apply Z.mod_pos_bound; lia). lia. }
  assert (0 <= b1 mod 64 < 64) as Hr0r by (apply Z.mod_pos_bound; lia).
  destruct (first_true (fun k => Z.testbit (refill m) ((b1 mod 64 + k) mod 64))
                       64)
    as [Hnone | (k & Hk & Hset & Hleast)].
  - exfalso. destruct (some_bit_set (refill m) Hfull) as (i & Hi & Hbit).
    specialize (Hnone ((i - b1 mod 64) mod 64)).
    assert (0 <= (i - b1 mod 64) mod 64 < 64) as Hk
      by (apply Z.mod_pos_bound; lia).
    rewrite Zplus_mod_idemp_r in Hnone.
    replace (b1 mod 64 + (i - b1 mod 64)) with i in Hnone by lia.
    rewrite (Z.mod_small i 64) in Hnone by lia.
    rewrite Hnone in Hbit by lia. discriminate.
  - exists ((b1 mod 64 + k) mod 64), k.
    split; [| repeat split; (done || lia)].
    unfold hello_world. rewrite Hr0. fold (refill m).
    by rewrite (next_unused_first 64 (refill m) (b1 mod 64) k) by (done || lia).
Qed.

Lemma testbit_clear_bit m r i :
  0 <= r < 64 -> 0 <= i < 64 ->
  Z.testbit (clear_bit m r) i = Z.testbit m i && negb (i =? r).
Proof.
  intros Hr Hi. unfold clear_bit.
  rewrite testbit_u64, Z.land_spec, Z.lnot_spec, one_shifted by lia.
  rewrite Z.pow2_bits_eqb by lia. by rewrite (Z.eqb_sym r i).
Qed.

Lemma testbit_refill_empty i : 0 <= i < 64 -> Z.testbit (refill 0) i = true.
Proof.
  intros Hi. unfold refill. simpl (0 =? 0). cbv iota.
  by rewrite testbit_u64, Z.lnot_spec, Z.bits_0 by lia.
Qed.

Lemma quote_indices_NoDup : List.NoDup quote_indices.
Proof.
  unfold quote_indices. generalize (seq_NoDup 64 0).
  induction 1 as [| x l Hx Hl IH]; simpl; constructor; [| done].
  intros Hin. apply in_map_iff in Hin as (y & Heq & Hy).
  apply Nat2Z.inj in Heq. by subst.
Qed.

Lemma quote_indices_In i : In i quote_indices <-> 0 <= i < 64.
Proof.
  unfold quote_indices. rewrite in_map_iff. split.
  - intros (k & <- & Hk). apply in_seq in Hk. lia.
  - intros Hi. exists (Z.to_nat i). split; [lia |]. apply in_seq. lia.
Qed.

(** While fewer than 64 indices are cleared, the mask is not exhausted. *)
Lemma marks_nonzero m used :
  marks m used -> (length used < 64)%nat -> refill m = m.
Proof.
  intros (Hm & Hnd & Hin & Hbits) Hlen. unfold refill.
  destruct (Z.eqb_spec m 0) as [-> | Hne]; [| reflexivity].
  exfalso.
  assert (incl quote_indices used) as Hincl.
  { intros i Hi. apply quote_indices_In in Hi.
    destruct (in_dec Z.eq_dec i used) as [Hyes | Hno]; [done |].
    apply Hbits in Hno; [| done]. by rewrite Z.bits_0 in Hno. }
  pose proof (NoDup_incl_length quote_indices_NoDup Hincl) as Hle.
  unfold quote_indices in Hle. rewrite length_map, length_seq in Hle. lia.
Qed.

(** One call keeps the mask in step with the indices chosen so far, and
    chooses an index not chosen before. *)
Lemma pick_marks b1 b2 m used :
  0 <= m < 2 ^ 64 -> marks (refill m) used ->
  exists r,
    hello_world b1 b2 m
    = Some (r, u8 (b2 mod 3 + 1), clear_bit (refill m) r) /\
    marks (clear_bit (refill m) r) (r :: used).
Proof.
  intros Hm (_ & Hnd & Hin & Hbits).
  destruct (hello_world_pick b1 b2 m Hm) as (r & k & Hrun & Hk & Hr & Hset & _).
  assert (0 <= r < 64) as Hrange by (subst r; apply Z.mod_pos_bound; lia).
  exists r. split; [exact Hrun |]. repeat split.
  - apply u64_range.
  - apply u64_range.
  - constructor; [| done]. by apply Hbits.
  - destruct H as [<- | H]; [lia | by apply Hin].
  - destruct H as [<- | H]; [lia | by apply Hin].
  - intros Hbit [<- | Hi].
    + rewrite testbit_clear_bit, Z.eqb_refl, andb_false_r in Hbit by lia.
      discriminate.
    + rewrite testbit_clear_bit in Hbit by lia.
      apply andb_true_iff in Hbit as [Hbit _]. by apply Hbits in Hbit.
  - intros Hno. rewrite testbit_clear_bit by lia. apply andb_true_iff. split.
    + apply Hbits; [done |]. intros Hi. apply Hno. by right.
    + apply negb_true_iff, Z.eqb_neq. intros ->. apply Hno. by left.
Qed.

(** Successive calls, while the cycle lasts. *)
Lemma picks_marks rnd : forall m used,
  0 <= m < 2 ^ 64 -> marks (refill m) used ->
  (length used + length rnd <= 64)%nat ->
  exists rs m',
    hello_worlds rnd m = Some (rs, m') /\
    length rs = length rnd /\
    0 <= m' < 2 ^ 64 /\
    (rnd <> [] -> marks m' (rev rs ++ used)).
Proof.
  induction rnd as [| [b1 b2] rnd IH]; intros m used Hm Hmarks Hlen.
  - exists [], m. repeat split; (done || lia).
  - destruct (pick_marks b1 b2 m used Hm Hmarks) as (r & Hrun & Hmarks1).
    cbn [hello_worlds]. rewrite Hrun.
    pose proof (u64_range
                  (Z.land (refill m) (Z.lnot (u64 (Z.shiftl 1 r))))) as Hm1.
    fold (clear_bit (refill m) r) in Hm1.
    destruct rnd as [| x rnd'].
    + exists [r], (clear_bit (refill m) r).
      split; [done |]. split; [done |]. split; [done |]. by intros _.
    + simpl length in Hlen.
      destruct (IH (clear_bit (refill m) r) (r :: used)) as (rs & m' & -> & Hl & Hm' & Hmarks');
        [done | | simpl; lia |].
      { rewrite (marks_nonzero (clear_bit (refill m) r) (r :: used));
          [done | done | simpl; lia]. }
      exists (r :: rs), m'.
      split; [done |]. split; [simpl; by rewrite Hl |]. split; [done |].
      intros _. simpl rev. rewrite <- app_assoc. by apply Hmarks'.
Qed.

(** C8, as the code has it.  Each call chooses the first index, from the
    random one upwards and around, whose bit is set in the mask (refilled
    to all ones only when it is 0), and clears that bit.  So the 64 calls
    of a cycle, which starts with the mask exhausted (0, as it is at
    power-up and after the 64th call of the cycle before), choose each
    index of 0 .. 63 exactly once, whatever the random bytes, and leave the
    mask exhausted again. *)
Theorem quotes_once_per_cycle :
  (forall b1 b2 maskus,
     0 <= maskus < 2 ^ 64 ->
     exists r k,
       hello_world b1 b2 maskus
       = Some (r, u8 (b2 mod 3 + 1), clear_bit (refill maskus) r) /\
       0 <= k < 64 /\ r = (b1 mod 64 + k) mod 64 /\
       Z.testbit (refill maskus) r = true /\
       forall j, 0 <= j < k ->
         Z.testbit (refill maskus) ((b1 mod 64 + j) mod 64) = false) /\
  (forall rnd : list (Z * Z),
     length rnd = 64%nat ->
     exists rs,
       hello_worlds rnd 0 = Some (rs, 0) /\ Permutation rs quote_indices).
Proof.
  split; [exact hello_world_pick |].
  intros rnd Hlen.
  destruct (picks_marks rnd 0 []) as (rs & m' & Hrun & Hl & Hm' & Hmarks).
  { lia. }
  { split; [by vm_compute |]. split; [constructor |].
    split; [by intros i [] |]. intros i Hi.
    split; [by intros _ [] | intros _; by apply testbit_refill_empty]. }
  { simpl. lia. }
  destruct Hmarks as (_ & Hnd & Hin & Hbits).
  { intros ->. discriminate Hlen. }
  rewrite app_nil_r in *.
  assert (Permutation rs quote_indices) as Hperm.
  { apply NoDup_Permutation_bis.
    - apply NoDup_rev in Hnd. by rewrite rev_involutive in Hnd.
    - unfold quote_indices. rewrite length_map, length_seq. lia.
    - intros i Hi. apply quote_indices_In. apply Hin. by apply in_rev in Hi. }
  exists rs. split; [| exact Hperm].
  rewrite Hrun. do 2 f_equal.
  apply Z.bits_inj'. intros n Hn. rewrite Z.bits_0.
  destruct (Z.ltb_spec n 64) as [Hlt | Hge].
  - destruct (Z.testbit m' n) eqn:Hbit; [| reflexivity].
    exfalso. apply Hbits in Hbit; [| lia]. apply Hbit.
    apply in_rev. rewrite rev_involutive.
    apply (Permutation_in _ (Permutation_sym Hperm)).
    apply quote_indices_In. lia.
  - rewrite <- (Z.mod_small m' (2 ^ 64)) by lia.
    apply Z.mod_pow2_bits_high. lia.
Qed.

(** An instance: 63 draws of 5, then a draw of 200. *)
Lemma quotes_once_per_cycle_witness :
  exists rs,
    hello_worlds (replicate 63 (5, 0) ++ [(200, 7)]) 0 = Some (rs, 0) /\
    Permutation rs quote_indices.
Proof.
  apply (proj2 quotes_once_per_cycle (replicate 63 (5, 0) ++ [(200, 7)])).
  reflexivity.
Defined.

(** C8 as stated fails for 64 consecutive calls that straddle two cycles:
    when the first 64 calls draw 0 and the 65th draws 63, calls 2 to 65
    choose 1, 2, ..., 63 and then 63 again, and never 0. *)
Lemma quotes_repeat_across_cycles :
  match hello_worlds (replicate 64 (0, 0) ++ [(63, 0)]) 0 with
  | Some (rs, _) =>
      drop 1 rs = map Z.of_nat (seq 1 63) ++ [63] /\
      count_occ Z.eq_dec (drop 1 rs) 63 = 2%nat /\
      count_occ Z.eq_dec (drop 1 rs) 0 = 0%nat /\
      length (drop 1 rs) = 64%nat
  | None => False
  end.
Proof. vm_compute. repeat split. Qed.

(** ** The fade *)

Lemma fade_out_from_within level s :
  FADE_DARK <= level <= FADE_BRIGHT ->
  fade_within_one s -> fade_within_one (Session.fade_out_from level s).
Proof.
  unfold fade_within_one, Session.fade_out_from, FADE_DARK, FADE_BRIGHT, REFRESH.
  intros Hlevel [Hfade Hdf].
  destruct (Session.df s =? 0); session_fields; lia.
Qed.

Lemma check_input_within p s :
  fade_within_one s -> fade_within_one (Session.check_input p s).
Proof.
  intros Hs. unfold Session.check_input.
  destruct (u8 (Session.ktc s + 1) =? 5); [| exact Hs].
  session_fields. destruct (GetButtons p (Session.buttons s)) as [ev b].
  destruct (negb (Z.land ev BUTTON_LEFT =? 0)); [exact Hs |].
  destruct (negb (Z.land ev BUTTON_RIGHT =? 0)); [| exact Hs].
  apply fade_out_from_within; [by vm_compute | exact Hs].
Qed.

Lemma update_state_within s s' :
  Session.update_state s = Some s' ->
  fade_within_one s -> fade_within_one s'.
Proof.
  unfold Session.update_state. intros Hrun Hs.
  destruct (0 <? Session.speed s); [| by inversion Hrun; subst].
  destruct (u8 (Session.itc s + 1) =? Session.speed s);
    [| by inversion Hrun; subst].
  session_fields.
  destruct (life _ _ _) as [[st fb'] |]; [| discriminate].
  inversion Hrun as [Hs']. clear Hrun Hs'.
  assert (forall x, fade_within_one x ->
            fade_within_one
              (Session.with_frame (u8 (Z.lxor (Session.fb_base x) 8))
                                  (Session.framebuf x) x)) as Hflip
    by (intros x Hx; exact Hx).
  apply Hflip.
  destruct (negb (st =? ACTIVE)).
  - apply fade_out_from_within; [| exact Hs].
    destruct (st =? DEAD); by vm_compute.
  - session_fields.
    destruct (35 <? u16 (Session.iterations s + 1)); [| exact Hs].
    apply fade_out_from_within; [by vm_compute | exact Hs].
Qed.

Lemma handle_fading_within s :
  fade_within_one s -> fade_within_one (fst (Session.handle_fading s)).
Proof.
  unfold fade_within_one, Session.handle_fading, FADE_DARK, FADE_BRIGHT, REFRESH.
  intros [Hfade Hdf].
  destruct (Z.ltb_spec 0 (Session.df s)).
  - destruct (Z.ltb_spec (Session.fade s) (157 - 1)); simpl fst; session_fields.
    + unfold u8. rewrite Z.mod_small by lia. lia.
    + lia.
  - destruct (Z.ltb_spec (Session.df s) 0); [| simpl; lia].
    destruct (Z.ltb_spec (- Session.df s) (Session.fade s)); simpl fst;
      session_fields; [| lia].
    unfold u8. rewrite Z.mod_small by lia. lia.
Qed.

(** The level never leaves FADE_DARK .. FADE_BRIGHT + 1: the overshoot of
    the fade-in is the only one, and it is of one. *)
Lemma iter_within p s s' left :
  Session.iter p s = Some (s', left) ->
  fade_within_one s -> fade_within_one s'.
Proof.
  unfold Session.iter. intros Hrun Hs.
  destruct (Session.update_state (Session.check_input p s)) as [s1 |] eqn:Hup;
    [| discriminate].
  inversion Hrun as [Hpair].
  pose proof (update_state_within _ _ Hup (check_input_within p s Hs)) as Hs1.
  apply handle_fading_within in Hs1. by rewrite Hpair in Hs1.
Qed.

(** C6 fails on the code.  A session seeded with a glider, no button
    touched: the fade-in starts at FADE_DARK and adds 2 on every pass
    while the level is below FADE_BRIGHT, so from 155 it goes to 157, one
    above FADE_BRIGHT, on pass 78, with the fade still engaged; pass 79
    disengages it and leaves the level at 157. *)
Theorem fade_in_overshoots :
  match Session.start glider_adc (replicate 16 0) Buttons.init with
  | None => False
  | Some s0 =>
      Session.fade s0 = FADE_DARK /\
      match Session.iters 77 0 no_buttons s0,
            Session.iters 78 0 no_buttons s0,
            Session.iters 79 0 no_buttons s0 with
      | Some (s77, left77), Some (s78, left78), Some (s79, left79) =>
          Session.fade s77 = 155 /\
          Session.fade s78 = 157 /\ Session.OCR0B s78 = 157 /\
          Session.df s78 = 2 /\ Session.fade_irq s78 = true /\
          (FADE_BRIGHT <? Session.fade s78) = true /\
          Session.fade s79 = 157 /\ Session.df s79 = 0 /\
          Session.fade_irq s79 = false /\
          left77 = false /\ left78 = false /\ left79 = false
      | _, _, _ => False
      end
  end.
Proof. vm_compute. repeat split. Qed.

(** * Further properties *)

(** ** The scanner: blanking, column select, rotation *)

Ltac scanner_fields :=
  cbn [Scanner.PORTC Scanner.PORTD Scanner.col Scanner.log Scanner.setC
       Scanner.setD Scanner.LATCH_0 Scanner.LATCH_1 Scanner.SCK_0
       Scanner.SCK_1 Scanner.DATA_0 Scanner.DATA_1] in *.

Lemma shift_out_quiet n : forall c h,
  Z.testbit (Scanner.PORTC h) 2 = false ->
  exists ws,
    Scanner.log (Scanner.shift_out n c h) = Scanner.log h ++ ws /\
    Forall latch_low ws /\
    Scanner.PORTD (Scanner.shift_out n c h) = Scanner.PORTD h.
Proof.
  induction n as [| n IH]; intros c h Hlow.
  - exists []. by rewrite app_nil_r.
  - cbn [Scanner.shift_out].
    set (h1 := Scanner.SCK_0 h).
    set (h2 := if negb (Z.land c 1 =? 0) then Scanner.DATA_0 h1
               else Scanner.DATA_1 h1).
    set (h3 := Scanner.SCK_1 h2).
    assert (Z.testbit (Scanner.PORTC h1) 2 = false) as H1
      by (subst h1; scanner_fields; by rewrite clear_bit_1 by lia).
    assert (Z.testbit (Scanner.PORTC h2) 2 = false) as H2.
    { subst h2. destruct (negb (Z.land c 1 =? 0)); scanner_fields.
      - by rewrite clear_bit_0 by lia.
      - by rewrite set_bit_0 by lia. }
    assert (Z.testbit (Scanner.PORTC h3) 2 = false) as H3
      by (subst h3; scanner_fields; by rewrite set_bit_1 by lia).
    assert (Scanner.log h3
            = Scanner.log h ++ [Scanner.WrC (Scanner.PORTC h1);
                                Scanner.WrC (Scanner.PORTC h2);
                                Scanner.WrC (Scanner.PORTC h3)]) as Hlog.
    { subst h3 h2 h1. destruct (negb (Z.land c 1 =? 0)); scanner_fields;
        by rewrite <- !app_assoc. }
    assert (Scanner.PORTD h3 = Scanner.PORTD h) as HD
      by (subst h3 h2 h1; by destruct (negb (Z.land c 1 =? 0))).
    destruct (IH (u16 (Z.shiftr c 1)) h3 H3) as (ws & Hws & Hquiet & HD').
    exists ([Scanner.WrC (Scanner.PORTC h1); Scanner.WrC (Scanner.PORTC h2);
             Scanner.WrC (Scanner.PORTC h3)] ++ ws).
    rewrite Hws, Hlog, <- app_assoc. split; [done |]. split; [| congruence].
    repeat (constructor; [done |]). exact Hquiet.
Qed.

Lemma column_line col :
  0 <= col < 8 -> u8 (Z.shiftr 128 col) = 2 ^ (7 - col).
Proof. intros Hcol. split_range col; reflexivity. Qed.

Lemma next_col col : u8 (Z.land (col + 1) 7) = (col + 1) mod 8.
Proof.
  change 7 with (Z.ones 3). rewrite Z.land_ones by lia.
  change (2 ^ 3) with 8. unfold u8. change (2 ^ 8) with 256.
  apply Z.mod_small.
  assert (0 <= (col + 1) mod 8 < 8) by (apply Z.mod_pos_bound; lia). lia.
Qed.

(** One run of the interrupt, as the shift registers and the column
    drivers see it, from any state of the observer. *)
Lemma ISR_seen fb_base framebuf h s :
  length framebuf = 16%nat ->
  Scanner.level s = Scanner.PORTC h ->
  exists h' pre v,
    Scanner.ISR fb_base framebuf h = Some h' /\
    Scanner.log h'
    = Scanner.log h
      ++ pre ++ [Scanner.WrD 0; Scanner.WrC v;
                 Scanner.WrD (u8 (Z.shiftr 128 (Scanner.col h)))] /\
    Forall latch_low pre /\ Z.testbit v 2 = true /\
    fold_left Scanner.observe
      (pre ++ [Scanner.WrD 0; Scanner.WrC v;
               Scanner.WrD (u8 (Z.shiftr 128 (Scanner.col h)))]) s
    = {| Scanner.level := Scanner.PORTC h';
         Scanner.clocked :=
           Scanner.clocked s
           ++ map negb
                (Scanner.lsb_first
                   (Mem.rd framebuf
                      (Z.to_nat ((fb_base + Scanner.col h) mod 16))));
         Scanner.latched :=
           Scanner.latched s ++ [(length (Scanner.clocked s) + 16)%nat] |} /\
    Scanner.PORTD h' = u8 (Z.shiftr 128 (Scanner.col h)) /\
    Scanner.col h' = (Scanner.col h + 1) mod 8.
Proof.
  intros Hlen Hlevel.
  assert (0 <= (fb_base + Scanner.col h) mod 16 < 16) as Hoff
    by (apply Z.mod_pos_bound; lia).
  assert (Z.to_nat ((fb_base + Scanner.col h) mod 16) < length framebuf)%nat
    as Hin by lia.
  pose proof (rd_lookup framebuf _ Hin) as Hw.
  set (w := Mem.rd framebuf (Z.to_nat ((fb_base + Scanner.col h) mod 16))) in *.
  unfold Scanner.ISR. rewrite frame_offset, Hw.
  set (h1 := Scanner.LATCH_0 h).
  assert (Z.testbit (Scanner.PORTC h1) 2 = false) as Hlow
    by apply cleared_bit_2.
  assert (Z.testbit (Scanner.PORTC h1) 1 = Z.testbit (Scanner.level s) 1)
    as Hclk
    by (rewrite Hlevel; subst h1; scanner_fields; by rewrite clear_bit_2 by lia).
  set (s1 := {| Scanner.level := Scanner.PORTC h1;
                Scanner.clocked := Scanner.clocked s;
                Scanner.latched := Scanner.latched s |}).
  destruct (shift_out_seen 16 w h1 s1 (le_n 16) eq_refl Hlow)
    as (ws & Hlog & Hseen & Hlow' & Hcol).
  destruct (shift_out_quiet 16 w h1 Hlow) as (ws' & Hlog' & Hquiet & HD).
  assert (ws' = ws) as -> by (rewrite Hlog in Hlog'; by apply app_inv_head in Hlog').
  set (h2 := Scanner.shift_out 16 w h1) in *.
  set (v3 := u8 (Z.land (Scanner.PORTC h2) (Z.lnot 2))).
  set (v4 := u8 (Z.lor v3 4)).
  assert (Z.testbit v3 1 = false) as H31 by apply cleared_bit_1.
  assert (Z.testbit v3 2 = false) as H32
    by (unfold v3; rewrite clear_bit_1 by lia; done).
  assert (Z.testbit v4 1 = false) as H41
    by (unfold v4; rewrite set_bit_2 by lia; done).
  assert (Z.testbit v4 2 = true) as H42 by apply now_set_bit_2.
  eexists. exists ([Scanner.WrC (Scanner.PORTC h1)] ++ ws ++ [Scanner.WrC v3]), v4.
  split; [reflexivity |].
  cbn [Scanner.log Scanner.setD Scanner.LATCH_1 Scanner.SCK_0 Scanner.setC
       Scanner.PORTC Scanner.col Scanner.PORTD].
  rewrite Hcol. fold v3 v4.
  split.
  { rewrite Hlog. subst h1.
    cbn [Scanner.log Scanner.LATCH_0 Scanner.setC Scanner.PORTC Scanner.col].
    by rewrite <- !app_assoc. }
  split.
  { apply Forall_app. split; [by constructor |].
    apply Forall_app. split; [done | by constructor]. }
  split; [done |].
  split; [| split; [reflexivity | subst h1; scanner_fields; apply next_col]].
  rewrite <- !app_assoc. cbn [app fold_left].
  rewrite (observe_latch_low s (Scanner.PORTC h1)) by done.
  fold s1. rewrite fold_left_app, Hseen. cbn [fold_left].
  rewrite (observe_quiet _ v3) by done.
  rewrite observe_portd.
  rewrite (observe_latch _ v4) by done.
  rewrite observe_portd.
  cbn [Scanner.clocked Scanner.latched Scanner.level].
  subst s1. cbn [Scanner.clocked Scanner.latched].
  unfold Scanner.lsb_first.
  by rewrite map_map, length_app, length_map, length_seq.
Qed.

(** X1.  In one run of the interrupt, with the column counter in 0 .. 7:
    while the word is shifted out nothing is written to [PORTD] and the
    latch stays low; then [PORTD] is written 0, then the latch rises, then
    [PORTD] is written with the single bit 7 - col; and the counter moves
    to (col + 1) mod 8. *)
Theorem scanner_blanks_then_selects
        (fb_base : Z) (framebuf : list Z) (h : Scanner.hw) :
  length framebuf = 16%nat -> 0 <= Scanner.col h < 8 ->
  exists h' pre v,
    Scanner.ISR fb_base framebuf h = Some h' /\
    Scanner.log h'
    = Scanner.log h
      ++ pre ++ [Scanner.WrD 0; Scanner.WrC v;
                 Scanner.WrD (2 ^ (7 - Scanner.col h))] /\
    Forall latch_low pre /\ Z.testbit v 2 = true /\
    Scanner.PORTD h' = 2 ^ (7 - Scanner.col h) /\
    Scanner.col h' = (Scanner.col h + 1) mod 8.
Proof.
  intros Hlen Hcol.
  destruct (ISR_seen fb_base framebuf h
              {| Scanner.level := Scanner.PORTC h; Scanner.clocked := [];
                 Scanner.latched := [] |} Hlen eq_refl)
    as (h' & pre & v & Hrun & Hlog & Hquiet & Hv & _ & HD & Hnext).
  rewrite column_line in * by lia.
  by exists h', pre, v.
Qed.

(** An instance: column 3 of a blank frame. *)
Lemma scanner_blanks_then_selects_witness :
  exists h' pre v,
    Scanner.ISR 8 (replicate 16 0)
      {| Scanner.PORTC := 244; Scanner.PORTD := 32; Scanner.col := 3;
         Scanner.log := [] |} = Some h' /\
    Scanner.log h'
    = [] ++ pre ++ [Scanner.WrD 0; Scanner.WrC v; Scanner.WrD (2 ^ (7 - 3))] /\
    Forall latch_low pre /\ Z.testbit v 2 = true /\
    Scanner.PORTD h' = 2 ^ (7 - 3) /\
    Scanner.col h' = (3 + 1) mod 8.
Proof.
  apply (scanner_blanks_then_selects 8 (replicate 16 0)
           {| Scanner.PORTC := 244; Scanner.PORTD := 32; Scanner.col := 3;
              Scanner.log := [] |}); [reflexivity | simpl; lia].
Defined.

Lemma shown_next fb_base framebuf col k :
  shown fb_base framebuf ((col + 1) mod 8) k
  = shown fb_base framebuf col (S k).
Proof.
  unfold shown. rewrite Zplus_mod_idemp_l.
  by replace (col + 1 + Z.of_nat k) with (col + Z.of_nat (S k)) by lia.
Qed.

Lemma ticks_seen fb_base framebuf n : forall h s,
  length framebuf = 16%nat -> 0 <= Scanner.col h < 8 ->
  Scanner.level s = Scanner.PORTC h ->
  exists h' ws,
    scanner_ticks n fb_base framebuf h = Some h' /\
    Scanner.log h' = Scanner.log h ++ ws /\
    Scanner.col h' = (Scanner.col h + Z.of_nat n) mod 8 /\
    fold_left Scanner.observe ws s
    = {| Scanner.level := Scanner.PORTC h';
         Scanner.clocked :=
           Scanner.clocked s
           ++ concat (map (fun k => map negb (Scanner.lsb_first
                                      (shown fb_base framebuf (Scanner.col h) k)))
                          (seq 0 n));
         Scanner.latched :=
           Scanner.latched s
           ++ map (fun k => (length (Scanner.clocked s) + 16 * (k + 1))%nat)
                  (seq 0 n) |}.
Proof.
  induction n as [| n IH]; intros h s Hlen Hcol Hlevel.
  - exists h, []. cbn. rewrite !app_nil_r, Z.add_0_r, Z.mod_small by lia.
    repeat split; try done. destruct s; cbn in *; by subst.
  - cbn [scanner_ticks].
    destruct (ISR_seen fb_base framebuf h s Hlen Hlevel)
      as (h1 & pre & v & -> & Hlog1 & _ & _ & Hseen1 & _ & Hnext).
    set (ws1 := pre ++ [Scanner.WrD 0; Scanner.WrC v;
                        Scanner.WrD (u8 (Z.shiftr 128 (Scanner.col h)))]) in *.
    assert (0 <= Scanner.col h1 < 8) as Hcol1
      by (rewrite Hnext; apply Z.mod_pos_bound; lia).
    destruct (IH h1 (fold_left Scanner.observe ws1 s) Hlen Hcol1)
      as (h' & ws & Hrun & Hlog & Hcol' & Hseen);
      [by rewrite Hseen1 |].
    exists h', (ws1 ++ ws). split; [exact Hrun |].
    split; [by rewrite Hlog, Hlog1, <- app_assoc |].
    split.
    { rewrite Hcol', Hnext, Zplus_mod_idemp_l. f_equal. lia. }
    rewrite fold_left_app, Hseen, Hseen1.
    cbn [Scanner.clocked Scanner.latched]. rewrite <- !app_assoc.
    f_equal.
    + f_equal. cbn [seq map concat]. f_equal.
      * unfold shown. rewrite Z.add_0_r, (Z.mod_small (Scanner.col h)) by lia.
        reflexivity.
      * rewrite <- seq_shift, map_map. f_equal. apply map_ext. intros k.
        by rewrite Hnext, shown_next.
    + f_equal. cbn [seq map app]. f_equal; try lia.
      rewrite <- seq_shift, map_map. apply map_ext. intros k.
      rewrite length_app, length_map. unfold Scanner.lsb_first.
      rewrite length_map, length_seq. lia.
Qed.

(** X2.  Successive runs of the interrupt, from a column counter in
    0 .. 7, on an unchanged frame buffer: the [k]-th run clocks out the
    word at index (fb_base + (col + k) mod 8) mod 16, so eight runs show
    the eight visible columns in rotation and no other word; the latch
    rises once per run, after each sixteen bits; and after [n] runs the
    counter is (col + n) mod 8. *)
Theorem scanner_rotates
        (fb_base : Z) (framebuf : list Z) (h : Scanner.hw) (n : nat) :
  length framebuf = 16%nat -> 0 <= Scanner.col h < 8 ->
  exists h' ws,
    scanner_ticks n fb_base framebuf h = Some h' /\
    Scanner.log h' = Scanner.log h ++ ws /\
    Scanner.col h' = (Scanner.col h + Z.of_nat n) mod 8 /\
    Scanner.clocked (Scanner.watch (Scanner.PORTC h) ws)
    = concat (map (fun k => map negb (Scanner.lsb_first
                               (shown fb_base framebuf (Scanner.col h) k)))
                  (seq 0 n)) /\
    Scanner.latched (Scanner.watch (Scanner.PORTC h) ws)
    = map (fun k => (16 * (k + 1))%nat) (seq 0 n).
Proof.
  intros Hlen Hcol.
  destruct (ticks_seen fb_base framebuf n h
              {| Scanner.level := Scanner.PORTC h; Scanner.clocked := [];
                 Scanner.latched := [] |} Hlen Hcol eq_refl)
    as (h' & ws & Hrun & Hlog & Hcol' & Hseen).
  exists h', ws. unfold Scanner.watch. rewrite Hseen.
  by cbn [Scanner.clocked Scanner.latched app length Nat.add].
Qed.

(** An instance: eight ticks over the back half, starting at column 5. *)
Lemma scanner_rotates_witness :
  exists h' ws,
    scanner_ticks 8 8 [0; 1; 2; 3; 4; 5; 6; 7; 8; 9; 10; 11; 12; 13; 14; 15]
      {| Scanner.PORTC := 244; Scanner.PORTD := 0; Scanner.col := 5;
         Scanner.log := [] |} = Some h' /\
    Scanner.log h' = [] ++ ws /\
    Scanner.col h' = (5 + Z.of_nat 8) mod 8 /\
    Scanner.clocked (Scanner.watch 244 ws)
    = concat (map (fun k => map negb (Scanner.lsb_first
                               (shown 8 [0; 1; 2; 3; 4; 5; 6; 7; 8; 9; 10; 11;
                                         12; 13; 14; 15] 5 k)))
                  (seq 0 8)) /\
    Scanner.latched (Scanner.watch 244 ws)
    = map (fun k => (16 * (k + 1))%nat) (seq 0 8).
Proof.
  apply (scanner_rotates 8
           [0; 1; 2; 3; 4; 5; 6; 7; 8; 9; 10; 11; 12; 13; 14; 15]
           {| Scanner.PORTC := 244; Scanner.PORTD := 0; Scanner.col := 5;
              Scanner.log := [] |} 8); [reflexivity | simpl; lia].
Defined.

(** ** Clearing and seeding the frame buffer *)

Lemma clear_screen_post cols : forall start m,
  (start + cols <= length m)%nat ->
  exists m',
    clear_screen start cols m = Some (tt, m') /\
    length m' = length m /\
    (forall k, (start <= k < start + cols)%nat -> m' !! k = Some 0) /\
    (forall k, ~ (start <= k < start + cols)%nat -> m' !! k = m !! k).
Proof.
  induction cols as [| cols IH]; intros start m Hlen.
  - exists m. split; [done |]. split; [done |].
    split; [intros k Hk; lia | done].
  - cbn [clear_screen].
    erewrite bind_run by (apply store_run; lia).
    destruct (IH (S start) (<[start:=0]> m)) as (m' & Hrun & Hlen' & Hin & Hout);
      [rewrite length_insert; lia |].
    exists m'. rewrite length_insert in Hlen'.
    split; [done |]. split; [done |]. split.
    + intros k Hk. destruct (decide (k = start)) as [-> | Hne].
      * rewrite Hout by lia. apply list_lookup_insert_eq. lia.
      * apply Hin. lia.
    + intros k Hk. rewrite Hout by lia. apply list_lookup_insert_ne. lia.
Qed.

(** X3.  [clear_screen(start, cols)], inside the array, returns and
    leaves the array with the words start .. start + cols - 1 replaced by
    zeros: the words before and the words after are as they were. *)
Theorem clear_screen_clears (cols start : nat) (m : list Z) :
  (start + cols <= length m)%nat ->
  clear_screen start cols m
  = Some (tt, take start m ++ replicate cols 0 ++ drop (start + cols) m).
Proof.
  intros Hlen.
  destruct (clear_screen_post cols start m Hlen)
    as (m' & -> & Hlen' & Hin & Hout).
  do 2 f_equal. apply list_eq. intros k.
  destruct (decide (k < start)%nat) as [Hlt | Hge].
  - rewrite Hout by lia.
    rewrite lookup_app_l by (rewrite length_take; lia).
    symmetry. apply lookup_take_lt. exact Hlt.
  - rewrite lookup_app_r by (rewrite length_take; lia).
    rewrite length_take, Nat.min_l by lia.
    destruct (decide (k < start + cols)%nat) as [Hlt' | Hge'].
    + rewrite Hin by lia.
      rewrite lookup_app_l by (rewrite length_replicate; lia).
      symmetry. apply lookup_replicate_2. lia.
    + rewrite Hout by lia.
      rewrite lookup_app_r by (rewrite length_replicate; lia).
      rewrite length_replicate, lookup_drop. f_equal. lia.
Qed.

(** An instance: the back buffer of a full frame. *)
Lemma clear_screen_clears_witness :
  clear_screen 8 8 [1; 2; 3; 4; 5; 6; 7; 8; 9; 10; 11; 12; 13; 14; 15; 16]
  = Some (tt, [1; 2; 3; 4; 5; 6; 7; 8; 0; 0; 0; 0; 0; 0; 0; 0]).
Proof.
  apply (clear_screen_clears 8 8
           [1; 2; 3; 4; 5; 6; 7; 8; 9; 10; 11; 12; 13; 14; 15; 16]).
  simpl. lia.
Defined.

(** Shifting a sample bit into a byte, and into a column word. *)
Lemma shift_in_u8 b s n :
  0 <= n < 8 ->
  Z.testbit (u8 (Z.lor (u8 (Z.shiftl b 1)) (Z.land s 1))) n
  = if n =? 0 then Z.testbit s 0 else Z.testbit b (n - 1).
Proof.
  intros Hn.
  rewrite testbit_u8, Z.lor_spec, testbit_u8, Z.shiftl_spec, Z.land_spec by lia.
  destruct (Z.eqb_spec n 0) as [-> | Hne].
  - by rewrite Z.testbit_neg_r, andb_true_r by lia.
  - replace (Z.testbit 1 n) with false
      by (symmetry; apply Z.bits_above_log2; simpl; lia).
    by rewrite andb_false_r, orb_false_r.
Qed.

Lemma shift_in_u16 b s n :
  0 <= n < 16 ->
  Z.testbit (u16 (Z.lor (u16 (Z.shiftl b 2)) (Z.land s 1))) n
  = if n =? 0 then Z.testbit s 0 else Z.testbit b (n - 2).
Proof.
  intros Hn.
  rewrite testbit_u16, Z.lor_spec, testbit_u16, Z.shiftl_spec, Z.land_spec by lia.
  destruct (Z.eqb_spec n 0) as [-> | Hne].
  - by rewrite Z.testbit_neg_r, andb_true_r by lia.
  - replace (Z.testbit 1 n) with false
      by (symmetry; apply Z.bits_above_log2; simpl; lia).
    by rewrite andb_false_r, orb_false_r.
Qed.

(** The index of a bit, once its value is known. *)
Ltac bit_index :=
  repeat match goal with
         | |- context [Z.testbit _ (?a - ?b)] =>
             let v := eval vm_compute in (a - b) in
             progress change (a - b) with v
         end;
  repeat match goal with
         | |- context [?a =? 0] =>
             let v := eval vm_compute in (a =? 0) in
             progress change (a =? 0) with v
         end;
  cbv iota.

(** X4.  [badrand] returns a byte whose bit 7 - k is the low bit of the
    k-th conversion (k = 0 .. 7): the samples are assembled most
    significant bit first, and nothing else of them is used. *)
Theorem badrand_bits (adc : nat -> Z) (j : Z) :
  0 <= j < 8 ->
  Z.testbit (badrand adc) j = Z.testbit (adc (Z.to_nat (7 - j))) 0 /\
  0 <= badrand adc < 256.
Proof.
  intros Hj. split.
  - unfold badrand. cbn [fold_left seq].
    split_range j;
      repeat (rewrite shift_in_u8 by lia; bit_index); reflexivity.
  - unfold badrand. cbn [fold_left seq]. unfold u8 at 1.
    change (2 ^ 8) with 256. apply Z.mod_pos_bound. lia.
Qed.

(** An instance: the samples 1, 0, 1, 1, 0, 0, 0, 1 carry 0xB1. *)
Lemma badrand_bits_witness :
  Z.testbit (badrand (fun k => nth k [513; 2; 1023; 1; 0; 512; 6; 7]%Z 0)) 5
  = Z.testbit (nth (Z.to_nat (7 - 5)) [513; 2; 1023; 1; 0; 512; 6; 7]%Z 0) 0 /\
  0 <= badrand (fun k => nth k [513; 2; 1023; 1; 0; 512; 6; 7]%Z 0) < 256.
Proof.
  apply (badrand_bits (fun k => nth k [513; 2; 1023; 1; 0; 512; 6; 7]%Z 0) 5).
  lia.
Defined.

Lemma cell_by_bits w r :
  0 <= r ->
  cell w r
  = Z.b2z (Z.testbit w (2 * r)) + 2 * Z.b2z (Z.testbit w (2 * r + 1)).
Proof.
  intros Hr. pose proof (cell_range w r) as Hc.
  assert (Z.testbit (cell w r) 0 = Z.testbit w (2 * r)) as H0.
  { unfold cell. rewrite Z.land_spec, Z.shiftr_spec by lia.
    rewrite Z.add_0_l. apply andb_true_r. }
  assert (Z.testbit (cell w r) 1 = Z.testbit w (2 * r + 1)) as H1.
  { unfold cell. rewrite Z.land_spec, Z.shiftr_spec by lia.
    rewrite (Z.add_comm 1). apply andb_true_r. }
  rewrite <- H0, <- H1.
  assert (cell w r = 0 \/ cell w r = 1 \/ cell w r = 2 \/ cell w r = 3)
    as [-> | [-> | [-> | ->]]] by lia; reflexivity.
Qed.

Lemma last_shift b n :
  0 <= n < 16 -> Z.testbit (u16 (Z.shiftl b 1)) n = Z.testbit b (n - 1).
Proof. intros Hn. by rewrite testbit_u16, Z.shiftl_spec by lia. Qed.

Ltac seed_bits :=
  repeat first
    [ progress bit_index
    | match goal with
      | |- context [Z.testbit ?a (Z.neg ?p)] =>
          rewrite (Z.testbit_neg_r a (Z.neg p)) by lia
      end
    | match goal with
      | |- context [Z.testbit
                      (u16 (Z.lor (u16 (Z.shiftl ?b 2)) (Z.land ?s 1))) ?n] =>
          rewrite (shift_in_u16 b s n) by lia
      end ].

(** Every cell of a seeded column is dead or red, as the low bit of its
    conversion says: row [r] of column [i] comes from conversion
    8 i + 7 - r. *)
Lemma random_column_cell adc i r :
  0 <= r < 8 ->
  cell (random_column adc i) r
  = if Z.testbit (adc (8 * i + Z.to_nat (7 - r))%nat) 0 then 2 else 0.
Proof.
  intros Hr. rewrite cell_by_bits by lia.
  unfold random_column. cbn [fold_left seq].
  rewrite !last_shift by lia.
  split_range r; seed_bits; rewrite ?Z.bits_0;
    match goal with
    | |- context [Z.to_nat ?a] =>
        let v := eval vm_compute in (Z.to_nat a) in
        change (Z.to_nat a) with v
    end;
    match goal with
    | |- context [Z.testbit (adc ?k) 0] => destruct (Z.testbit (adc k) 0)
    end; reflexivity.
Qed.

Lemma random_field_post adc p m :
  (p + 8 <= length m)%nat ->
  exists m',
    random_field adc p m = Some (tt, m') /\
    length m' = length m /\
    (forall k, ~ (p <= k < p + 8)%nat -> m' !! k = m !! k) /\
    (forall i, (i < 8)%nat -> Mem.rd m' (p + i) = random_column adc i).
Proof.
  intros Hlen. unfold random_field.
  destruct (for_loop_invariant
              (fun i _ mc =>
                 length mc = length m /\
                 (forall k, ~ (p <= k < p + Z.to_nat i)%nat -> mc !! k = m !! k) /\
                 (forall k, (k < Z.to_nat i)%nat ->
                    Mem.rd mc (p + k) = random_column adc k))
              (fun i _ => Mem.store (p + Z.to_nat i)
                                    (random_column adc (Z.to_nat i)))
              8 ltac:(lia)) with (fuel := 8%nat) (i := 0) (acc := tt) (m := m)
    as ([] & m' & Hrun & Hlen' & Hout & Hin); [| lia | lia | |].
  - intros i acc mc Hi (Hmc & Hout & Hin). exists tt. eexists. split.
    + apply store_run. lia.
    + replace (Z.to_nat (i + 1)) with (S (Z.to_nat i)) by lia.
      split; [by rewrite length_insert |]. split.
      * intros k Hk. rewrite list_lookup_insert_ne by lia. apply Hout. lia.
      * intros k Hk. destruct (decide (k = Z.to_nat i)) as [-> | Hne].
        -- by rewrite rd_insert_eq by lia.
        -- rewrite rd_insert_ne by lia. apply Hin. lia.
  - split; [done |]. split; [done |]. intros k Hk. simpl in Hk. lia.
  - exists m'. split; [done |]. split; [done |]. split; [exact Hout |].
    intros i Hi. apply Hin. simpl. lia.
Qed.

(** X5.  [random_field], on eight words inside the array, writes only
    those words, and every cell it seeds is dead (0) or red (2), never
    green or orange: row [r] of column [i] is red exactly when the
    conversion 8 i + 7 - r reads odd. *)
Theorem random_field_seeds_red (adc : nat -> Z) (p : nat) (m : list Z) :
  (p + 8 <= length m)%nat ->
  exists m',
    random_field adc p m = Some (tt, m') /\
    length m' = length m /\
    (forall k, ~ (p <= k < p + 8)%nat -> m' !! k = m !! k) /\
    forall i r, 0 <= i < 8 -> 0 <= r < 8 ->
      cell (column m' p i) r
      = if Z.testbit (adc (8 * Z.to_nat i + Z.to_nat (7 - r))%nat) 0
        then 2 else 0.
Proof.
  intros Hlen.
  destruct (random_field_post adc p m Hlen) as (m' & Hrun & Hlen' & Hout & Hin).
  exists m'. split; [done |]. split; [done |]. split; [done |].
  intros i r Hi Hr. unfold column. rewrite Z.mod_small by lia.
  rewrite Hin by lia. by apply random_column_cell.
Qed.

(** An instance: the glider, drawn on the back buffer. *)
Lemma random_field_seeds_red_witness :
  exists m',
    random_field glider_adc 8 (replicate 16 7) = Some (tt, m') /\
    length m' = length (replicate 16 7) /\
    (forall k, ~ (8 <= k < 8 + 8)%nat -> m' !! k = replicate 16 7 !! k) /\
    forall i r, 0 <= i < 8 -> 0 <= r < 8 ->
      cell (column m' 8 i) r
      = if Z.testbit (glider_adc (8 * Z.to_nat i + Z.to_nat (7 - r))%nat) 0
        then 2 else 0.
Proof.
  apply (random_field_seeds_red glider_adc 8 (replicate 16 7)).
  simpl. lia.
Defined.

(** ** The buttons: what every poll keeps *)

Lemma GetButtons_keeps PINC st :
  0 <= Buttons.repeat st <= REPEAT_THRESHOLD ->
  button_event (fst (GetButtons PINC st)) /\
  Buttons.prevState (snd (GetButtons PINC st)) = pattern PINC /\
  0 <= Buttons.repeat (snd (GetButtons PINC st)) <= REPEAT_THRESHOLD.
Proof.
  unfold REPEAT_THRESHOLD. intros Hr.
  pose proof (pattern_range PINC) as Hp.
  unfold GetButtons, button_event. fold (pattern PINC). unfold REPEAT_THRESHOLD.
  destruct (Z.leb_spec 20 (Buttons.repeat st)) as [Hheld | Hfree].
  - cbn [fst snd Buttons.prevState Buttons.repeat].
    destruct (pattern PINC =? 3); repeat split; (lia || tauto).
  - destruct (Z.eqb_spec (pattern PINC) (Buttons.prevState st)) as [Heq | Hne];
      cbn [negb].
    + destruct (Z.eqb_spec (pattern PINC) 3) as [H3 | H3]; cbn [negb].
      * cbn [fst snd]. repeat split; (lia || tauto || congruence).
      * assert (u8 (Buttons.repeat st + 1) = Buttons.repeat st + 1) as ->
          by (unfold u8; apply Z.mod_small; lia).
        destruct (Z.eqb_spec (Buttons.repeat st + 1) 20);
          cbn [fst snd Buttons.prevState Buttons.repeat];
          (split; [| split; [congruence | lia]]); [| tauto].
        right. right.
        split_pattern (pattern PINC);
          match goal with H : pattern PINC = _ |- _ => rewrite H end;
          try lia; vm_compute; split; discriminate.
    + cbn [fst snd Buttons.prevState Buttons.repeat].
      split; [| split; [reflexivity | lia]].
      assert (0 <= u8 (Z.land (Z.lnot (Buttons.prevState st)) (pattern PINC)) < 4)
        as Hsmall.
      { pose proof (cell_range
                      (Z.land (Z.lnot (Buttons.prevState st)) (pattern PINC)) 0)
          as Hc.
        assert (cell (Z.land (Z.lnot (Buttons.prevState st)) (pattern PINC)) 0
                = Z.land (Z.lnot (Buttons.prevState st)) (pattern PINC)) as Hid.
        { unfold cell. rewrite Z.shiftr_0_r, <- Z.land_assoc. f_equal.
          split_pattern (pattern PINC);
            match goal with H : pattern PINC = _ |- _ => rewrite H end;
            reflexivity. }
        rewrite Hid in Hc. unfold u8. rewrite Z.mod_small; lia. }
      lia.
Qed.

(** X6.  Over any sequence of polls, from statics whose counter is within
    0 .. REPEAT_THRESHOLD (as at power-up): every byte returned is 0, a
    press (1 .. 3) or a hold (253 .. 255); the counter stays within
    0 .. REPEAT_THRESHOLD, so it cannot wrap around; and after each poll
    the stored pattern is the one that poll read. *)
Theorem polls_keep (pins : list Z) (st : Buttons.state) :
  0 <= Buttons.repeat st <= REPEAT_THRESHOLD ->
  Forall button_event (fst (polls pins st)) /\
  0 <= Buttons.repeat (snd (polls pins st)) <= REPEAT_THRESHOLD /\
  (pins <> [] ->
   Buttons.prevState (snd (polls pins st)) = pattern (List.last pins 0)).
Proof.
  revert st. induction pins as [| p pins IH]; intros st Hr.
  - cbn. split; [constructor | split; [done | congruence]].
  - rewrite polls_cons. cbn [fst snd].
    destruct (GetButtons_keeps p st Hr) as (He & Hprev & Hr1).
    destruct (IH (snd (GetButtons p st)) Hr1) as (Hes & Hr2 & Hlast).
    split; [by constructor |]. split; [done |]. intros _.
    destruct pins as [| q pins']; [exact Hprev |].
    change (List.last (p :: q :: pins') 0) with (List.last (q :: pins') 0).
    by apply Hlast.
Qed.

(** An instance: a hold of the left button from power-up. *)
Lemma polls_keep_witness :
  Forall button_event (fst (polls (replicate 25 32) Buttons.init)) /\
  0 <= Buttons.repeat (snd (polls (replicate 25 32) Buttons.init))
  <= REPEAT_THRESHOLD /\
  (replicate 25 32 <> [] ->
   Buttons.prevState (snd (polls (replicate 25 32) Buttons.init))
   = pattern (List.last (replicate 25 32) 0)).
Proof.
  apply (polls_keep (replicate 25 32) Buttons.init). by vm_compute.
Defined.

Lemma split_last (l : list Z) :
  l <> [] -> exists front x, l = front ++ [x] /\ length l = S (length front).
Proof.
  intros Hl. destruct (exists_last Hl) as (front & x & ->).
  exists front, x. split; [done |]. rewrite length_app. simpl. lia.
Qed.

(** A run of polls with a button down only makes the current run longer. *)
Lemma down_runs_all (t rest : list Z) : forall run,
  Forall (fun p => pattern p <> 3) t ->
  down_runs run (t ++ rest) = down_runs (run + length t) rest.
Proof.
  induction t as [| p t IH]; intros run Ht.
  - simpl. by rewrite Nat.add_0_r.
  - apply Forall_cons in Ht as [Hp Ht]. cbn [app down_runs length].
    apply Z.eqb_neq in Hp. rewrite Hp, IH by exact Ht. f_equal. lia.
Qed.

(** Two taps: the longest run is the longer tap. *)
Lemma longest_down_taps (v1 v2 : Z) (t1 t2 : list Z) (up : Z) :
  v1 <> 3 -> v2 <> 3 ->
  Forall (fun p => pattern p = v1) t1 -> Forall (fun p => pattern p = v2) t2 ->
  pattern up = 3 ->
  longest_down (t1 ++ [up] ++ t2) = Nat.max (length t1) (length t2).
Proof.
  intros Hv1 Hv2 Ht1 Ht2 Hup. unfold longest_down.
  rewrite down_runs_all
    by (eapply Forall_impl; [exact Ht1 | intros p Hp; simpl in Hp; congruence]).
  cbn [app down_runs]. rewrite Hup. change (3 =? 3) with true. cbv iota.
  assert (down_runs 0 t2 = length t2) as Hrun.
  { pose proof (down_runs_all t2 [] 0%nat) as Hall.
    rewrite app_nil_r in Hall. apply Hall.
    eapply Forall_impl; [exact Ht2 | intros p Hp; simpl in Hp; congruence]. }
  rewrite Hrun. reflexivity.
Qed.

(** X7.  The counter of repeated polls is not reset when the pattern
    changes, so it runs on from one tap to the next: from idle, a tap of n1
    polls, its release, and a second tap of n2 polls, both shorter than
    REPEAT_THRESHOLD and with n1 + n2 = 22, return the press of the first
    tap on its release and a hold on the last poll of the second tap,
    although the longest run of polls with a button down in the whole
    sequence is shorter than REPEAT_THRESHOLD. *)
Theorem taps_add_up (v1 v2 : Z) (t1 t2 : list Z) (up : Z) :
  v1 <> 3 -> v2 <> 3 ->
  Forall (fun p => pattern p = v1) t1 -> Forall (fun p => pattern p = v2) t2 ->
  Z.of_nat (length t1) < REPEAT_THRESHOLD ->
  Z.of_nat (length t2) < REPEAT_THRESHOLD ->
  (length t1 + length t2 = 22)%nat ->
  pattern up = 3 ->
  polls (t1 ++ [up] ++ t2) idle
  = (replicate (length t1) 0 ++ [Z.land (Z.lnot v1) 3]
       ++ replicate (length t2 - 1) 0
       ++ [u8 (Z.lor BUTTON_HOLD (Z.lnot (Z.land v2 3)))],
     {| Buttons.prevState := v2; Buttons.repeat := REPEAT_THRESHOLD |}) /\
  Z.of_nat (longest_down (t1 ++ [up] ++ t2)) < REPEAT_THRESHOLD.
Proof.
  intros Hv1 Hv2 Ht1 Ht2 Hshort1 Hshort2 Hn Hup.
  split.
  2: { rewrite (longest_down_taps v1 v2) by done. lia. }
  assert (1 <= length t1 <= 20)%nat as Hn1
    by (unfold REPEAT_THRESHOLD in *; lia).
  clear Hshort1 Hshort2.
  destruct t1 as [| p ds]; [simpl in Hn1; lia |].
  destruct t2 as [| q rest]; [simpl in Hn1, Hn; lia |].
  simpl length in *.
  destruct (split_last rest) as (front & l & -> & Hrest);
    [intros ->; simpl in Hn1, Hn; lia |].
  apply Forall_cons in Ht1 as [Hp Hds].
  apply Forall_cons in Ht2 as [Hq Hrest2].
  apply Forall_app in Hrest2 as [Hfront Hl].
  apply Forall_cons in Hl as [Hl _].
  pose proof (pattern_range p) as Hr1. rewrite Hp in Hr1.
  pose proof (pattern_range q) as Hr2. rewrite Hq in Hr2.
  destruct (tap_bits v1 Hr1 Hv1) as (Hdown1 & Hrel1 & _).
  destruct (tap_bits v2 Hr2 Hv2) as (Hdown2 & _).
  unfold REPEAT_THRESHOLD in *.
  cbn [app]. rewrite polls_cons.
  rewrite (GetButtons_change p idle)
    by (simpl; unfold REPEAT_THRESHOLD; (lia || congruence)).
  cbn [fst snd]. rewrite polls_app.
  rewrite (polls_same ds)
    by (simpl; rewrite ?Hp; unfold REPEAT_THRESHOLD; (done || lia)).
  cbn [fst snd Buttons.prevState Buttons.repeat idle].
  rewrite polls_cons.
  rewrite (GetButtons_change up)
    by (simpl; rewrite ?Hp, ?Hup; unfold REPEAT_THRESHOLD; (lia || congruence)).
  cbn [fst snd Buttons.prevState Buttons.repeat]. rewrite polls_cons.
  rewrite (GetButtons_change q)
    by (simpl; rewrite ?Hq, ?Hup; unfold REPEAT_THRESHOLD; (lia || congruence)).
  cbn [fst snd Buttons.prevState Buttons.repeat]. rewrite polls_app.
  rewrite (polls_same front)
    by (simpl; rewrite ?Hq; unfold REPEAT_THRESHOLD; (done || lia)).
  cbn [fst snd Buttons.prevState Buttons.repeat polls].
  rewrite GetButtons_hold
    by (simpl; rewrite ?Hq, ?Hl; unfold REPEAT_THRESHOLD; (done || lia)).
  rewrite Hp, Hq, Hup, Hl, Hdown1, Hrel1, Hdown2.
  cbn [fst snd Buttons.prevState]. f_equal.
  replace (S (length (front ++ [l])) - 1)%nat with (S (length front))
    by (rewrite length_app; simpl; lia).
  reflexivity.
Qed.

(** An instance: two taps of eleven polls, left then right. *)
Lemma taps_add_up_witness :
  polls (replicate 11 32 ++ [48] ++ replicate 11 16) idle
  = (replicate (length (replicate 11 32)) 0 ++ [Z.land (Z.lnot 2) 3]
       ++ replicate (length (replicate 11 16) - 1) 0
       ++ [u8 (Z.lor BUTTON_HOLD (Z.lnot (Z.land 1 3)))],
     {| Buttons.prevState := 1; Buttons.repeat := REPEAT_THRESHOLD |}) /\
  Z.of_nat (longest_down (replicate 11 32 ++ [48] ++ replicate 11 16))
  < REPEAT_THRESHOLD.
Proof.
  apply (taps_add_up 2 1 (replicate 11 32) (replicate 11 16) 48);
    try lia; try reflexivity; try (simpl; lia);
    simpl; repeat constructor.
Defined.

(** ** The automaton: what a generation depends on, and what two do *)

(** All of one call of [life]: result, frame, cells, width of the words. *)
Lemma life_step m src dst :
  (src + 8 <= length m)%nat -> (dst + 8 <= length m)%nat ->
  (src + 8 <= dst)%nat \/ (dst + 8 <= src)%nat ->
  exists m',
    life src dst m
    = Some (classify (generation m src) (generation m' dst), m') /\
    length m' = length m /\
    (forall k, ~ (dst <= k < dst + 8)%nat -> m' !! k = m !! k) /\
    (forall i r, 0 <= i < 8 -> 0 <= r < 8 ->
       cell (column m' dst i) r
       = rule (cell (column m src i) r) (live_neighbors m src i r)) /\
    (forall i, 0 <= column m' dst i < 2 ^ 16).
Proof.
  intros Hsrc Hdst Hdis.
  destruct (life_post m src dst Hsrc Hdst Hdis)
    as (m' & Hrun & Hlen & Hout & Hnew).
  exists m'. rewrite life_result_classify in Hrun by reflexivity.
  split; [exact Hrun |]. split; [exact Hlen |]. split; [exact Hout |]. split.
  - intros i r Hi Hr.
    unfold live_neighbors, live, column.
    rewrite !(Z.mod_small i), !(Z.mod_small r) by lia.
    rewrite Hnew by lia. unfold new_column.
    rewrite cell_next_column by lia. unfold next_cell.
    rewrite nextstate_rule, neighbors_cells by lia.
    assert (Z.to_nat (u8 (Z.land (i - 1) 7)) = Z.to_nat ((i - 1) mod 8)) as ->
      by (split_range i; reflexivity).
    assert (Z.to_nat (u8 (Z.land (i + 1) 7)) = Z.to_nat ((i + 1) mod 8)) as ->
      by (split_range i; reflexivity).
    fold (cell (Mem.rd m (src + Z.to_nat i)) r).
    unfold u8. rewrite (Z.mod_small (cell _ _))
      by (pose proof (cell_range (Mem.rd m (src + Z.to_nat i)) r); lia).
    reflexivity.
  - intros i. unfold column.
    assert (0 <= i mod 8 < 8) as Hi by (apply Z.mod_pos_bound; lia).
    rewrite Hnew by lia. apply next_column_range.
Qed.

Lemma column_generation m1 p1 m2 p2 :
  generation m1 p1 = generation m2 p2 ->
  forall x, column m1 p1 x = column m2 p2 x.
Proof.
  unfold generation. cbn [seq map]. intros H x.
  injection H as H0 H1 H2 H3 H4 H5 H6 H7. unfold column.
  assert (0 <= x mod 8 < 8) as Hx by (apply Z.mod_pos_bound; lia).
  remember (x mod 8) as y eqn:Hy. clear Hy.
  split_range y;
    [exact H0 | exact H1 | exact H2 | exact H3 | exact H4 | exact H5
     | exact H6 | exact H7].
Qed.

Lemma generation_columns m1 p1 m2 p2 :
  (forall x, 0 <= x < 8 -> column m1 p1 x = column m2 p2 x) ->
  generation m1 p1 = generation m2 p2.
Proof.
  intros H. unfold generation. cbn [seq map].
  pose proof (H 0 ltac:(lia)) as H0. pose proof (H 1 ltac:(lia)) as H1.
  pose proof (H 2 ltac:(lia)) as H2. pose proof (H 3 ltac:(lia)) as H3.
  pose proof (H 4 ltac:(lia)) as H4. pose proof (H 5 ltac:(lia)) as H5.
  pose proof (H 6 ltac:(lia)) as H6. pose proof (H 7 ltac:(lia)) as H7.
  change (Mem.rd m1 (p1 + 0) = Mem.rd m2 (p2 + 0)) in H0.
  change (Mem.rd m1 (p1 + 1) = Mem.rd m2 (p2 + 1)) in H1.
  change (Mem.rd m1 (p1 + 2) = Mem.rd m2 (p2 + 2)) in H2.
  change (Mem.rd m1 (p1 + 3) = Mem.rd m2 (p2 + 3)) in H3.
  change (Mem.rd m1 (p1 + 4) = Mem.rd m2 (p2 + 4)) in H4.
  change (Mem.rd m1 (p1 + 5) = Mem.rd m2 (p2 + 5)) in H5.
  change (Mem.rd m1 (p1 + 6) = Mem.rd m2 (p2 + 6)) in H6.
  change (Mem.rd m1 (p1 + 7) = Mem.rd m2 (p2 + 7)) in H7.
  by rewrite H0, H1, H2, H3, H4, H5, H6, H7.
Qed.

Lemma live_neighbors_ext m1 p1 m2 p2 i r :
  (forall x, column m1 p1 x = column m2 p2 x) ->
  live_neighbors m1 p1 i r = live_neighbors m2 p2 i r.
Proof.
  intros H. unfold live_neighbors, live.
  by rewrite (H (i - 1)), (H i), (H (i + 1)).
Qed.

(** X8.  The generation [life] writes, and what it returns, depend on the
    source generation alone: not on what the destination held before, nor
    on where the two generations lie in memory. *)
Theorem life_reads_only_source
        (m1 : list Z) (src1 dst1 : nat) (m2 : list Z) (src2 dst2 : nat) :
  (src1 + 8 <= length m1)%nat -> (dst1 + 8 <= length m1)%nat ->
  (src1 + 8 <= dst1)%nat \/ (dst1 + 8 <= src1)%nat ->
  (src2 + 8 <= length m2)%nat -> (dst2 + 8 <= length m2)%nat ->
  (src2 + 8 <= dst2)%nat \/ (dst2 + 8 <= src2)%nat ->
  generation m1 src1 = generation m2 src2 ->
  exists st m1' m2',
    life src1 dst1 m1 = Some (st, m1') /\
    life src2 dst2 m2 = Some (st, m2') /\
    generation m1' dst1 = generation m2' dst2.
Proof.
  intros Hs1 Hd1 Hdis1 Hs2 Hd2 Hdis2 Hsame.
  destruct (life_step m1 src1 dst1 Hs1 Hd1 Hdis1)
    as (m1' & Hrun1 & _ & _ & Hcells1 & Hwide1).
  destruct (life_step m2 src2 dst2 Hs2 Hd2 Hdis2)
    as (m2' & Hrun2 & _ & _ & Hcells2 & Hwide2).
  pose proof (column_generation _ _ _ _ Hsame) as Hcol.
  assert (generation m1' dst1 = generation m2' dst2) as Hnew.
  { apply generation_columns. intros x Hx.
    apply word_by_cells; [apply Hwide1 | apply Hwide2 |].
    intros r Hr. rewrite Hcells1, Hcells2 by lia.
    by rewrite (live_neighbors_ext m1 src1 m2 src2), Hcol. }
  eexists _, m1', m2'. split; [exact Hrun1 |]. split; [| exact Hnew].
  by rewrite Hrun2, Hsame, Hnew.
Qed.

(** An instance: the same board in the two halves, over different
    leftovers. *)
Lemma life_reads_only_source_witness :
  exists st m1' m2',
    life 0 8 [10; 10; 0; 0; 512; 0; 0; 0; 7; 7; 7; 7; 7; 7; 7; 7]
    = Some (st, m1') /\
    life 8 0 [65535; 1; 2; 3; 4; 5; 6; 7; 10; 10; 0; 0; 512; 0; 0; 0]
    = Some (st, m2') /\
    generation m1' 8 = generation m2' 0.
Proof.
  apply (life_reads_only_source
           [10; 10; 0; 0; 512; 0; 0; 0; 7; 7; 7; 7; 7; 7; 7; 7] 0 8
           [65535; 1; 2; 3; 4; 5; 6; 7; 10; 10; 0; 0; 512; 0; 0; 0] 8 0);
    try (simpl; lia). reflexivity.
Defined.

Lemma rule_cases c n :
  0 <= c < 4 ->
  (c = 0 -> rule c n = 0 \/ rule c n = 1) /\
  (c = 1 -> rule c n = 0 \/ rule c n = 3) /\
  (2 <= c -> rule c n = 0 \/ rule c n = 2).
Proof.
  intros Hc. unfold rule.
  destruct (Z.eqb_spec c 0), (Z.eqb_spec c 1), ((n =? 2) || (n =? 3)),
    (n =? 3); lia.
Qed.

(** X9.  Two generations in a row, the second computed back into the
    first buffer as [do_life] does: a cell alive in all three boards is
    red in the last; a cell orange in the last was green in the middle
    one and dead in the first; a cell green in the last was dead in the
    middle one.  So green marks the cells born in this generation and
    orange those born in the one before. *)
Theorem colours_tell_age (m : list Z) (src dst : nat) :
  (src + 8 <= length m)%nat -> (dst + 8 <= length m)%nat ->
  (src + 8 <= dst)%nat \/ (dst + 8 <= src)%nat ->
  exists st1 m1 st2 m2,
    life src dst m = Some (st1, m1) /\
    life dst src m1 = Some (st2, m2) /\
    forall i r, 0 <= i < 8 -> 0 <= r < 8 ->
      let c0 := cell (column m src i) r in
      let c1 := cell (column m1 dst i) r in
      let c2 := cell (column m2 src i) r in
      (c0 <> 0 -> c1 <> 0 -> c2 <> 0 -> c2 = 2) /\
      (c2 = 3 -> c1 = 1 /\ c0 = 0) /\
      (c2 = 1 -> c1 = 0).
Proof.
  intros Hsrc Hdst Hdis.
  destruct (life_step m src dst Hsrc Hdst Hdis)
    as (m1 & Hrun1 & Hlen1 & _ & Hcells1 & _).
  destruct (life_step m1 dst src) as (m2 & Hrun2 & _ & _ & Hcells2 & _);
    [lia | lia | tauto |].
  eexists _, m1, _, m2. split; [exact Hrun1 |]. split; [exact Hrun2 |].
  intros i r Hi Hr c0 c1 c2. subst c0 c1 c2.
  rewrite Hcells2, Hcells1 by lia.
  pose proof (cell_range (column m src i) r) as Hc0.
  destruct (rule_cases (cell (column m src i) r) (live_neighbors m src i r) Hc0)
    as (Ha & Hb & Hc).
  set (c1 := rule (cell (column m src i) r) (live_neighbors m src i r)) in *.
  assert (0 <= c1 < 4) as Hc1
    by (subst c1; rewrite <- nextstate_rule; apply nextstate_range).
  destruct (rule_cases c1 (live_neighbors m1 dst i r) Hc1) as (Ha' & Hb' & Hc').
  repeat split; lia.
Qed.

(** An instance: a blinker next to a block. *)
Lemma colours_tell_age_witness :
  exists st1 m1 st2 m2,
    life 0 8 [10; 10; 0; 0; 0; 168; 0; 0; 0; 0; 0; 0; 0; 0; 0; 0]
    = Some (st1, m1) /\
    life 8 0 m1 = Some (st2, m2) /\
    forall i r, 0 <= i < 8 -> 0 <= r < 8 ->
      let c0 :=
        cell (column [10; 10; 0; 0; 0; 168; 0; 0; 0; 0; 0; 0; 0; 0; 0; 0] 0 i) r in
      let c1 := cell (column m1 8 i) r in
      let c2 := cell (column m2 0 i) r in
      (c0 <> 0 -> c1 <> 0 -> c2 <> 0 -> c2 = 2) /\
      (c2 = 3 -> c1 = 1 /\ c0 = 0) /\
      (c2 = 1 -> c1 = 0).
Proof.
  apply (colours_tell_age
           [10; 10; 0; 0; 0; 168; 0; 0; 0; 0; 0; 0; 0; 0; 0; 0] 0 8);
    simpl; lia.
Defined.

(** ** The torus *)

Lemma column_mod m p x : column m p (x mod 8) = column m p x.
Proof. unfold column. by rewrite Z.mod_mod by lia. Qed.

Lemma at_cell_congr m p x x' y y' :
  x mod 8 = x' mod 8 -> y mod 8 = y' mod 8 ->
  at_cell m p x y = at_cell m p x' y'.
Proof. intros Hx Hy. unfold at_cell, column. by rewrite Hx, Hy. Qed.

Lemma live_congr m p x x' y y' :
  x mod 8 = x' mod 8 -> y mod 8 = y' mod 8 -> live m p x y = live m p x' y'.
Proof.
  intros Hx Hy. unfold live. fold (at_cell m p x y) (at_cell m p x' y').
  by rewrite (at_cell_congr m p x x' y y').
Qed.

Ltac mod8 := Z.div_mod_to_equations; lia.

(** X10.  [life] commutes with the translations of the torus: if one
    board is another moved by [a] columns and [b] rows, with wrap-around
    in both directions, then so are their next generations.  No column
    and no row is an edge. *)
Theorem life_commutes_with_shifts
        (a b : Z)
        (m1 : list Z) (src1 dst1 : nat) (m2 : list Z) (src2 dst2 : nat) :
  (src1 + 8 <= length m1)%nat -> (dst1 + 8 <= length m1)%nat ->
  (src1 + 8 <= dst1)%nat \/ (dst1 + 8 <= src1)%nat ->
  (src2 + 8 <= length m2)%nat -> (dst2 + 8 <= length m2)%nat ->
  (src2 + 8 <= dst2)%nat \/ (dst2 + 8 <= src2)%nat ->
  (forall i r, at_cell m2 src2 i r = at_cell m1 src1 (i + a) (r + b)) ->
  exists st1 m1' st2 m2',
    life src1 dst1 m1 = Some (st1, m1') /\
    life src2 dst2 m2 = Some (st2, m2') /\
    forall i r, at_cell m2' dst2 i r = at_cell m1' dst1 (i + a) (r + b).
Proof.
  intros Hs1 Hd1 Hdis1 Hs2 Hd2 Hdis2 Hmoved.
  destruct (life_step m1 src1 dst1 Hs1 Hd1 Hdis1)
    as (m1' & Hrun1 & _ & _ & Hcells1 & _).
  destruct (life_step m2 src2 dst2 Hs2 Hd2 Hdis2)
    as (m2' & Hrun2 & _ & _ & Hcells2 & _).
  eexists _, m1', _, m2'. split; [exact Hrun1 |]. split; [exact Hrun2 |].
  intros i r.
  assert (forall x y, live m2 src2 x y = live m1 src1 (x + a) (y + b)) as Hlive.
  { intros x y. unfold live.
    fold (at_cell m2 src2 x y) (at_cell m1 src1 (x + a) (y + b)).
    by rewrite Hmoved. }
  assert (0 <= i mod 8 < 8) as Hi by (apply Z.mod_pos_bound; lia).
  assert (0 <= r mod 8 < 8) as Hr by (apply Z.mod_pos_bound; lia).
  assert (0 <= (i + a) mod 8 < 8) as Hi' by (apply Z.mod_pos_bound; lia).
  assert (0 <= (r + b) mod 8 < 8) as Hr' by (apply Z.mod_pos_bound; lia).
  unfold at_cell at 1 2.
  rewrite <- (column_mod m2' dst2 i), <- (column_mod m1' dst1 (i + a)).
  rewrite Hcells2, Hcells1 by lia.
  f_equal.
  - rewrite !column_mod.
    fold (at_cell m2 src2 i r) (at_cell m1 src1 (i + a) (r + b)).
    apply Hmoved.
  - unfold live_neighbors. rewrite !Hlive.
    repeat apply (f_equal2 Z.add); apply live_congr; mod8.
Qed.

(** An instance: a glider, and the same glider moved by three columns and
    two rows, across the seam. *)
Lemma life_commutes_with_shifts_witness :
  exists st1 m1' st2 m2',
    life 0 8 [8; 32; 42; 0; 0; 0; 0; 0; 0; 0; 0; 0; 0; 0; 0; 0]
    = Some (st1, m1') /\
    life 0 8 [0; 0; 0; 0; 0; 32768; 2; 40962; 0; 0; 0; 0; 0; 0; 0; 0]
    = Some (st2, m2') /\
    forall i r, at_cell m2' 8 i r = at_cell m1' 8 (i + 3) (r + 2).
Proof.
  apply (life_commutes_with_shifts 3 2
           [8; 32; 42; 0; 0; 0; 0; 0; 0; 0; 0; 0; 0; 0; 0; 0] 0 8
           [0; 0; 0; 0; 0; 32768; 2; 40962; 0; 0; 0; 0; 0; 0; 0; 0] 0 8);
    try (simpl; lia).
  intros i r. unfold at_cell, column.
  assert (0 <= i mod 8 < 8) as Hi by (apply Z.mod_pos_bound; lia).
  assert (0 <= r mod 8 < 8) as Hr by (apply Z.mod_pos_bound; lia).
  assert ((i + 3) mod 8 = (i mod 8 + 3) mod 8) as ->
    by (by rewrite Zplus_mod_idemp_l).
  assert ((r + 2) mod 8 = (r mod 8 + 2) mod 8) as ->
    by (by rewrite Zplus_mod_idemp_l).
  remember (i mod 8) as x eqn:Hx. remember (r mod 8) as y eqn:Hy.
  clear Hx Hy.
  split_range x; split_range y; reflexivity.
Defined.

(** ** The quote picker, anywhere in a cycle *)

Lemma filter_split {A} (f : A -> bool) (l : list A) :
  (length (List.filter f l) + length (List.filter (fun x => negb (f x)) l)
   = length l)%nat.
Proof.
  induction l as [| x l IH]; [reflexivity |].
  cbn [List.filter]. destruct (f x); simpl; lia.
Qed.

Lemma NoDup_app_apart {A} (l1 l2 : list A) (a : A) :
  List.NoDup (l1 ++ l2) -> In a l1 -> ~ In a l2.
Proof.
  induction l1 as [| x l1 IH]; simpl; [by intros _ [] |].
  intros Hnd [-> | Hin] Hin2; inversion Hnd as [| ? ? Hx Hrest]; subst.
  - apply Hx, in_or_app. by right.
  - by apply IH.
Qed.

Lemma unused_In m i : In i (unused m) <-> 0 <= i < 64 /\ Z.testbit m i = true.
Proof. unfold unused. by rewrite filter_In, quote_indices_In. Qed.

Lemma taken_In m i : In i (taken m) <-> 0 <= i < 64 /\ Z.testbit m i = false.
Proof. unfold taken. by rewrite filter_In, quote_indices_In, negb_true_iff. Qed.

Lemma unused_taken m : (length (unused m) + length (taken m) = 64)%nat.
Proof.
  unfold unused, taken. rewrite filter_split.
  unfold quote_indices. by rewrite length_map, length_seq.
Qed.

(** A mask marks the indices whose bit it has clear. *)
Lemma marks_complement m : 0 <= m < 2 ^ 64 -> marks m (taken m).
Proof.
  intros Hm. split; [exact Hm |]. split.
  { apply List.NoDup_filter, quote_indices_NoDup. }
  split.
  { intros i Hi. by apply taken_In in Hi as [Hi _]. }
  intros i Hi. rewrite taken_In. split.
  - intros Hbit [_ Hno]. congruence.
  - intros Hno. destruct (Z.testbit m i) eqn:Hbit; [reflexivity |].
    exfalso. apply Hno. by split.
Qed.

(** X11.  From any mask, while calls are not more than the indices still
    unused (those of the refilled mask, if it was exhausted): the calls
    return, no index is chosen twice, every index chosen was unused, and
    the indices unused afterwards are the ones unused before less the ones
    chosen.  No quote is repeated before all have been shown. *)
Theorem picks_never_repeat (maskus : Z) (rnd : list (Z * Z)) :
  0 <= maskus < 2 ^ 64 ->
  (length rnd <= length (unused (refill maskus)))%nat ->
  exists rs maskus',
    hello_worlds rnd maskus = Some (rs, maskus') /\
    List.NoDup rs /\
    (forall r, In r rs -> In r (unused (refill maskus))) /\
    (rnd <> [] ->
     forall i, In i (unused maskus')
               <-> In i (unused (refill maskus)) /\ ~ In i rs).
Proof.
  intros Hm Hlen.
  pose proof (refill_range maskus Hm) as Hfull.
  assert (0 <= refill maskus < 2 ^ 64) as Hfull' by lia.
  pose proof (marks_complement (refill maskus) Hfull') as Hmarks.
  pose proof (taken_In (refill maskus)) as Hused.
  pose proof (unused_taken (refill maskus)) as Hsplit.
  generalize dependent (taken (refill maskus)). intros used Hmarks Hused Hsplit.
  assert (length used + length rnd <= 64)%nat as Hroom by lia.
  destruct (picks_marks rnd maskus used Hm Hmarks Hroom)
    as (rs & m' & Hrun & Hl & Hm' & Hafter).
  exists rs, m'. split; [exact Hrun |].
  destruct rnd as [| x rnd'].
  { destruct rs as [| r0 rs0]; [| simpl in Hl; lia].
    split; [constructor |]. split; [by intros r [] | congruence]. }
  destruct Hafter as (_ & Hnd & Hin & Hbits); [discriminate |].
  pose proof (fun a => NoDup_app_apart (rev rs) used a Hnd) as Hfresh.
  apply NoDup_app_remove_r in Hnd.
  split.
  { apply NoDup_rev in Hnd. by rewrite rev_involutive in Hnd. }
  assert (forall r, In r rs ->
            0 <= r < 64 /\ Z.testbit (refill maskus) r = true) as Hwas.
  { intros r Hr. apply in_rev in Hr.
    assert (0 <= r < 64) as Hrange by (apply Hin, in_or_app; by left).
    split; [exact Hrange |].
    destruct (Z.testbit (refill maskus) r) eqn:Hbit; [reflexivity |].
    exfalso. apply (Hfresh r); [exact Hr |]. apply Hused. by split. }
  split.
  { intros r Hr. apply unused_In. by apply Hwas. }
  intros _ i. rewrite !unused_In. split.
  - intros [Hi Hbit]. apply Hbits in Hbit; [| exact Hi].
    split; [split; [exact Hi |] |].
    + destruct (Z.testbit (refill maskus) i) eqn:Hb; [reflexivity |].
      exfalso. apply Hbit, in_or_app. right. apply Hused. by split.
    + intros Hr. apply Hbit, in_or_app. left. by apply in_rev in Hr.
  - intros [[Hi Hbit] Hno]. split; [exact Hi |]. apply Hbits; [exact Hi |].
    intros Hin'. apply in_app_or in Hin' as [Hr | Hu].
    + apply Hno. by apply in_rev.
    + apply Hused in Hu as [_ Hu]. congruence.
Qed.

(** An instance: five calls in the middle of a cycle, the draws all 3. *)
Lemma picks_never_repeat_witness :
  exists rs maskus',
    hello_worlds (replicate 5 (3, 0)) 1000 = Some (rs, maskus') /\
    List.NoDup rs /\
    (forall r, In r rs -> In r (unused (refill 1000))) /\
    (replicate 5 (3, 0) <> [] ->
     forall i, In i (unused maskus')
               <-> In i (unused (refill 1000)) /\ ~ In i rs).
Proof.
  apply (picks_never_repeat 1000 (replicate 5 (3, 0))).
  - lia.
  - vm_compute. lia.
Defined.

(** X12.  Whatever the two random bytes and the mask: the call returns,
    the index it chooses is within the 64 entries of [string_table], the
    colour is 1, 2 or 3 (never 0), the bit of the index is clear in the
    mask afterwards, and the mask fits 64 bits. *)
Theorem hello_world_in_range (b1 b2 maskus : Z) :
  0 <= maskus < 2 ^ 64 ->
  exists r c maskus',
    hello_world b1 b2 maskus = Some (r, c, maskus') /\
    0 <= r < 64 /\ 1 <= c <= 3 /\
    Z.testbit maskus' r = false /\ 0 <= maskus' < 2 ^ 64.
Proof.
  intros Hm.
  destruct (hello_world_pick b1 b2 maskus Hm) as (r & k & Hrun & Hk & Hr & _).
  assert (0 <= r < 64) as Hrange by (subst r; apply Z.mod_pos_bound; lia).
  exists r, (u8 (b2 mod 3 + 1)), (clear_bit (refill maskus) r).
  split; [exact Hrun |]. split; [exact Hrange |]. split.
  { assert (0 <= b2 mod 3 < 3) by (apply Z.mod_pos_bound; lia).
    unfold u8. rewrite Z.mod_small; lia. }
  split.
  { rewrite testbit_clear_bit, Z.eqb_refl by lia. apply andb_false_r. }
  apply u64_range.
Qed.

(** An instance: the first call after power-up. *)
Lemma hello_world_in_range_witness :
  exists r c maskus',
    hello_world 200 77 0 = Some (r, c, maskus') /\
    0 <= r < 64 /\ 1 <= c <= 3 /\
    Z.testbit maskus' r = false /\ 0 <= maskus' < 2 ^ 64.
Proof. apply (hello_world_in_range 200 77 0). lia. Defined.

(** ** The session: what every pass keeps *)

Lemma fade_out_from_ok level s :
  dimmer_ok s /\ counters_ok s ->
  dimmer_ok (Session.fade_out_from level s) /\
  counters_ok (Session.fade_out_from level s).
Proof.
  unfold dimmer_ok, counters_ok, Session.fade_out_from.
  intros [(Hocr & Hdf & Hirq) Hc].
  destruct (Z.eqb_spec (Session.df s) 0) as [H0 | H0]; session_fields.
  - split; [| exact Hc]. split; [reflexivity |]. split; [lia | reflexivity].
  - split; [| exact Hc]. split; [exact Hocr |]. split; [lia |].
    rewrite Hirq. by destruct (Z.eqb_spec (Session.df s) 0).
Qed.

Lemma check_input_ok p s :
  dimmer_ok s /\ counters_ok s ->
  dimmer_ok (Session.check_input p s) /\ counters_ok (Session.check_input p s).
Proof.
  intros Hs. unfold Session.check_input.
  destruct (Z.eqb_spec (u8 (Session.ktc s + 1)) 5) as [H5 | H5].
  - session_fields. destruct (GetButtons p (Session.buttons s)) as [ev b].
    destruct (negb (Z.land ev BUTTON_LEFT =? 0)).
    + destruct Hs as [Hd (Hk & Hsp & Hi)]. split; [exact Hd |].
      unfold counters_ok. session_fields. split; [lia |]. split; [| by left].
      destruct Hsp as [-> | [-> | [-> | ->]]]; vm_compute; tauto.
    + assert (dimmer_ok (Session.with_buttons b
                (Session.with_counters (Session.iterations s) (Session.speed s)
                   (Session.itc s) 0 s)) /\
              counters_ok (Session.with_buttons b
                (Session.with_counters (Session.iterations s) (Session.speed s)
                   (Session.itc s) 0 s))) as Hs'.
      { destruct Hs as [Hd (Hk & Hsp & Hi)]. split; [exact Hd |].
        unfold counters_ok. session_fields. split; [lia | tauto]. }
      destruct (negb (Z.land ev BUTTON_RIGHT =? 0)); [| exact Hs'].
      by apply fade_out_from_ok.
  - destruct Hs as [Hd (Hk & Hsp & Hi)]. split; [exact Hd |].
    unfold counters_ok. session_fields. split; [| tauto].
    unfold u8 in *. rewrite Z.mod_small in * by lia. lia.
Qed.

Lemma update_state_ok s s' :
  Session.update_state s = Some s' ->
  dimmer_ok s /\ counters_ok s -> dimmer_ok s' /\ counters_ok s'.
Proof.
  unfold Session.update_state. intros Hrun Hs.
  destruct (Z.ltb_spec 0 (Session.speed s)) as [Hsp | Hsp];
    [| by inversion Hrun; subst].
  assert (u8 (Session.itc s + 1) = Session.itc s + 1) as Hitc.
  { destruct Hs as [_ (_ & Hv & Hi)]. unfold u8. apply Z.mod_small. lia. }
  rewrite Hitc in Hrun.
  destruct (Z.eqb_spec (Session.itc s + 1) (Session.speed s)) as [Heq | Hne].
  - session_fields.
    destruct (life _ _ _) as [[st fb'] |]; [| discriminate].
    inversion Hrun as [Hs']. clear Hrun Hs'.
    assert (forall x, dimmer_ok x /\ counters_ok x ->
              dimmer_ok (Session.with_frame (u8 (Z.lxor (Session.fb_base x) 8))
                                            (Session.framebuf x) x) /\
              counters_ok (Session.with_frame (u8 (Z.lxor (Session.fb_base x) 8))
                                              (Session.framebuf x) x)) as Hflip
      by (intros x Hx; exact Hx).
    apply Hflip.
    assert (forall it,
              dimmer_ok (Session.with_counters it (Session.speed s) 0
                           (Session.ktc s) s) /\
              counters_ok (Session.with_counters it (Session.speed s) 0
                             (Session.ktc s) s)) as Hreset.
    { intros it. destruct Hs as [Hd (Hk & Hv & Hi)]. split; [exact Hd |].
      unfold counters_ok. session_fields. tauto. }
    destruct (negb (st =? ACTIVE)).
    + apply fade_out_from_ok. exact (Hreset (Session.iterations s)).
    + session_fields.
      destruct (35 <? u16 (Session.iterations s + 1)).
      * apply fade_out_from_ok. exact (Hreset _).
      * exact (Hreset _).
  - inversion Hrun as [Hs']. destruct Hs as [Hd (Hk & Hv & Hi)].
    split; [exact Hd |]. unfold counters_ok. session_fields.
    split; [exact Hk |]. split; [exact Hv |]. lia.
Qed.

Lemma handle_fading_ok s :
  dimmer_ok s /\ counters_ok s ->
  dimmer_ok (fst (Session.handle_fading s)) /\
  counters_ok (fst (Session.handle_fading s)).
Proof.
  unfold Session.handle_fading. intros [(Hocr & Hdf & Hirq) Hc].
  destruct (Z.ltb_spec 0 (Session.df s)) as [Hpos | Hpos].
  - destruct (Session.fade s <? FADE_BRIGHT); cbn [fst].
    + split; [| exact Hc]. unfold dimmer_ok. by session_fields.
    + split; [| exact Hc]. unfold dimmer_ok. session_fields.
      split; [exact Hocr |]. split; [lia | reflexivity].
  - destruct (Z.ltb_spec (Session.df s) 0) as [Hneg | Hneg];
      [| by cbn [fst]].
    destruct (- Session.df s <? Session.fade s); cbn [fst]; [| done].
    split; [| exact Hc]. unfold dimmer_ok. by session_fields.
Qed.

Lemma iter_ok p s s' left :
  Session.iter p s = Some (s', left) ->
  dimmer_ok s /\ counters_ok s -> dimmer_ok s' /\ counters_ok s'.
Proof.
  unfold Session.iter. intros Hrun Hs.
  destruct (Session.update_state (Session.check_input p s)) as [s1 |] eqn:Hup;
    [| discriminate].
  inversion Hrun as [Hpair].
  pose proof (update_state_ok _ _ Hup (check_input_ok p s Hs)) as Hs1.
  apply handle_fading_ok in Hs1. by rewrite Hpair in Hs1.
Qed.

(** What every pass keeps, every run of passes keeps. *)
Lemma iters_keep (I : Session.state -> Prop) :
  (forall p s s' left, Session.iter p s = Some (s', left) -> I s -> I s') ->
  forall n k pinc s s' left,
    Session.iters n k pinc s = Some (s', left) -> I s -> I s'.
Proof.
  intros Hstep. induction n as [| n IH]; intros k pinc s s' left Hrun Hs.
  - simpl in Hrun. by inversion Hrun; subst.
  - cbn [Session.iters] in Hrun.
    destruct (Session.iter (pinc k) s) as [[s1 l1] |] eqn:Hiter; [| discriminate].
    pose proof (Hstep _ _ _ _ Hiter Hs) as Hs1.
    destruct l1; [by inversion Hrun; subst |]. by apply (IH _ _ _ _ _ Hrun).
Qed.

(** X13.  In a session of [do_life], whatever the buttons do and after any
    number of passes: the compare register [OCR0B] holds [fade]; [df] is
    2, 0 or -2, and the dimming interrupt is enabled exactly when [df] is
    not 0; [ktc] is below 5, [speed] is 0, 4, 8 or 12, and [itc] is 0 or
    below [speed], so neither counter can run past the value it is
    compared with. *)
Theorem session_keeps_dimmer_and_counters
  (adc : nat -> Z) (fb : list Z) (b : Buttons.state)
  (n : nat) (pinc : nat -> Z) :
  length fb = 16%nat ->
  exists s0 s left,
    Session.start adc fb b = Some s0 /\
    Session.iters n 0 pinc s0 = Some (s, left) /\
    dimmer_ok s /\ counters_ok s.
Proof.
  intros Hlen.
  destruct (start_frame adc fb b Hlen) as (s0 & Hstart & Hlen0 & Hbase0).
  destruct (iters_frame n 0%nat pinc s0 Hlen0 (or_intror Hbase0))
    as (s & left & Hrun & _).
  exists s0, s, left. split; [exact Hstart |]. split; [exact Hrun |].
  apply (iters_keep (fun x => dimmer_ok x /\ counters_ok x) iter_ok
           _ _ _ _ _ _ Hrun).
  unfold Session.start in Hstart.
  destruct ((clear_screen 0 16;; random_field adc 8) fb) as [[u fb'] |];
    [| discriminate].
  inversion Hstart as [Hs0].
  unfold dimmer_ok, counters_ok. session_fields.
  repeat split; (reflexivity || lia || tauto).
Qed.

(** An instance: the glider, 400 passes, the left button down throughout. *)
Lemma session_keeps_dimmer_and_counters_witness :
  exists s0 s left,
    Session.start glider_adc (replicate 16 0) Buttons.init = Some s0 /\
    Session.iters 400 0 (fun _ => 32) s0 = Some (s, left) /\
    dimmer_ok s /\ counters_ok s.
Proof.
  apply (session_keeps_dimmer_and_counters glider_adc (replicate 16 0)
           Buttons.init 400 (fun _ => 32)).
  reflexivity.
Defined.

(** ** The session: how it starts *)

(** X14.  Whatever the sixteen words of the frame buffer hold on entry,
    [do_life] reaches its loop with the page at 8 visible; on that page
    every cell is dead (0) or red (2), row [r] of column [i] red exactly
    when the conversion 8 i + 7 - r read odd; the other page is all zero;
    and the dimmer is at FADE_DARK with its interrupt enabled. *)
Theorem session_starts_seeded (adc : nat -> Z) (fb : list Z) (b : Buttons.state) :
  length fb = 16%nat ->
  exists s0,
    Session.start adc fb b = Some s0 /\
    length (Session.framebuf s0) = 16%nat /\
    Session.fb_base s0 = 8 /\
    (forall i r, 0 <= i < 8 -> 0 <= r < 8 ->
       cell (column (Session.framebuf s0) (Z.to_nat (Session.fb_base s0)) i) r
       = if Z.testbit (adc (8 * Z.to_nat i + Z.to_nat (7 - r))%nat) 0
         then 2 else 0) /\
    (forall k, (k < 8)%nat -> Session.framebuf s0 !! k = Some 0) /\
    Session.OCR0B s0 = FADE_DARK /\ Session.fade_irq s0 = true.
Proof.
  intros Hlen. unfold Session.start.
  destruct (clear_screen_post 16 0 fb ltac:(lia))
    as (m1 & Hrun1 & Hlen1 & Hzero & _).
  destruct (random_field_post adc 8 m1 ltac:(lia))
    as (m2 & Hrun2 & Hlen2 & Hout & Hin).
  rewrite (bind_run _ _ _ _ _ Hrun1), Hrun2.
  eexists. split; [reflexivity |]. session_fields.
  split; [lia |]. split; [reflexivity |]. split.
  { intros i r Hi Hr. unfold column. rewrite Z.mod_small by lia.
    change (Z.to_nat (Z.lxor 0 8)) with 8%nat.
    rewrite Hin by lia. by apply random_column_cell. }
  split; [| done].
  intros k Hk. rewrite Hout by lia. apply Hzero. lia.
Qed.

(** An instance: power-up noise in the buffer, the glider on the ADC. *)
Lemma session_starts_seeded_witness :
  exists s0,
    Session.start glider_adc (replicate 16 43690) Buttons.init = Some s0 /\
    length (Session.framebuf s0) = 16%nat /\
    Session.fb_base s0 = 8 /\
    (forall i r, 0 <= i < 8 -> 0 <= r < 8 ->
       cell (column (Session.framebuf s0) (Z.to_nat (Session.fb_base s0)) i) r
       = if Z.testbit (glider_adc (8 * Z.to_nat i + Z.to_nat (7 - r))%nat) 0
         then 2 else 0) /\
    (forall k, (k < 8)%nat -> Session.framebuf s0 !! k = Some 0) /\
    Session.OCR0B s0 = FADE_DARK /\ Session.fade_irq s0 = true.
Proof.
  apply (session_starts_seeded glider_adc (replicate 16 43690) Buttons.init).
  reflexivity.
Defined.

(** ** The session: one pass, case by case *)

Lemma fade_out_from_fields level s :
  Session.df (Session.fade_out_from level s) = -2 /\
  Session.fade (Session.fade_out_from level s)
  = (if Session.df s =? 0 then level else Session.fade s) /\
  Session.iterations (Session.fade_out_from level s) = Session.iterations s /\
  Session.speed (Session.fade_out_from level s) = Session.speed s /\
  Session.itc (Session.fade_out_from level s) = Session.itc s /\
  Session.buttons (Session.fade_out_from level s) = Session.buttons s.
Proof.
  unfold Session.fade_out_from.
  destruct (Session.df s =? 0); session_fields; tauto.
Qed.

(** The buttons, whatever they do, leave a fade-out as it is. *)
Lemma check_input_fading_out p s :
  Session.df s = -2 ->
  Session.df (Session.check_input p s) = -2 /\
  Session.fade (Session.check_input p s) = Session.fade s.
Proof.
  intros Hdf. unfold Session.check_input.
  destruct (u8 (Session.ktc s + 1) =? 5); [| by session_fields].
  session_fields. destruct (GetButtons p (Session.buttons s)) as [ev b].
  destruct (negb (Z.land ev BUTTON_LEFT =? 0)); [by session_fields |].
  destruct (negb (Z.land ev BUTTON_RIGHT =? 0)); [| by session_fields].
  match goal with
  | |- context [Session.fade_out_from ?l ?x] =>
      destruct (fade_out_from_fields l x) as (-> & -> & _)
  end.
  session_fields. by rewrite Hdf.
Qed.

(** With no button down and none seen down before, a pass reads no
    event: nothing but [ktc] and the statics can change. *)
Lemma check_input_quiet p s :
  pattern p = 3 -> quiet (Session.buttons s) ->
  quiet (Session.buttons (Session.check_input p s)) /\
  Session.df (Session.check_input p s) = Session.df s /\
  Session.fade (Session.check_input p s) = Session.fade s /\
  Session.iterations (Session.check_input p s) = Session.iterations s /\
  Session.speed (Session.check_input p s) = Session.speed s /\
  Session.itc (Session.check_input p s) = Session.itc s.
Proof.
  intros Hp Hq. unfold Session.check_input.
  destruct (u8 (Session.ktc s + 1) =? 5); [| by session_fields].
  session_fields.
  assert (fst (GetButtons p (Session.buttons s)) = 0 /\
          quiet (snd (GetButtons p (Session.buttons s)))) as [Hev Hb].
  { unfold GetButtons, quiet in *. fold (pattern p). rewrite Hp.
    destruct (REPEAT_THRESHOLD <=? Buttons.repeat (Session.buttons s));
      [by split; [| left] |].
    destruct Hq as [H | H]; rewrite H.
    - change (3 =? 3) with true. cbn [negb fst snd]. by split; [| left].
    - change (3 =? 255) with false. cbn [negb fst snd Buttons.prevState].
      by split; [| left]. }
  destruct (GetButtons p (Session.buttons s)) as [ev b].
  cbn [fst snd] in Hev, Hb. subst ev.
  change (negb (Z.land 0 BUTTON_LEFT =? 0)) with false.
  change (negb (Z.land 0 BUTTON_RIGHT =? 0)) with false.
  cbv iota. by session_fields.
Qed.

(** The generation step of a pass: either no generation is due and only
    [itc] moves, or one is computed, [itc] starts again, and either the
    generation is counted, or a fade-out is under way afterwards. *)
Lemma update_state_cases s :
  frame_ok s ->
  exists s',
    Session.update_state s = Some s' /\ frame_ok s' /\
    Session.buttons s' = Session.buttons s /\
    Session.speed s' = Session.speed s /\
    ((~ (0 < Session.speed s /\ u8 (Session.itc s + 1) = Session.speed s) /\
      Session.itc s' = (if 0 <? Session.speed s then u8 (Session.itc s + 1)
                        else Session.itc s) /\
      Session.df s' = Session.df s /\ Session.fade s' = Session.fade s /\
      Session.iterations s' = Session.iterations s)
     \/
     (0 < Session.speed s /\ u8 (Session.itc s + 1) = Session.speed s /\
      Session.itc s' = 0 /\
      ((Session.df s' = Session.df s /\ Session.fade s' = Session.fade s /\
        Session.iterations s' = u16 (Session.iterations s + 1) /\
        Session.iterations s' <= 35)
       \/
       (Session.df s' = -2 /\
        (Session.df s <> 0 /\ Session.fade s' = Session.fade s \/
         Session.df s = 0 /\
         (Session.fade s' = FADE_DARK \/ Session.fade s' = FADE_BRIGHT)))))).
Proof.
  intros [Hlen Hbase]. unfold Session.update_state.
  destruct (Z.ltb_spec 0 (Session.speed s)) as [Hsp | Hsp].
  2: { exists s. split; [done |]. split; [done |]. split; [done |].
       split; [done |]. left. split; [lia | done]. }
  destruct (Z.eqb_spec (u8 (Session.itc s + 1)) (Session.speed s)) as [Heq | Hne].
  2: { eexists. split; [reflexivity |]. session_fields.
       split; [done |]. split; [done |]. split; [done |].
       left. split; [tauto | done]. }
  session_fields.
  destruct (life_post (Session.framebuf s) (Z.to_nat (Session.fb_base s))
              (Z.to_nat (Z.lxor (Session.fb_base s) 8)))
    as (m' & -> & Hlen' & _).
  { destruct Hbase as [-> | ->]; rewrite Hlen; vm_compute; lia. }
  { destruct Hbase as [-> | ->]; rewrite Hlen; vm_compute; lia. }
  { destruct Hbase as [-> | ->]; vm_compute; lia. }
  eexists. split; [reflexivity |]. session_fields.
  assert (forall b, b = 0 \/ b = 8 -> u8 (Z.lxor b 8) = 0 \/ u8 (Z.lxor b 8) = 8)
    as Hflip by (intros b [-> | ->]; vm_compute; tauto).
  assert (forall l, l = FADE_DARK \/ l = FADE_BRIGHT ->
            Session.df s <> 0 /\
            (if Session.df s =? 0 then l else Session.fade s) = Session.fade s \/
            Session.df s = 0 /\
            ((if Session.df s =? 0 then l else Session.fade s) = FADE_DARK \/
             (if Session.df s =? 0 then l else Session.fade s) = FADE_BRIGHT))
    as Hlevel.
  { intros l Hl. destruct (Z.eqb_spec (Session.df s) 0); [by right | by left]. }
  destruct (negb (_ =? ACTIVE)).
  - match goal with
    | |- context [Session.fade_out_from ?l ?x] =>
        destruct (fade_out_from_fields l x) as (Hd & Hf & Hi & Hs & Hc & Hb);
        destruct (fade_out_from_frame l x) as [Hfb Hfbase];
        rewrite ?Hd, ?Hf, ?Hi, ?Hs, ?Hc, ?Hb, ?Hfb, ?Hfbase
    end.
    unfold frame_ok. session_fields.
      split; [split; [congruence | by apply Hflip] |].
    split; [done |]. split; [done |]. right.
    split; [done |]. split; [done |]. split; [done |]. right.
    split; [done |]. apply Hlevel. destruct (_ =? DEAD); tauto.
  - session_fields. destruct (Z.ltb_spec 35 (u16 (Session.iterations s + 1))).
    + match goal with
      | |- context [Session.fade_out_from ?l ?x] =>
          destruct (fade_out_from_fields l x) as (Hd & Hf & Hi & Hs & Hc & Hb);
          destruct (fade_out_from_frame l x) as [Hfb Hfbase];
          rewrite ?Hd, ?Hf, ?Hi, ?Hs, ?Hc, ?Hb, ?Hfb, ?Hfbase
      end.
      unfold frame_ok. session_fields.
      split; [split; [congruence | by apply Hflip] |].
      split; [done |]. split; [done |]. right.
      split; [done |]. split; [done |]. split; [done |]. right.
      split; [done |]. apply Hlevel. tauto.
    + unfold frame_ok. session_fields.
      split; [split; [congruence | by apply Hflip] |].
      split; [done |]. split; [done |]. right.
      split; [done |]. split; [done |]. split; [done |]. left. done.
Qed.

(** The fade of a pass during a fade-out: two steps down, or the end of
    the loop at level 2 or below. *)
Lemma handle_fading_out s :
  Session.df s = -2 -> 0 <= Session.fade s <= 257 ->
  (2 < Session.fade s /\
   snd (Session.handle_fading s) = false /\
   Session.fade (fst (Session.handle_fading s)) = Session.fade s - 2 /\
   Session.df (fst (Session.handle_fading s)) = -2 \/
   Session.fade s <= 2 /\ Session.handle_fading s = (s, true)).
Proof.
  intros Hdf Hfade. unfold Session.handle_fading. rewrite Hdf.
  change (0 <? -2) with false. change (-2 <? 0) with true. cbv iota.
  change (- -2) with 2.
  destruct (Z.ltb_spec 2 (Session.fade s)); [left | by right].
  cbn [fst snd]. session_fields. split; [done |]. split; [done |].
  split; [| done]. unfold u8. rewrite Z.mod_small by lia. lia.
Qed.

(** The fade of a pass otherwise: the counters and the statics stay. *)
Lemma handle_fading_in s :
  Session.df s = 2 \/ Session.df s = 0 ->
  snd (Session.handle_fading s) = false /\
  (Session.df (fst (Session.handle_fading s)) = 2 \/
   Session.df (fst (Session.handle_fading s)) = 0).
Proof.
  intros Hdf. unfold Session.handle_fading.
  destruct Hdf as [H | H]; rewrite H.
  - change (0 <? 2) with true. cbv iota.
    destruct (Session.fade s <? FADE_BRIGHT); cbn [fst snd]; session_fields;
      tauto.
  - change (0 <? 0) with false. cbv iota. cbn [fst snd]. tauto.
Qed.

Lemma handle_fading_rest s :
  Session.iterations (fst (Session.handle_fading s)) = Session.iterations s /\
  Session.speed (fst (Session.handle_fading s)) = Session.speed s /\
  Session.itc (fst (Session.handle_fading s)) = Session.itc s /\
  Session.buttons (fst (Session.handle_fading s)) = Session.buttons s.
Proof.
  unfold Session.handle_fading.
  repeat match goal with
         | |- context [if ?b then _ else _] => destruct b
         end; by session_fields.
Qed.

(** ** The session: how it ends *)

Lemma iter_fading_out p s :
  frame_ok s -> Session.df s = -2 -> 0 <= Session.fade s <= 257 ->
  exists s',
    frame_ok s' /\ Session.df s' = -2 /\
    (2 < Session.fade s /\ Session.iter p s = Some (s', false) /\
     Session.fade s' = Session.fade s - 2
     \/
     Session.fade s <= 2 /\ Session.iter p s = Some (s', true) /\
     Session.fade s' = Session.fade s).
Proof.
  intros Hframe Hdf Hfade. unfold Session.iter.
  destruct (check_input_fading_out p s Hdf) as [Hd1 Hf1].
  destruct (check_input_frame p s) as [Hfb1 Hb1].
  assert (frame_ok (Session.check_input p s)) as Hframe1
    by (unfold frame_ok; rewrite Hfb1, Hb1; exact Hframe).
  destruct (update_state_cases _ Hframe1)
    as (s2 & -> & Hframe2 & _ & _ & Hcases).
  assert (Session.df s2 = -2 /\ Session.fade s2 = Session.fade s) as [Hd2 Hf2].
  { destruct Hcases as [(_ & _ & Hd & Hf & _) | (_ & _ & _ & Hgen)];
      [split; congruence |].
    destruct Hgen as [(Hd & Hf & _) | (Hd & [[_ Hf] | [H0 _]])];
      [split; congruence | split; congruence | lia]. }
  destruct (handle_fading_frame s2) as [Hfb3 Hb3].
  destruct (handle_fading_out s2 Hd2 ltac:(lia))
    as [(Hgt & Hsnd & Hf3 & Hd3) | (Hle & Hend)].
  - exists (fst (Session.handle_fading s2)).
    split; [unfold frame_ok; rewrite Hfb3, Hb3; exact Hframe2 |].
    split; [exact Hd3 |]. left. split; [lia |]. split; [| lia].
    destruct (Session.handle_fading s2) as [s3 l]. cbn [fst snd] in *.
    by subst l.
  - exists s2. split; [exact Hframe2 |]. split; [exact Hd2 |]. right.
    split; [lia |]. split; [by rewrite Hend | exact Hf2].
Qed.

Lemma fade_out_steps pinc : forall (n k : nat) s,
  frame_ok s -> Session.df s = -2 ->
  2 * Z.of_nat n + 1 <= Session.fade s <= 2 * Z.of_nat n + 2 ->
  Session.fade s <= 257 ->
  exists s1 s2,
    Session.iters n k pinc s = Some (s1, false) /\
    Session.iters (S n) k pinc s = Some (s2, true) /\
    1 <= Session.fade s2 <= 2 /\ frame_ok s2.
Proof.
  induction n as [| n IH]; intros k s Hframe Hdf Hn Hmax.
  - destruct (iter_fading_out (pinc k) s Hframe Hdf ltac:(lia))
      as (s' & Hframe' & _ & [(Hgt & _) | (_ & Hrun & Hf)]); [lia |].
    exists s, s'. split; [reflexivity |]. cbn [Session.iters]. rewrite Hrun.
    split; [reflexivity |]. split; [lia | exact Hframe'].
  - destruct (iter_fading_out (pinc k) s Hframe Hdf ltac:(lia))
      as (s' & Hframe' & Hdf' & [(_ & Hrun & Hf) | (Hle & _)]); [| lia].
    destruct (IH (S k) s' Hframe' Hdf' ltac:(lia) ltac:(lia))
      as (s1 & s2 & Hrun1 & Hrun2 & Hlow & Hframe2).
    exists s1, s2.
    split; [cbn [Session.iters]; by rewrite Hrun |].
    split; [| done].
    change (Session.iters (S (S n)) k pinc s)
      with (match Session.iter (pinc k) s with
            | None => None
            | Some (s', true) => Some (s', true)
            | Some (s', false) => Session.iters (S n) (S k) pinc s'
            end).
    by rewrite Hrun.
Qed.

(** X15.  Once a fade-out is under way ([df] is -2), nothing the buttons
    do can stop or prolong it: with the level at [fade], the loop of
    [do_life] goes through (fade - 1) / 2 more passes and is left in the
    next one, at level 1 or 2. *)
Theorem fade_out_ends (s : Session.state) (k : nat) (pinc : nat -> Z) :
  frame_ok s -> Session.df s = -2 ->
  FADE_DARK <= Session.fade s <= FADE_BRIGHT + 1 ->
  exists s1 s2,
    Session.iters (Z.to_nat ((Session.fade s - 1) / 2)) k pinc s
    = Some (s1, false) /\
    Session.iters (S (Z.to_nat ((Session.fade s - 1) / 2))) k pinc s
    = Some (s2, true) /\
    FADE_DARK <= Session.fade s2 <= 2 /\ frame_ok s2.
Proof.
  unfold FADE_DARK, FADE_BRIGHT, REFRESH. intros Hframe Hdf Hfade.
  apply fade_out_steps; [exact Hframe | exact Hdf | | lia].
  rewrite Z2Nat.id by (apply Z.div_pos; lia).
  Z.div_mod_to_equations. lia.
Qed.

(** An instance: the right button is tapped with the display at full
    brightness, and then the left button is held down. *)
Lemma fade_out_ends_witness :
  exists s1 s2,
    Session.iters (Z.to_nat ((156 - 1) / 2)) 0 (fun _ => 32)
      {| Session.iterations := 3; Session.df := -2; Session.fade := 156;
         Session.speed := 8; Session.itc := 2; Session.ktc := 0;
         Session.fb_base := 8; Session.framebuf := replicate 16 0;
         Session.OCR0B := 156; Session.fade_irq := true;
         Session.buttons := idle |}
    = Some (s1, false) /\
    Session.iters (S (Z.to_nat ((156 - 1) / 2))) 0 (fun _ => 32)
      {| Session.iterations := 3; Session.df := -2; Session.fade := 156;
         Session.speed := 8; Session.itc := 2; Session.ktc := 0;
         Session.fb_base := 8; Session.framebuf := replicate 16 0;
         Session.OCR0B := 156; Session.fade_irq := true;
         Session.buttons := idle |}
    = Some (s2, true) /\
    FADE_DARK <= Session.fade s2 <= 2 /\ frame_ok s2.
Proof.
  apply (fade_out_ends
           {| Session.iterations := 3; Session.df := -2; Session.fade := 156;
              Session.speed := 8; Session.itc := 2; Session.ktc := 0;
              Session.fb_base := 8; Session.framebuf := replicate 16 0;
              Session.OCR0B := 156; Session.fade_irq := true;
              Session.buttons := idle |} 0 (fun _ => 32)).
  - split; [reflexivity | by right].
  - reflexivity.
  - vm_compute. split; discriminate.
Defined.

(** A pass of the session nobody touches either leaves the loop, or
    leaves a session nobody touched with fewer passes left. *)
Lemma iter_untouched p s :
  pattern p = 3 -> untouched s ->
  exists s' left,
    Session.iter p s = Some (s', left) /\ frame_ok s' /\
    (left = true \/ untouched s' /\ passes_left s' < passes_left s).
Proof.
  intros Hp (Hframe & Hq & Hsp & Hitc & Hfade & Hdf).
  unfold FADE_DARK, FADE_BRIGHT, REFRESH in Hfade.
  unfold Session.iter.
  destruct (check_input_quiet p s Hp Hq) as (Hq1 & Hd1 & Hf1 & Hi1 & Hs1 & Hc1).
  destruct (check_input_frame p s) as [Hfb1 Hb1].
  assert (frame_ok (Session.check_input p s)) as Hframe1
    by (unfold frame_ok; rewrite Hfb1, Hb1; exact Hframe).
  assert (fade_within_one (Session.check_input p s)) as Hw1.
  { unfold fade_within_one, FADE_DARK, FADE_BRIGHT, REFRESH.
    rewrite Hd1, Hf1. split; [lia | tauto]. }
  destruct (update_state_cases _ Hframe1)
    as (s2 & Hup & Hframe2 & Hb2 & Hs2 & Hcases).
  rewrite Hup.
  pose proof (update_state_within _ _ Hup Hw1) as Hw2.
  pose proof (handle_fading_within s2 Hw2) as Hw3.
  destruct (handle_fading_frame s2) as [Hfb3 Hbase3].
  destruct (handle_fading_rest s2) as (Hi3 & Hs3 & Hc3 & Hb3).
  exists (fst (Session.handle_fading s2)), (snd (Session.handle_fading s2)).
  split; [by destruct (Session.handle_fading s2) |].
  assert (frame_ok (fst (Session.handle_fading s2))) as Hframe3
    by (unfold frame_ok; rewrite Hfb3, Hbase3; exact Hframe2).
  split; [exact Hframe3 |].
  rewrite Hs1, Hc1, Hd1, Hf1, Hi1 in Hcases. rewrite Hsp in Hcases.
  change (0 <? 8) with true in Hcases. cbv iota in Hcases.
  assert (u8 (Session.itc s + 1) = Session.itc s + 1) as Hu8
    by (unfold u8; apply Z.mod_small; lia).
  rewrite Hu8 in Hcases.
  assert (quiet (Session.buttons (fst (Session.handle_fading s2))) /\
          Session.speed (fst (Session.handle_fading s2)) = 8 /\
          0 <= Session.itc (fst (Session.handle_fading s2)) < 8) as Hkeep.
  { rewrite Hb3, Hb2, Hs3, Hs2, Hs1, Hc3. split; [exact Hq1 |].
    split; [exact Hsp |].
    destruct Hcases as [(Hno & -> & _) | (_ & _ & -> & _)]; lia. }
  destruct Hw2 as [Hfade2 Hdf2]. destruct Hw3 as [Hfade3 _].
  unfold FADE_DARK, FADE_BRIGHT, REFRESH in Hfade2, Hfade3.
  destruct (Z.eq_dec (Session.df s2) (-2)) as [Hout | Hin].
  - destruct (handle_fading_out s2 Hout ltac:(lia))
      as [(Hgt & Hsnd & Hf3 & Hd3) | (_ & Hend)];
      [right | left; by rewrite Hend].
    split.
    { split; [exact Hframe3 |]. unfold FADE_DARK, FADE_BRIGHT, REFRESH.
      destruct Hkeep as (Hk1 & Hk2 & Hk3).
      split; [exact Hk1 |]. split; [exact Hk2 |]. split; [exact Hk3 |].
      split; [lia | by left]. }
    unfold passes_left. rewrite Hd3. change (-2 =? -2) with true. cbv iota.
    rewrite Hf3.
    destruct (Z.eqb_spec (Session.df s) (-2)) as [Hwas | Hwas].
    + assert (Session.fade s2 = Session.fade s) as ->.
      { destruct Hcases as [(_ & _ & _ & Hf & _) | (_ & _ & _ & Hgen)];
          [exact Hf |].
        destruct Hgen as [(_ & Hf & _) | (_ & [[_ Hf] | [H0 _]])];
          [exact Hf | exact Hf | lia]. }
      Z.div_mod_to_equations. lia.
    + assert (Session.itc s = 7 /\ 0 <= Session.iterations s <= 35) as [H7 Hit].
      { destruct Hdf as [Hdf | [_ Hit]]; [lia |]. split; [| exact Hit].
        destruct Hcases as [(_ & _ & Hd & _) | (_ & H8 & _)]; lia. }
      Z.div_mod_to_equations. lia.
  - assert (Session.df s2 = 2 \/ Session.df s2 = 0) as Hdf2' by lia.
    destruct (handle_fading_in s2 Hdf2') as [Hsnd Hd3]. right.
    assert (Session.df s2 = Session.df s /\
            (Session.itc s2 = Session.itc s + 1 /\
             Session.iterations s2 = Session.iterations s
             \/
             Session.itc s = 7 /\ Session.itc s2 = 0 /\
             Session.iterations s2 = u16 (Session.iterations s + 1) /\
             Session.iterations s2 <= 35)) as [Hsame Hcount].
    { destruct Hcases as [(_ & Hc & Hd & _ & Hi) | (_ & H8 & Hc & Hgen)].
      - split; [exact Hd |]. by left.
      - destruct Hgen as [(Hd & _ & Hi & Hle) | (Hd & _)]; [| lia].
        split; [exact Hd |]. right. split; [lia | done]. }
    assert (0 <= Session.iterations s <= 35) as Hit.
    { destruct Hdf as [Hdf | [_ Hit]]; [lia | exact Hit]. }
    assert (u16 (Session.iterations s + 1) = Session.iterations s + 1) as Hu16
      by (unfold u16; apply Z.mod_small; lia).
    rewrite Hu16 in Hcount.
    split.
    { split; [exact Hframe3 |]. unfold FADE_DARK, FADE_BRIGHT, REFRESH.
      destruct Hkeep as (Hk1 & Hk2 & Hk3).
      split; [exact Hk1 |]. split; [exact Hk2 |]. split; [exact Hk3 |].
      split; [lia |]. right. split; [exact Hd3 |]. rewrite Hi3. lia. }
    unfold passes_left. rewrite Hi3, Hc3.
    destruct (Z.eqb_spec (Session.df (fst (Session.handle_fading s2))) (-2));
      [lia |].
    destruct (Z.eqb_spec (Session.df s) (-2)); [lia |]. lia.
Qed.

Lemma passes_left_nonneg s : untouched s -> 0 <= passes_left s.
Proof.
  unfold untouched, passes_left, FADE_DARK.
  intros (_ & _ & _ & Hitc & Hfade & Hdf).
  destruct (Z.eqb_spec (Session.df s) (-2)) as [Hout | Hin].
  - apply Z.div_pos; lia.
  - destruct Hdf as [Hdf | [_ Hit]]; lia.
Qed.

Lemma untouched_ends pinc :
  (forall k, pattern (pinc k) = 3) ->
  forall (n k : nat) s,
    untouched s -> passes_left s < Z.of_nat n ->
    exists s', Session.iters n k pinc s = Some (s', true) /\ frame_ok s'.
Proof.
  intros Hpinc. induction n as [| n IH]; intros k s Hs Hn.
  - pose proof (passes_left_nonneg s Hs). lia.
  - cbn [Session.iters].
    destruct (iter_untouched (pinc k) s (Hpinc k) Hs)
      as (s1 & left & -> & Hframe1 & [-> | [Hs1 Hless]]).
    + by exists s1.
    + destruct left; [by exists s1 |]. apply IH; [exact Hs1 | lia].
Qed.

(** X16.  A session nobody touches comes to an end: with no button down
    at any poll, and none seen down before, [do_life] leaves its loop
    within 367 passes, whatever the ADC seeded the board with, then
    clears the sixteen words of the frame buffer and disables the dimming
    interrupt. *)
Theorem untouched_session_returns
  (adc : nat -> Z) (fb : list Z) (b : Buttons.state) (pinc : nat -> Z) :
  length fb = 16%nat -> quiet b -> (forall k, pattern (pinc k) = 3) ->
  exists s0 s1 s2,
    Session.start adc fb b = Some s0 /\
    Session.iters 367 0 pinc s0 = Some (s1, true) /\
    Session.finish s1 = Some s2 /\
    (forall k, (k < 16)%nat -> Session.framebuf s2 !! k = Some 0) /\
    Session.fade_irq s2 = false.
Proof.
  intros Hlen Hq Hpinc.
  destruct (start_frame adc fb b Hlen) as (s0 & Hstart & Hlen0 & Hbase0).
  assert (untouched s0 /\ passes_left s0 = 366) as [Hs0 Hleft].
  { unfold Session.start in Hstart.
    destruct ((clear_screen 0 16;; random_field adc 8) fb) as [[u fb'] |];
      [| discriminate].
    inversion Hstart as [Heq]. rewrite <- Heq in Hlen0, Hbase0.
    split; [| reflexivity].
    split; [split; [exact Hlen0 | right; exact Hbase0] |].
    session_fields. split; [exact Hq |]. split; [reflexivity |].
    split; [lia |]. split; [by vm_compute |]. right. split; [by left | lia]. }
  destruct (untouched_ends pinc Hpinc 367 0%nat s0 Hs0 ltac:(lia))
    as (s1 & Hrun & Hlen1 & Hbase1).
  destruct (clear_screen_post 16 0 (Session.framebuf s1) ltac:(lia))
    as (m' & Hclear & _ & Hzero & _).
  exists s0, s1. eexists. split; [exact Hstart |]. split; [exact Hrun |].
  unfold Session.finish. rewrite Hclear. split; [reflexivity |].
  session_fields. split; [| reflexivity].
  intros k Hk. apply Hzero. lia.
Qed.

(** An instance: the glider, the frame buffer all zero, the statics of
    power-up, both button lines high. *)
Lemma untouched_session_returns_witness :
  exists s0 s1 s2,
    Session.start glider_adc (replicate 16 0) Buttons.init = Some s0 /\
    Session.iters 367 0 no_buttons s0 = Some (s1, true) /\
    Session.finish s1 = Some s2 /\
    (forall k, (k < 16)%nat -> Session.framebuf s2 !! k = Some 0) /\
    Session.fade_irq s2 = false.
Proof.
  apply (untouched_session_returns glider_adc (replicate 16 0) Buttons.init
           no_buttons).
  - reflexivity.
  - by right.
  - intros k. reflexivity.
Defined.

(** ** The session: what is on display *)

(** X17.  The generation step of a pass of [do_life], on a frame buffer
    of sixteen words with the base on a page.  When a generation is due
    ([speed] is not 0 and the incremented [itc] reaches it), the pages
    are flipped and every cell of the page then visible is what the rule
    of the automaton makes of the page that was visible before; when none
    is due, the visible page and the frame buffer stay as they are. *)
Theorem page_flip_shows_next (s : Session.state) :
  frame_ok s ->
  exists s',
    Session.update_state s = Some s' /\ frame_ok s' /\
    if (0 <? Session.speed s) && (u8 (Session.itc s + 1) =? Session.speed s)
    then
      Session.fb_base s' = Z.lxor (Session.fb_base s) 8 /\
      forall i r, 0 <= i < 8 -> 0 <= r < 8 ->
        cell (column (Session.framebuf s') (Z.to_nat (Session.fb_base s')) i) r
        = rule (cell (column (Session.framebuf s)
                             (Z.to_nat (Session.fb_base s)) i) r)
               (live_neighbors (Session.framebuf s)
                               (Z.to_nat (Session.fb_base s)) i r)
    else
      Session.fb_base s' = Session.fb_base s /\
      Session.framebuf s' = Session.framebuf s.
Proof.
  intros [Hlen Hbase]. unfold Session.update_state.
  destruct (0 <? Session.speed s); cbn [andb];
    [| exists s; by split; [| split; [split |]]].
  destruct (u8 (Session.itc s + 1) =? Session.speed s).
  2: { eexists. split; [reflexivity |]. unfold frame_ok. by session_fields. }
  session_fields.
  destruct (life_step (Session.framebuf s) (Z.to_nat (Session.fb_base s))
              (Z.to_nat (Z.lxor (Session.fb_base s) 8)))
    as (m' & -> & Hlen' & _ & Hrule & _).
  { destruct Hbase as [-> | ->]; rewrite Hlen; vm_compute; lia. }
  { destruct Hbase as [-> | ->]; rewrite Hlen; vm_compute; lia. }
  { destruct Hbase as [-> | ->]; vm_compute; lia. }
  eexists. split; [reflexivity |]. unfold frame_ok. session_fields.
  assert (u8 (Z.lxor (Session.fb_base s) 8) = Z.lxor (Session.fb_base s) 8 /\
          (Z.lxor (Session.fb_base s) 8 = 0 \/ Z.lxor (Session.fb_base s) 8 = 8))
    as [Hu8 Hflip] by (destruct Hbase as [-> | ->]; vm_compute; tauto).
  destruct (negb (_ =? ACTIVE));
    [| session_fields; destruct (35 <? u16 (Session.iterations s + 1))];
    try match goal with
        | |- context [Session.fade_out_from ?l ?x] =>
            destruct (fade_out_from_frame l x) as [-> ->]
        end;
    session_fields; rewrite Hu8;
    (split; [split; [congruence | exact Hflip] |]);
    (split; [reflexivity | exact Hrule]).
Qed.

(** An instance: the glider on the page at 8, a generation due. *)
Lemma page_flip_shows_next_witness :
  exists s',
    Session.update_state
      {| Session.iterations := 0; Session.df := 2; Session.fade := 15;
         Session.speed := 8; Session.itc := 7; Session.ktc := 0;
         Session.fb_base := 8;
         Session.framebuf := [0; 0; 0; 0; 0; 0; 0; 0; 8; 32; 42; 0; 0; 0; 0; 0];
         Session.OCR0B := 15; Session.fade_irq := true;
         Session.buttons := idle |} = Some s' /\
    frame_ok s' /\
    (Session.fb_base s' = Z.lxor 8 8 /\
     forall i r, 0 <= i < 8 -> 0 <= r < 8 ->
       cell (column (Session.framebuf s') (Z.to_nat (Session.fb_base s')) i) r
       = rule (cell (column [0; 0; 0; 0; 0; 0; 0; 0; 8; 32; 42; 0; 0; 0; 0; 0]
                            (Z.to_nat 8) i) r)
              (live_neighbors [0; 0; 0; 0; 0; 0; 0; 0; 8; 32; 42; 0; 0; 0; 0; 0]
                              (Z.to_nat 8) i r)).
Proof.
  apply (page_flip_shows_next
           {| Session.iterations := 0; Session.df := 2; Session.fade := 15;
              Session.speed := 8; Session.itc := 7; Session.ktc := 0;
              Session.fb_base := 8;
              Session.framebuf :=
                [0; 0; 0; 0; 0; 0; 0; 0; 8; 32; 42; 0; 0; 0; 0; 0];
              Session.OCR0B := 15; Session.fade_irq := true;
              Session.buttons := idle |}).
  split; [reflexivity | by right].
Defined.

(** ** The session: what the buttons do *)

(** The byte a poll returns while no hold is due or registered. *)
Lemma event_of_poll p st :
  0 <= Buttons.repeat st -> Buttons.repeat st + 1 < REPEAT_THRESHOLD ->
  fst (GetButtons p st)
  = if pattern p =? Buttons.prevState st then 0
    else u8 (Z.land (Z.lnot (Buttons.prevState st)) (pattern p)).
Proof.
  intros H0 Hr.
  destruct (Z.eqb_spec (pattern p) (Buttons.prevState st)) as [Heq | Hne].
  - destruct (Z.eq_dec (pattern p) 3) as [H3 | H3].
    + unfold GetButtons. fold (pattern p). rewrite <- Heq, H3.
      replace (REPEAT_THRESHOLD <=? Buttons.repeat st) with false
        by (symmetry; apply Z.leb_gt; lia).
      reflexivity.
    + by rewrite GetButtons_same.
  - rewrite GetButtons_change; [reflexivity | lia | exact Hne].
Qed.

(** Its two low bits tell which buttons were released. *)
Lemma event_bits q c :
  0 <= q <= 3 -> 0 <= c <= 3 ->
  negb (Z.land (if c =? q then 0 else u8 (Z.land (Z.lnot q) c)) BUTTON_LEFT =? 0)
  = released q c 0 /\
  negb (Z.land (if c =? q then 0 else u8 (Z.land (Z.lnot q) c)) BUTTON_RIGHT =? 0)
  = released q c 1.
Proof.
  intros Hq Hc.
  assert (q = 0 \/ q = 1 \/ q = 2 \/ q = 3) as Hq' by lia.
  assert (c = 0 \/ c = 1 \/ c = 2 \/ c = 3) as Hc' by lia.
  destruct Hq' as [-> | [-> | [-> | ->]]];
    destruct Hc' as [-> | [-> | [-> | ->]]]; by vm_compute.
Qed.

(** X18.  A pass of [do_life] in which the buttons are polled, while no
    hold is due or registered.  If the left button is released in this
    poll (alone, or together with the right one), [speed] steps to
    (speed + 4) mod 16, [itc] starts again, and no fade-out is started;
    otherwise, if the right button is released, a fade-out is under way
    afterwards and [speed] and [itc] stay; otherwise nothing but [ktc]
    and the statics changes: pressing a button down does nothing. *)
Theorem poll_acts_on_release (p : Z) (s : Session.state) :
  u8 (Session.ktc s + 1) = 5 ->
  0 <= Buttons.repeat (Session.buttons s) ->
  Buttons.repeat (Session.buttons s) + 1 < REPEAT_THRESHOLD ->
  0 <= Buttons.prevState (Session.buttons s) <= 3 ->
  0 <= Session.speed s < 256 ->
  if released (Buttons.prevState (Session.buttons s)) (pattern p) 0 then
    Session.speed (Session.check_input p s) = (Session.speed s + 4) mod 16 /\
    Session.itc (Session.check_input p s) = 0 /\
    Session.df (Session.check_input p s) = Session.df s /\
    Session.fade (Session.check_input p s) = Session.fade s
  else if released (Buttons.prevState (Session.buttons s)) (pattern p) 1 then
    Session.df (Session.check_input p s) = -2 /\
    Session.speed (Session.check_input p s) = Session.speed s /\
    Session.itc (Session.check_input p s) = Session.itc s
  else
    Session.speed (Session.check_input p s) = Session.speed s /\
    Session.itc (Session.check_input p s) = Session.itc s /\
    Session.df (Session.check_input p s) = Session.df s /\
    Session.fade (Session.check_input p s) = Session.fade s.
Proof.
  intros Hk H0 Hr Hprev Hsp.
  pose proof (event_of_poll p (Session.buttons s) H0 Hr) as Hev.
  pose proof (pattern_range p) as Hcur.
  unfold Session.check_input. rewrite Hk. change (5 =? 5) with true. cbv iota.
  session_fields.
  destruct (GetButtons p (Session.buttons s)) as [ev b]. cbn [fst] in Hev.
  subst ev.
  destruct (event_bits (Buttons.prevState (Session.buttons s)) (pattern p)
              Hprev Hcur) as [-> ->].
  destruct (released (Buttons.prevState (Session.buttons s)) (pattern p) 0).
  - session_fields. split; [| done].
    unfold u8. change 15 with (Z.ones 4). rewrite Z.land_ones by lia.
    change (2 ^ 4) with 16. apply Z.mod_small.
    assert (0 <= (Session.speed s + 4) mod 16 < 16)
      by (apply Z.mod_pos_bound; lia).
    lia.
  - destruct (released (Buttons.prevState (Session.buttons s)) (pattern p) 1);
      [| by session_fields].
    match goal with
    | |- context [Session.fade_out_from ?l ?x] =>
        destruct (fade_out_from_fields l x) as (-> & _ & _ & -> & -> & _)
    end.
    by session_fields.
Qed.

(** An instance: the left button comes up with the session at its
    default speed. *)
Lemma poll_acts_on_release_witness :
  Session.speed
    (Session.check_input 48
       {| Session.iterations := 3; Session.df := 0; Session.fade := 157;
          Session.speed := 8; Session.itc := 2; Session.ktc := 4;
          Session.fb_base := 8; Session.framebuf := replicate 16 0;
          Session.OCR0B := 157; Session.fade_irq := false;
          Session.buttons :=
            {| Buttons.prevState := 2; Buttons.repeat := 3 |} |})
  = (8 + 4) mod 16 /\
  Session.itc
    (Session.check_input 48
       {| Session.iterations := 3; Session.df := 0; Session.fade := 157;
          Session.speed := 8; Session.itc := 2; Session.ktc := 4;
          Session.fb_base := 8; Session.framebuf := replicate 16 0;
          Session.OCR0B := 157; Session.fade_irq := false;
          Session.buttons :=
            {| Buttons.prevState := 2; Buttons.repeat := 3 |} |}) = 0 /\
  Session.df
    (Session.check_input 48
       {| Session.iterations := 3; Session.df := 0; Session.fade := 157;
          Session.speed := 8; Session.itc := 2; Session.ktc := 4;
          Session.fb_base := 8; Session.framebuf := replicate 16 0;
          Session.OCR0B := 157; Session.fade_irq := false;
          Session.buttons :=
            {| Buttons.prevState := 2; Buttons.repeat := 3 |} |}) = 0 /\
  Session.fade
    (Session.check_input 48
       {| Session.iterations := 3; Session.df := 0; Session.fade := 157;
          Session.speed := 8; Session.itc := 2; Session.ktc := 4;
          Session.fb_base := 8; Session.framebuf := replicate 16 0;
          Session.OCR0B := 157; Session.fade_irq := false;
          Session.buttons :=
            {| Buttons.prevState := 2; Buttons.repeat := 3 |} |}) = 157.
Proof.
  apply (poll_acts_on_release 48
           {| Session.iterations := 3; Session.df := 0; Session.fade := 157;
              Session.speed := 8; Session.itc := 2; Session.ktc := 4;
              Session.fb_base := 8; Session.framebuf := replicate 16 0;
              Session.OCR0B := 157; Session.fade_irq := false;
              Session.buttons :=
                {| Buttons.prevState := 2; Buttons.repeat := 3 |} |});
    cbn; (reflexivity || lia).
Defined.
